(** * e-govXLSTtoPDF: the ingestion-and-pairing engine

    A shallow embedding of the ZIP local-header walker [decompressZip] and of
    the batch routine [addFilesToStorage], as viewer.js has them, with the
    module state and the clear and delete handlers of viewer.js, and of
    [addFilesToStorage] as the React front end has it.  Around them: the
    folder walk of [handleDrop], the line folding of [applyTextFormatting],
    the row names of [renderUI], the previous and next keys of [showPair],
    and the selection and [deletePair] of the React front end.

    Conventions.
    - Byte buffers ([ArrayBuffer], [Blob] contents) are [list byte]; offsets
      and sizes are [Z], as the JavaScript numbers they are, and stay far
      below 2^53.  A number in a template literal is its decimal writing,
      [pretty].
    - JavaScript strings are [string]s of bytes: text is taken in UTF-8, and
      a ZIP path name is taken to be well-formed UTF-8 without a byte order
      mark, so that decoding changes no byte.  Only the ASCII letters have
      case.  The text that [applyTextFormatting] folds is the exception: the
      code looks at its UTF-16 code units, and it is a list of them.
    - The insertion-ordered [Map] [fileStorage] is an association list, the
      lookup-only maps [xslCache] and [xmlPool] are [gmap]s and the [Set]
      [processedFileKeys] is a [gset].
    - A call either returns or throws: [Completion].  Module state survives a
      throw, so stateful routines return the state next to the completion.
      The completion of [addFilesToStorage] is that of its first loop and of
      the pairing: the repaint [renderUI()] that ends the call and a read of
      file contents that the browser refuses are not modelled.
    - Browser services (deflate decoding, DOM queries, the clock) are the
      fields of the class [Host].
    - Calls of [addFilesToStorage] are taken one after the other, each to its
      completion.  The source does not serialise overlapping drops; their
      interleavings are outside this development. *)

From Stdlib Require Import ZArith List Ascii String Strings.Byte Lia.
From stdpp Require Import base tactics option list gmap strings pretty.

Local Open Scope string_scope.
Local Open Scope list_scope.
Local Open Scope Z_scope.

(** ** JavaScript string primitives *)

Module JS.

(** [s.endsWith(suf)] *)
Fixpoint endsWith (s suf : string) : bool :=
  if String.eqb s suf then true
  else match s with
       | EmptyString => false
       | String _ s' => endsWith s' suf
       end.

(** [c.toLowerCase()] on one code unit; only the ASCII letters have case in
    this model. *)
Definition lowerChar (c : ascii) : ascii :=
  let n := nat_of_ascii c in
  if (65 <=? n)%nat && (n <=? 90)%nat then ascii_of_nat (n + 32) else c.

(** [s.toLowerCase()] *)
Fixpoint toLowerCase (s : string) : string :=
  match s with
  | EmptyString => EmptyString
  | String c s' => String (lowerChar c) (toLowerCase s')
  end.

(** [s.replace(/<ext>$/, "")] for a literal [ext] such as [\.xsl]: the only
    possible match is the suffix itself. *)
Fixpoint stripSuffix (ext s : string) : string :=
  if String.eqb s ext then EmptyString
  else match s with
       | EmptyString => EmptyString
       | String c s' => String c (stripSuffix ext s')
       end.

(** [s.replace(/<ext>$/i, "")]: as above, ignoring ASCII case; [ext] is
    given in lower case. *)
Fixpoint stripSuffixI (ext s : string) : string :=
  if String.eqb (toLowerCase s) ext then EmptyString
  else match s with
       | EmptyString => EmptyString
       | String c s' => String c (stripSuffixI ext s')
       end.

(** Line terminators stop the [.] of a regular expression: the length in
    bytes of the terminator [s] starts with, [0] when it starts with none.
    The terminators are LF, CR, and U+2028 and U+2029 in their UTF-8
    coding. *)
Definition terminatorLength (s : string) : nat :=
  match s with
  | String "010"%char _ | String "013"%char _ => 1%nat
  | String "226"%char (String "128"%char (String "168"%char _)) => 3%nat
  | String "226"%char (String "128"%char (String "169"%char _)) => 3%nat
  | _ => 0%nat
  end.

(** The text after the last ["/"] of the first line of [s] when that line
    has one ([Some]), the line itself, and the rest of [s] from the end of
    that line. *)
Fixpoint splitLine (s : string) : option string * string * string :=
  match s with
  | EmptyString => (None, EmptyString, EmptyString)
  | String c s' =>
      if (0 <? terminatorLength s)%nat then (None, EmptyString, s)
      else
        let '(cut, line, rest) := splitLine s' in
        if Ascii.eqb c "/" then
          (Some (match cut with Some t => t | None => line end), String c line, rest)
        else (cut, String c line, rest)
  end.

(** [s.replace(/.*\//, "")]: the leftmost match starts at the beginning of
    the first line holding a ["/"] and, being greedy, runs to the last ["/"]
    of that line.  [fuel] bounds the number of lines. *)
Fixpoint stripDirs (fuel : nat) (s : string) : string :=
  match fuel with
  | O => s
  | S fuel' =>
      let '(cut, line, rest) := splitLine s in
      match cut with
      | Some t => t +:+ rest
      | None =>
          match terminatorLength rest with
          | O => line
          | k =>
              line +:+ String.substring 0 k rest
              +:+ stripDirs fuel' (String.substring k (String.length rest - k) rest)
          end
      end
  end.

(** [pathName.replace(/.*\//, "")] *)
Definition baseName (pathName : string) : string :=
  stripDirs (S (String.length pathName)) pathName.

(** [s[s.length - 1]]: [None] is [undefined]. *)
Fixpoint lastChar (s : string) : option ascii :=
  match s with
  | EmptyString => None
  | String c EmptyString => Some c
  | String _ s' => lastChar s'
  end.

(** [s.includes(c)] for one character. *)
Fixpoint hasChar (c : ascii) (s : string) : bool :=
  match s with
  | EmptyString => false
  | String c' s' => Ascii.eqb c' c || hasChar c s'
  end.

(** No line terminator starts anywhere in [s]. *)
Fixpoint oneLine (s : string) : bool :=
  match s with
  | EmptyString => true
  | String _ s' => Nat.eqb (terminatorLength s) 0 && oneLine s'
  end.

End JS.

(** ** Completions *)

Inductive Exn : Type :=
  | RangeError   (* DataView read outside the buffer *)
  | TypeError.   (* the deflate-raw stream rejected its input, or a property
                    was read from [undefined] *)

(** The outcome of a call.  [OutOfFuel] is not a JavaScript outcome: it marks
    a model recursion that stopped for lack of fuel, and
    [decompressZip_terminates] shows that it never comes out of a call. *)
Inductive Completion (A : Type) : Type :=
  | Normal (a : A)
  | Throw (e : Exn)
  | OutOfFuel.
Arguments Normal {A} a.
Arguments Throw {A} e.
Arguments OutOfFuel {A}.

#[export] Instance Completion_ret : MRet Completion := fun A a => Normal a.

#[export] Instance Completion_bind : MBind Completion := fun A B k c =>
  match c with
  | Normal a => k a
  | Throw e => Throw e
  | OutOfFuel => OutOfFuel
  end.

(** ** ArrayBuffer and DataView *)

#[export] Instance byte_eq_dec : EqDecision byte := Byte.byte_eq_dec.

Definition byteLength (buf : list byte) : Z := Z.of_nat (length buf).

(** The byte at index [i], which the callers keep inside the buffer. *)
Definition byteAt (buf : list byte) (i : Z) : Z :=
  Z.of_N (Byte.to_N (nth (Z.to_nat i) buf x00)).

(** [dataView.getUint16(off, true)] *)
Definition getUint16 (buf : list byte) (off : Z) : Completion Z :=
  if (0 <=? off) && (off + 2 <=? byteLength buf) then
    Normal (Z.lor (byteAt buf off) (Z.shiftl (byteAt buf (off + 1)) 8))
  else Throw RangeError.

(** [dataView.getUint32(off, true)] *)
Definition getUint32 (buf : list byte) (off : Z) : Completion Z :=
  if (0 <=? off) && (off + 4 <=? byteLength buf) then
    Normal (Z.lor (byteAt buf off)
           (Z.lor (Z.shiftl (byteAt buf (off + 1)) 8)
           (Z.lor (Z.shiftl (byteAt buf (off + 2)) 16)
                  (Z.shiftl (byteAt buf (off + 3)) 24))))
  else Throw RangeError.

(** [arrayBuffer.slice(b, e)] for non-negative [b] and [e]: both ends are
    clamped to the buffer. *)
Definition slice (buf : list byte) (b e : Z) : list byte :=
  let b' := Z.min b (byteLength buf) in
  let e' := Z.min e (byteLength buf) in
  firstn (Z.to_nat (e' - b')) (skipn (Z.to_nat b') buf).

(** ** Files *)

Record File : Type := mkFile {
  name : string;
  type : string;                 (* MIME type, [""] when unknown *)
  webkitRelativePath : string;   (* [""] when the file has none *)
  lastModified : Z;
  content : list byte
}.

(** [file.size] *)
Definition fileSize (f : File) : Z := Z.of_nat (length (content f)).

(** ** The browser services the code calls *)

Class Host : Type := {
  (** [DecompressionStream("deflate-raw")] run over a whole payload: the
      inflated bytes, or [None] when the stream errors. *)
  inflate : list byte -> option (list byte);
  (** [DOMParser] on the file text, then
      [querySelector('title')?.textContent.trim()], [""] without a title. *)
  titleOf : list byte -> string;
  (** [DOMParser] on the file text, then the trimmed text of the first
      element named like 事業所名, [""] when there is none. *)
  jigyoushoNameOf : list byte -> string;
  (** [DOMParser] on the file text, then [extractOrganizationName] of the
      React front end: the trimmed text of the first element whose name
      holds one of its three keywords, the empty string when there is none. *)
  organizationNameOf : list byte -> string;
  (** The reading of [Date.now()] taken together with the increment of the
      pair counter when the counter had the given value. *)
  Date_now : Z -> Z;
  (** The time stamp [new File(...)] gives a file built by the program. *)
  fileCtorTime : Z
}.

(** ** The ZIP reader: [decompressZip] *)

Section ArchiveReader.
Context `{Host}.

(** [decompressData]: the payload piped through the deflate-raw stream and
    collected in one [Blob]; a stream error rejects the read. *)
Definition decompressData (compressedData : list byte) : Completion (list byte) :=
  match inflate compressedData with
  | Some chunks => Normal chunks
  | None => Throw TypeError
  end.

(** The inner [while] of the data-descriptor branch, entered at [offset]:
    the offset and compressed size it leaves behind.  One unit of [fuel] per
    byte scanned. *)
Fixpoint scanDescriptor (buf : list byte) (fuel : nat) (offset compressedSize : Z)
  : Completion (Z * Z) :=
  if offset <? byteLength buf then
    match fuel with
    | O => OutOfFuel
    | S fuel' =>
        potentialSignature ← getUint32 buf offset;
        if potentialSignature =? 0x08074b50 then
          compressedSize' ← getUint32 buf (offset + 8);
          Normal (offset + 16, compressedSize')
        else scanDescriptor buf fuel' (offset + 1) compressedSize
    end
  else Normal (offset, compressedSize).

(** What the header at [offset] says about its member once the cursor has
    moved past it: the decoded path name, where the payload starts, the
    compressed size in force, and the offset of the next header. *)
Record Member : Type := mkMember {
  pathName : string;
  dataOffset : Z;
  compressedSize : Z;
  nextOffset : Z
}.

(** The first half of the body of the outer [while], entered at [offset]:
    [None] when the signature test breaks out of the loop, otherwise the
    member read from the header. *)
Definition locate (buf : list byte) (offset : Z) : Completion (option Member) :=
  signature ← getUint32 buf offset;
  if negb (signature =? 0x04034b50) then Normal None
  else
    generalPurposeFlag ← getUint16 buf (offset + 6);
    fileNameLength ← getUint16 buf (offset + 26);
    extraFieldLength ← getUint16 buf (offset + 28);
    compressedSize ← getUint32 buf (offset + 18);
    let pathName :=
      string_of_list_byte (slice buf (offset + 30) (offset + 30 + fileNameLength)) in
    let offset := offset + (fileNameLength + extraFieldLength + 30) in
    let dataOffset := offset in
    let isDataDescriptor := negb (Z.land generalPurposeFlag 0x0008 =? 0) in
    '(offset, compressedSize) ←
      (if isDataDescriptor
       then scanDescriptor buf (Z.to_nat (byteLength buf - offset)) offset compressedSize
       else Normal (offset + compressedSize, compressedSize));
    Normal (Some (mkMember pathName dataOffset compressedSize offset)).

(** [pathName[pathName.length - 1] !== "/"] *)
Definition isFileEntry (pathName : string) : bool :=
  negb (bool_decide (JS.lastChar pathName = Some "/"%char)).

(** The second half of the body: the file made from a member that is not a
    directory placeholder. *)
Definition extract (buf : list byte) (m : Member) : Completion (option File) :=
  if isFileEntry (pathName m) then
    decompressedData ←
      decompressData (slice buf (dataOffset m) (dataOffset m + compressedSize m));
    let fileName := JS.baseName (pathName m) in
    Normal (Some (mkFile fileName "" "" fileCtorTime decompressedData))
  else Normal None.

(** What one turn of the outer [while] does once its guard has passed. *)
Inductive Turn : Type :=
  | Break                                   (* the signature test failed *)
  | Next (offset : Z) (file : option File). (* go on at [offset], maybe with a new file *)

(** The body of the outer [while], entered at [offset]. *)
Definition entry (buf : list byte) (offset : Z) : Completion Turn :=
  located ← locate buf offset;
  match located with
  | None => Normal Break
  | Some m =>
      file ← extract buf m;
      Normal (Next (nextOffset m) file)
  end.

(** [files.push(file)] when the turn made one. *)
Definition push (files : list File) (file : option File) : list File :=
  match file with
  | Some f => files ++ [f]
  | None => files
  end.

(** The outer [while], entered at [offset] with [files] collected so far;
    one unit of [fuel] per turn. *)
Fixpoint walk (buf : list byte) (fuel : nat) (offset : Z) (files : list File)
  : Completion (list File) :=
  if offset <? byteLength buf then
    match fuel with
    | O => OutOfFuel
    | S fuel' =>
        turn ← entry buf offset;
        match turn with
        | Break => Normal files
        | Next offset' file => walk buf fuel' offset' (push files file)
        end
    end
  else Normal files.

(** [decompressZip(arrayBuffer)].  Every turn moves the offset forward by 30
    bytes at least, so one unit of fuel per byte is more than enough. *)
Definition decompressZip (arrayBuffer : list byte) : Completion (list File) :=
  walk arrayBuffer (length arrayBuffer) 0 [].

(** [arrives buf offset files]: the outer loop of [decompressZip buf] comes
    to test its guard at [offset] with [files] collected. *)
Inductive arrives (buf : list byte) : Z -> list File -> Prop :=
  | arrives_start : arrives buf 0 []
  | arrives_next offset files offset' file :
      arrives buf offset files ->
      offset < byteLength buf ->
      entry buf offset = Normal (Next offset' file) ->
      arrives buf offset' (push files file).

End ArchiveReader.

(** ** Records shared by the two front ends *)

Inductive SourceType : Type := zip | folder | direct.

(** Where a file came from: its position in the dropped list, the kind of
    source, the name of the dropped file and the top folder of its relative
    path ([None] is [null]). *)
Record SourceInfo : Type := mkSourceInfo {
  sourceIndex : nat;
  sourceType : SourceType;
  sourceName : string;
  folderName : option string
}.

(** An element of [processedFiles]: a file with its source fields. *)
Record Item : Type := mkItem {
  item_file : File;
  item_source : SourceInfo
}.

(** A value of [xslCache]: [{ file, title }]. *)
Record XslData : Type := mkXslData {
  xsl_file : File;
  xsl_title : string
}.

(** An element of an [xmlPool] list: the waiting XML file, its organisation
    name and its source fields. *)
Record Pooled : Type := mkPooled {
  pooled_file : File;
  pooled_jigyoushoName : string;
  pooled_source : SourceInfo
}.

(** A completed pair, the value stored under a unique key. *)
Record PairData : Type := mkPairData {
  basename : string;
  xml : File;
  xsl : File;
  title : string;
  jigyoushoName : string;
  sourceInfo : SourceInfo
}.

(** [file.webkitRelativePath.split('/')]: the first part when there are at
    least two. *)
Fixpoint firstPart (path : string) : option string :=
  match path with
  | EmptyString => None
  | String c path' =>
      if Ascii.eqb c "/" then Some EmptyString
      else String c <$> firstPart path'
  end.

(** [extractFolderName(file)] *)
Definition extractFolderName (file : File) : option string :=
  if bool_decide (webkitRelativePath file = "") then None
  else firstPart (webkitRelativePath file).

(** [`${file.webkitRelativePath || file.name}_${file.size}_${file.lastModified}`] *)
Definition fileKey (file : File) : string :=
  (if bool_decide (webkitRelativePath file = "") then name file
   else webkitRelativePath file)
  +:+ "_" +:+ pretty (fileSize file) +:+ "_" +:+ pretty (lastModified file).

(** [file.type.match(/^application\/(x-zip-compressed|zip)$/)] *)
Definition isZipType (file : File) : bool :=
  bool_decide (type file = "application/x-zip-compressed")
  || bool_decide (type file = "application/zip").

(** [folderName ? 'folder' : 'direct']: [null] and [""] are falsy. *)
Definition sourceTypeOf (folderName : option string) : SourceType :=
  match folderName with
  | None | Some EmptyString => direct
  | Some _ => folder
  end.

(** [`${basename}_${counter}_${Date.now()}`] *)
Definition uniqueKeyOf `{Host} (basename : string) (counter : Z) : string :=
  basename +:+ "_" +:+ pretty counter +:+ "_" +:+ pretty (Date_now counter).

(** [map.set(k, v)] on an insertion-ordered [Map]: a present key keeps its
    place and takes the new value, a new key goes last. *)
Fixpoint mapSet {V : Type} (k : string) (v : V) (m : list (string * V))
  : list (string * V) :=
  match m with
  | [] => [(k, v)]
  | (k', v') :: m' =>
      if bool_decide (k' = k) then (k, v) :: m'
      else (k', v') :: mapSet k v m'
  end.

(** [map.delete(k)] *)
Definition mapDelete {V : Type} (k : string) (m : list (string * V))
  : list (string * V) :=
  filter (fun kv => kv.1 <> k) m.

(** ** The deduplicating first loop of [addFilesToStorage]

    The loop is the same in both front ends but for the test [isZip] that
    sends a file to the ZIP reader. *)

Section Ingest.
Context `{Host}.
Variable isZip : File -> bool.

(** The loop from index [i] on: duplicates are skipped, archives expanded,
    the rest passed through.  The key set is shared state and keeps its
    additions when the expansion throws. *)
Fixpoint ingest (i : nat) (files : list File) (keys : gset string)
    (processedFiles : list Item) : gset string * Completion (list Item) :=
  match files with
  | [] => (keys, Normal processedFiles)
  | file :: files' =>
      let folderName := extractFolderName file in
      let fileKey := fileKey file in
      if bool_decide (fileKey ∈ keys) then ingest (S i) files' keys processedFiles
      else
        let keys := {[fileKey]} ∪ keys in
        if isZip file then
          match decompressZip (content file) with
          | Normal unzipped =>
              ingest (S i) files' keys
                (processedFiles ++
                 map (fun f => mkItem f (mkSourceInfo i zip (name file) folderName))
                     unzipped)
          | Throw e => (keys, Throw e)
          | OutOfFuel => (keys, OutOfFuel)
          end
        else
          ingest (S i) files' keys
            (processedFiles ++
             [mkItem file
                (mkSourceInfo i (sourceTypeOf folderName) (name file) folderName)])
  end.

(** What a file that passes the duplicate test adds to [processedFiles]
    when it stands at index [i]. *)
Definition contribution (i : nat) (file : File) : Completion (list Item) :=
  let folderName := extractFolderName file in
  if isZip file then
    unzipped ← decompressZip (content file);
    Normal (map (fun f => mkItem f (mkSourceInfo i zip (name file) folderName)) unzipped)
  else
    Normal [mkItem file (mkSourceInfo i (sourceTypeOf folderName) (name file) folderName)].

End Ingest.

(** The element of [processedFiles] made of a file that is no archive and
    stands at index [i]. *)
Definition plainItem (i : nat) (file : File) : Item :=
  mkItem file
    (mkSourceInfo i (sourceTypeOf (extractFolderName file)) (name file)
       (extractFolderName file)).

(** The elements of [processedFiles] that came from index [i] of the
    dropped list. *)
Definition itemsFrom (i : nat) (items : list Item) : list Item :=
  List.filter (fun item => Nat.eqb (sourceIndex (item_source item)) i) items.

(** [file], at index [i] of [files], is the first file of its key: the key
    is not in [keys] and no earlier file of the list has it. *)
Definition firstWithKey (keys : gset string) (files : list File) (i : nat) (file : File) : Prop :=
  (fileKey file ∉ keys)
  /\ (forall j file', (j < i)%nat -> files !! j = Some file' -> fileKey file' <> fileKey file).

(** ** viewer.js: module state, [addFilesToStorage] and the clear buttons *)

Module Viewer.

(** The module-level variables of viewer.js. *)
Record State : Type := mkState {
  fileStorage : list (string * PairData);
  fileIdCounter : Z;
  xslCache : gmap string XslData;
  xmlPool : gmap string (list Pooled);
  processedFileKeys : gset string
}.

(** The state when the script has loaded. *)
Definition initial : State := mkState [] 1 ∅ ∅ ∅.

(** [file.type.match(...) || file.name.endsWith('.zip')] *)
Definition isZip (file : File) : bool :=
  isZipType file || JS.endsWith (name file) ".zip".

Section Ingestion.
Context `{Host}.

(** [name.endsWith('.xml')] *)
Definition isXml (item : Item) : bool := JS.endsWith (name (item_file item)) ".xml".

(** [else if (name.endsWith('.xsl'))] *)
Definition isXsl (item : Item) : bool :=
  negb (isXml item) && JS.endsWith (name (item_file item)) ".xsl".

(** One turn of the loop over [xslFiles]: the cache entry is overwritten and
    the basename noted. *)
Definition registerXsl (acc : gmap string XslData * list string) (item : Item)
  : gmap string XslData * list string :=
  let file := item_file item in
  let basename := JS.stripSuffix ".xsl" (name file) in
  let title := titleOf (content file) in
  (<[basename := mkXslData file title]> acc.1, acc.2 ++ [basename]).

(** [fileStorage.set(uniqueKey, {...})] with [fileIdCounter++]. *)
Definition storePair (st : State) (basename : string) (xmlFile : File)
    (xslData : XslData) (jigyoushoName : string) (source : SourceInfo) : State :=
  let uniqueKey := uniqueKeyOf basename (fileIdCounter st) in
  mkState
    (mapSet uniqueKey
       (mkPairData basename xmlFile (xsl_file xslData) (xsl_title xslData)
          jigyoushoName source)
       (fileStorage st))
    (fileIdCounter st + 1) (xslCache st) (xmlPool st) (processedFileKeys st).

(** One turn of the loop over [xmlFiles]: pair at once when the cache has
    the basename, wait in the pool otherwise. *)
Definition placeXml (st : State) (item : Item) : State :=
  let xmlFile := item_file item in
  let basename := JS.stripSuffix ".xml" (name xmlFile) in
  let jigyoushoName := jigyoushoNameOf (content xmlFile) in
  match xslCache st !! basename with
  | Some xslData => storePair st basename xmlFile xslData jigyoushoName (item_source item)
  | None =>
      mkState (fileStorage st) (fileIdCounter st) (xslCache st)
        (<[basename :=
             default [] (xmlPool st !! basename) ++
             [mkPooled xmlFile jigyoushoName (item_source item)]]> (xmlPool st))
        (processedFileKeys st)
  end.

(** One turn of [newXslBasenames.forEach]: a non-empty pool list is paired
    off in order against the cached stylesheet and then deleted.  Reading
    [xslData.file] from a missing cache entry would throw. *)
Definition drain (st : State) (basename : string) : State * Completion unit :=
  match xmlPool st !! basename with
  | Some ((_ :: _) as pooledXmls) =>
      match xslCache st !! basename with
      | Some xslData =>
          let st' :=
            fold_left
              (fun st p =>
                 storePair st basename (pooled_file p) xslData
                   (pooled_jigyoushoName p) (pooled_source p))
              pooledXmls st in
          (mkState (fileStorage st') (fileIdCounter st') (xslCache st')
             (delete basename (xmlPool st')) (processedFileKeys st'),
           Normal ())
      | None => (st, Throw TypeError)
      end
  | _ => (st, Normal ())
  end.

(** [newXslBasenames.forEach(...)]: a throw ends the iteration. *)
Fixpoint drainAll (st : State) (basenames : list string) : State * Completion unit :=
  match basenames with
  | [] => (st, Normal ())
  | basename :: rest =>
      match drain st basename with
      | (st', Normal _) => drainAll st' rest
      | other => other
      end
  end.

(** The rest of [addFilesToStorage] once the first loop has returned
    [processedFiles] and left [keys] in [processedFileKeys]: partition, the
    loop over the stylesheets, the loop over the XML files, the drain. *)
Definition pairUp (processedFiles : list Item) (keys : gset string) (st : State)
  : State * Completion unit :=
  let xmlFiles := List.filter isXml processedFiles in
  let xslFiles := List.filter isXsl processedFiles in
  let '(cache, newXslBasenames) := fold_left registerXsl xslFiles (xslCache st, []) in
  let st1 := mkState (fileStorage st) (fileIdCounter st) cache (xmlPool st) keys in
  let st2 := fold_left placeXml xmlFiles st1 in
  drainAll st2 newXslBasenames.

(** The cache and the list [newXslBasenames] when the loop over the
    stylesheets of [processedFiles] has ended. *)
Definition registered (processedFiles : list Item) (st : State)
  : gmap string XslData * list string :=
  fold_left registerXsl (List.filter isXsl processedFiles) (xslCache st, []).

(** The state when the loop over the XML files of [processedFiles] has
    ended and the drain is about to start. *)
Definition placed (processedFiles : list Item) (keys : gset string) (st : State) : State :=
  fold_left placeXml (List.filter isXml processedFiles)
    (mkState (fileStorage st) (fileIdCounter st) (registered processedFiles st).1
       (xmlPool st) keys).

(** [addFilesToStorage(files)], up to its last statement.  The state is the
    one the call leaves in the module variables; the completion is that of
    the first loop and of the pairing.  The closing [renderUI()] repaints
    the page from [fileStorage] and changes none of the variables below;
    what the repaint itself may throw, and a [file.text()] or
    [file.arrayBuffer()] that rejects, are not part of the completion. *)
Definition addFilesToStorage (files : list File) (st : State) : State * Completion unit :=
  match ingest isZip 0 files (processedFileKeys st) [] with
  | (keys, Normal processedFiles) => pairUp processedFiles keys st
  | (keys, Throw e) =>
      (mkState (fileStorage st) (fileIdCounter st) (xslCache st) (xmlPool st) keys, Throw e)
  | (keys, OutOfFuel) =>
      (mkState (fileStorage st) (fileIdCounter st) (xslCache st) (xmlPool st) keys, OutOfFuel)
  end.

(** The pool element made of an XML file that is no archive and stood at
    index [i] of its batch. *)
Definition pooledOf (i : nat) (x : File) : Pooled :=
  mkPooled x (jigyoushoNameOf (content x)) (item_source (plainItem i x)).

(** The pair made of such an XML file and the stylesheet [s]. *)
Definition pairOf (b : string) (i : nat) (x s : File) : PairData :=
  mkPairData b x s (titleOf (content s)) (jigyoushoNameOf (content x))
    (item_source (plainItem i x)).

End Ingestion.

(** What a stored pair shows of itself: its basename, its two files and
    its title. *)
Definition pairFiles (kv : string * PairData) : string * File * File * string :=
  (basename kv.2, xml kv.2, xsl kv.2, title kv.2).

(** The two files of a pair are named after its basename. *)
Definition sameBasename (p : PairData) : Prop :=
  name (xml p) = basename p +:+ ".xml" /\ name (xsl p) = basename p +:+ ".xsl".

(** What holds of every state the page can reach.  Every stored pair is
    made of two files named after its basename, its stylesheet's basename
    is still cached, and its key was made from that basename and a counter
    value now past; every cached stylesheet and every waiting XML file is
    filed under its name without the extension. *)
Definition consistent `{Host} (st : State) : Prop :=
  (forall k p, (k, p) ∈ fileStorage st ->
     sameBasename p
     /\ is_Some (xslCache st !! basename p)
     /\ exists c, k = uniqueKeyOf (basename p) c /\ c < fileIdCounter st)
  /\ (forall b x, xslCache st !! b = Some x -> name (xsl_file x) = b +:+ ".xsl")
  /\ (forall b l p, xmlPool st !! b = Some l -> p ∈ l ->
        name (pooled_file p) = b +:+ ".xml").

(** The handler of the clear button on the full-page pair view ([showPair]):
    after [confirm], three of the four collections are emptied. *)
Definition clearOnPairView (confirmed : bool) (st : State) : State :=
  if confirmed then mkState [] (fileIdCounter st) ∅ ∅ (processedFileKeys st)
  else st.

(** The handler of the clear-all button on the list view ([renderUI]):
    after [confirm], all four collections are emptied. *)
Definition clearOnListView (confirmed : bool) (st : State) : State :=
  if confirmed then mkState [] (fileIdCounter st) ∅ ∅ ∅
  else st.

(** The handler of the back-to-top button on the list view: the same four
    [clear()] calls, without a question. *)
Definition backToTop (st : State) : State :=
  mkState [] (fileIdCounter st) ∅ ∅ ∅.

(** [deletePair(uniqueKey, basename)] and the delete button of a list row. *)
Definition deletePair (confirmed : bool) (uniqueKey : string) (st : State) : State :=
  if confirmed then
    mkState (mapDelete uniqueKey (fileStorage st)) (fileIdCounter st) (xslCache st)
      (xmlPool st) (processedFileKeys st)
  else st.

(** What the user can do to the page. *)
Inductive Event : Type :=
  | Drop (files : list File)
  | ClearOnPairView (confirmed : bool)
  | ClearOnListView (confirmed : bool)
  | BackToTop
  | DeletePair (confirmed : bool) (uniqueKey : string).

(** The state after one event; a drop that throws leaves what it had
    written. *)
Definition step `{Host} (st : State) (ev : Event) : State :=
  match ev with
  | Drop files => (addFilesToStorage files st).1
  | ClearOnPairView c => clearOnPairView c st
  | ClearOnListView c => clearOnListView c st
  | BackToTop => backToTop st
  | DeletePair c k => deletePair c k st
  end.

(** The state after a sequence of events. *)
Definition run `{Host} (evs : list Event) (st : State) : State :=
  fold_left step evs st.



(** Titles and organisation names are those of the files they are kept
    with: in the pairs, in the cache and in the pool. *)
Definition derived `{Host} (st : State) : Prop :=
  (forall k p, (k, p) ∈ fileStorage st ->
     title p = titleOf (content (xsl p))
     /\ jigyoushoName p = jigyoushoNameOf (content (xml p)))
  /\ (forall b x, xslCache st !! b = Some x -> xsl_title x = titleOf (content (xsl_file x)))
  /\ (forall b l p, xmlPool st !! b = Some l -> p ∈ l ->
        pooled_jigyoushoName p = jigyoushoNameOf (content (pooled_file p))).

(** [st'] holds the pairs of [st], in their order, followed by new pairs
    whose keys are made from the counter values of [st] onwards, one after
    the other. *)
Definition appended `{Host} (st st' : State) : Prop :=
  exists ps,
    fileStorage st' =
      fileStorage st ++
      imap (fun i p => (uniqueKeyOf (basename p) (fileIdCounter st + Z.of_nat i), p)) ps
    /\ fileIdCounter st' = fileIdCounter st + Z.of_nat (length ps).

(** The events that leave [processedFileKeys] as it is or add to it: all
    but a confirmed clear on the list view and the back-to-top button. *)
Definition keepsKeys (ev : Event) : bool :=
  match ev with
  | ClearOnListView true | BackToTop => false
  | _ => true
  end.

(** [allKeys.indexOf(uniqueKey)]: the first index that holds the key, [-1]
    when none does. *)
Fixpoint indexOf (uniqueKey : string) (allKeys : list string) : Z :=
  match allKeys with
  | [] => -1
  | key :: rest =>
      if bool_decide (key = uniqueKey) then 0
      else
        let index := indexOf uniqueKey rest in
        if index <? 0 then -1 else index + 1
  end.

(** [allKeys[index]]: [None] is [undefined]. *)
Definition keyAt (allKeys : list string) (index : Z) : option string :=
  if index <? 0 then None else allKeys !! Z.to_nat index.

(** [Array.from(fileStorage.keys())] *)
Definition allKeys (st : State) : list string := (fileStorage st).*1.

(** [prevKey] in [showPair(uniqueKey, pairData)]; [None] is [null]. *)
Definition prevKey (uniqueKey : string) (st : State) : option string :=
  let currentIndex := indexOf uniqueKey (allKeys st) in
  if 0 <? currentIndex then keyAt (allKeys st) (currentIndex - 1) else None.

(** [nextKey] in [showPair(uniqueKey, pairData)]. *)
Definition nextKey (uniqueKey : string) (st : State) : option string :=
  let currentIndex := indexOf uniqueKey (allKeys st) in
  if currentIndex <? Z.of_nat (length (allKeys st)) - 1
  then keyAt (allKeys st) (currentIndex + 1) else None.






End Viewer.

(** ** The React front end: classification and pairing in [addFilesToStorage] *)

Module App.

(** The component state that pairing reads and writes: the [filePairs] and
    [selectedKey] state variables and the four refs. *)
Record State : Type := mkState {
  filePairs : list (string * PairData);
  selectedKey : option string;
  xslCache : gmap string XslData;
  xmlPool : gmap string (list Pooled);
  processedFileKeys : gset string;
  counterRef : Z
}.

Definition initial : State := mkState [] None ∅ ∅ ∅ 1.

(** [file.type.match(...) || file.name.toLowerCase().endsWith(".zip")] *)
Definition isZip (file : File) : bool :=
  isZipType file || JS.endsWith (JS.toLowerCase (name file)) ".zip".

(** [item.file.name.toLowerCase().endsWith(".xml")] *)
Definition isXml (item : Item) : bool :=
  JS.endsWith (JS.toLowerCase (name (item_file item))) ".xml".

(** [else if (item.file.name.toLowerCase().endsWith(".xsl"))] *)
Definition isXsl (item : Item) : bool :=
  negb (isXml item) && JS.endsWith (JS.toLowerCase (name (item_file item))) ".xsl".

Section Pairing.
Context `{Host}.

(** One turn of the loop over [xslFiles]. *)
Definition registerXsl (acc : gmap string XslData * list string) (item : Item)
  : gmap string XslData * list string :=
  let file := item_file item in
  let basename := JS.stripSuffixI ".xsl" (name file) in
  let title := titleOf (content file) in
  (<[basename := mkXslData file title]> acc.1, acc.2 ++ [basename]).

(** The pairing state threaded through the loops: the pool, the counter and
    the local [newPairs]. *)
Record Work : Type := mkWork {
  pool : gmap string (list Pooled);
  counter : Z;
  newPairs : list (string * PairData)
}.

(** [newPairs.push({ key: uniqueKey, ... })] with [counterRef.current++]. *)
Definition pushPair (w : Work) (basename : string) (xmlFile : File)
    (xslData : XslData) (jigyoushoName : string) (source : SourceInfo) : Work :=
  let uniqueKey := uniqueKeyOf basename (counter w) in
  mkWork (pool w) (counter w + 1)
    (newPairs w ++
     [(uniqueKey,
       mkPairData basename xmlFile (xsl_file xslData) (xsl_title xslData)
         jigyoushoName source)]).

(** One turn of the loop over [xmlFiles]. *)
Definition placeXml (cache : gmap string XslData) (w : Work) (item : Item) : Work :=
  let xmlFile := item_file item in
  let basename := JS.stripSuffixI ".xml" (name xmlFile) in
  let jigyoushoName := organizationNameOf (content xmlFile) in
  match cache !! basename with
  | Some xslData => pushPair w basename xmlFile xslData jigyoushoName (item_source item)
  | None =>
      mkWork
        (<[basename :=
             default [] (pool w !! basename) ++
             [mkPooled xmlFile jigyoushoName (item_source item)]]> (pool w))
        (counter w) (newPairs w)
  end.

(** One turn of [newXslBasenames.forEach]; a missing cache entry returns
    from the callback. *)
Definition drain (cache : gmap string XslData) (w : Work) (basename : string) : Work :=
  match pool w !! basename with
  | Some ((_ :: _) as pooledXmls) =>
      match cache !! basename with
      | Some xslData =>
          let w' :=
            fold_left
              (fun w p =>
                 pushPair w basename (pooled_file p) xslData
                   (pooled_jigyoushoName p) (pooled_source p))
              pooledXmls w in
          mkWork (delete basename (pool w')) (counter w') (newPairs w')
      | None => w
      end
  | _ => w
  end.

(** [!selectedKey]: [null] and the empty string are falsy. *)
Definition noSelection (selectedKey : option string) : bool :=
  match selectedKey with
  | None | Some EmptyString => true
  | Some _ => false
  end.

(** [addFilesToStorage(files)] *)
Definition addFilesToStorage (files : list File) (st : State) : State * Completion unit :=
  match ingest isZip 0 files (processedFileKeys st) [] with
  | (keys, Normal processedFiles) =>
      let xmlFiles := List.filter isXml processedFiles in
      let xslFiles := List.filter isXsl processedFiles in
      let '(cache, newXslBasenames) := fold_left registerXsl xslFiles (xslCache st, []) in
      let w1 := fold_left (placeXml cache) xmlFiles (mkWork (xmlPool st) (counterRef st) []) in
      let w2 := fold_left (drain cache) newXslBasenames w1 in
      let updated := filePairs st ++ newPairs w2 in
      let selected :=
        match updated with
        | (key, _) :: _ => if noSelection (selectedKey st) then Some key else selectedKey st
        | [] => selectedKey st
        end in
      (mkState updated selected cache (pool w2) keys (counter w2), Normal ())
  | (keys, Throw e) =>
      (mkState (filePairs st) (selectedKey st) (xslCache st) (xmlPool st) keys (counterRef st),
       Throw e)
  | (keys, OutOfFuel) =>
      (mkState (filePairs st) (selectedKey st) (xslCache st) (xmlPool st) keys (counterRef st),
       OutOfFuel)
  end.

End Pairing.

(** [deletePair(key)]: the pair is filtered out and, when it was the
    selected one, the first pair left is selected, or none. *)
Definition deletePair (key : string) (st : State) : State :=
  let updated := mapDelete key (filePairs st) in
  mkState updated
    (if bool_decide (selectedKey st = Some key) then
       match updated with
       | (first, _) :: _ => Some first
       | [] => None
       end
     else selectedKey st)
    (xslCache st) (xmlPool st) (processedFileKeys st) (counterRef st).

(** [setSelectedKey(pair.key)], the click on a row of the list. *)
Definition select (key : string) (st : State) : State :=
  mkState (filePairs st) (Some key) (xslCache st) (xmlPool st) (processedFileKeys st)
    (counterRef st).

(** What the user can do to the list.  Rows, and with them their two
    buttons, exist for the listed pairs only. *)
Inductive Event : Type :=
  | Drop (files : list File)
  | Select (key : string)
  | DeletePair (key : string).

(** [key] is the key of a listed pair. *)
Definition listed (key : string) (st : State) : Prop :=
  exists pair, (key, pair) ∈ filePairs st.

(** The state after one event; a drop that throws leaves what it had
    written. *)
Definition step `{Host} (st : State) (ev : Event) : State :=
  match ev with
  | Drop files => (addFilesToStorage files st).1
  | Select key =>
      if bool_decide (key ∈ (filePairs st).*1) then select key st else st
  | DeletePair key =>
      if bool_decide (key ∈ (filePairs st).*1) then deletePair key st else st
  end.

Definition run `{Host} (evs : list Event) (st : State) : State :=
  fold_left step evs st.

(** The selection goes with the list: nothing is selected when the list is
    empty, and a listed pair otherwise; no key is the empty string. *)
Definition wellSelected (st : State) : Prop :=
  match selectedKey st with
  | None => filePairs st = []
  | Some key => listed key st
  end
  /\ forall key pair, (key, pair) ∈ filePairs st -> key <> "".

(** [name] is [b] followed by an extension that reads [ext] once put in
    lower case. *)
Definition named (ext b name : string) : Prop :=
  exists e, name = b +:+ e /\ JS.toLowerCase e = ext.

(** The two files of a pair are named after its basename, with the
    extensions [.xml] and [.xsl] in any mix of cases. *)
Definition sameBasename (p : PairData) : Prop :=
  named ".xml" (basename p) (name (xml p)) /\ named ".xsl" (basename p) (name (xsl p)).

(** Every listed pair, every cached stylesheet and every waiting XML file
    is filed under its name without the extension. *)
Definition consistent (st : State) : Prop :=
  (forall k p, (k, p) ∈ filePairs st -> sameBasename p)
  /\ (forall b x, xslCache st !! b = Some x -> named ".xsl" b (name (xsl_file x)))
  /\ (forall b l p, xmlPool st !! b = Some l -> p ∈ l ->
        named ".xml" b (name (pooled_file p))).

(** What the pairing loops keep: the new pairs and the waiting files are
    named after their basenames. *)
Definition workNamed (w : Work) : Prop :=
  (forall k p, (k, p) ∈ newPairs w -> sameBasename p)
  /\ (forall b l p, pool w !! b = Some l -> p ∈ l ->
        named ".xml" b (name (pooled_file p))).

End App.

(** ** Byte-level fixtures for examples *)

Module Fixture.

Definition u8 (n : Z) : byte :=
  match Byte.of_N (Z.to_N (n mod 256)) with
  | Some b => b
  | None => x00
  end.

Definition le16 (n : Z) : list byte := [u8 n; u8 (n / 256)].

Definition le32 (n : Z) : list byte :=
  [u8 n; u8 (n / 256); u8 (n / 65536); u8 (n / 16777216)].

(** A 30-byte local file header followed by the path name (no extra field):
    signature, version 20, [flag], [method], time, date, CRC, compressed
    size, uncompressed size, name length, extra length. *)
Definition localHeader (flag method compressedSize : Z) (pathName : string) : list byte :=
  le32 0x04034b50 ++ le16 20 ++ le16 flag ++ le16 method ++ le16 0 ++ le16 0 ++
  le32 0 ++ le32 compressedSize ++ le32 0 ++
  le16 (Z.of_nat (String.length pathName)) ++ le16 0 ++
  list_byte_of_string pathName.

(** The raw-deflate coding of the empty byte sequence: one final block with
    the fixed Huffman code, holding only the end-of-block symbol. *)
Definition deflatedEmpty : list byte := [x03; x00].

(** Two bytes that are no deflate stream: they announce a stored block and
    stop before its length field. *)
Definition storedHi : list byte := [x68; x69].

(** A host that knows the two payloads above and nothing else, takes the
    whole text of a document for its title, finds no organisation name, and
    whose clock stands at 1700000000000. *)
Definition host : Host := {|
  inflate payload :=
    if bool_decide (payload = deflatedEmpty) then Some [] else None;
  titleOf text := string_of_list_byte text;
  jigyoushoNameOf _ := "";
  organizationNameOf _ := "";
  Date_now _ := 1700000000000;
  fileCtorTime := 1700000000000
|}.

(** An archive of two members: [a.xml], deflated, and [b.xsl], stored. *)
Definition deflatedThenStored : list byte :=
  localHeader 0 8 2 "a.xml" ++ deflatedEmpty ++
  localHeader 0 0 2 "b.xsl" ++ storedHi.

(** A streamed member (flag bit 3) whose data descriptor is missing: four
    zero bytes follow the header. *)
Definition streamedNoDescriptor : list byte :=
  localHeader 8 8 0 "a.xml" ++ [x00; x00; x00; x00].

(** A dropped document: a name, a time stamp and its text. *)
Definition plain (name : string) (lastModified : Z) (text : string) : File :=
  mkFile name "text/xml" "" lastModified (list_byte_of_string text).

(** No readable position of the first [n] holds the data-descriptor
    signature. *)
Definition noDescriptorBelow (buf : list byte) (n : nat) : bool :=
  forallb
    (fun p => match getUint32 buf (Z.of_nat p) with
              | Normal v => negb (v =? 0x08074b50)
              | _ => true
              end)
    (seq 0 n).

(** [text] without the leading [tag], [None] when it does not start with
    it. *)
Fixpoint stripPrefix (tag text : string) : option string :=
  match tag, text with
  | EmptyString, _ => Some text
  | String a tag', String b text' =>
      if Ascii.eqb a b then stripPrefix tag' text' else None
  | String _ _, EmptyString => None
  end.

(** What follows the first occurrence of [tag] in [text]. *)
Fixpoint after (tag text : string) : option string :=
  match stripPrefix tag text with
  | Some rest => Some rest
  | None =>
      match text with
      | String _ text' => after tag text'
      | EmptyString => None
      end
  end.

(** What stands before the first occurrence of [tag] in [text]: all of
    [text] when there is none. *)
Fixpoint before (tag text : string) : string :=
  match stripPrefix tag text with
  | Some _ => EmptyString
  | None =>
      match text with
      | String c text' => String c (before tag text')
      | EmptyString => EmptyString
      end
  end.

(** The content of the first [title] element of a document, the empty
    string when the document has none.  This is what
    [querySelector('title')?.textContent.trim()] gives on the documents of
    the examples: well-formed XML in which a [title] element, if there is
    one, has no attribute and holds only characters, without markup, entity
    references or white space at either end. *)
Definition titleText (text : string) : string :=
  match after "<title>" text with
  | Some rest => before "</title>" rest
  | None => EmptyString
  end.

(** A stylesheet that is well-formed XML and makes a page with the given
    title. *)
Definition stylesheet (title : string) : string :=
  "<xsl:stylesheet version='1.0' xmlns:xsl='http://www.w3.org/1999/XSL/Transform'>"
  +:+ "<xsl:template match='/'><html><head><title>" +:+ title
  +:+ "</title></head><body><xsl:value-of select='.'/></body></html>"
  +:+ "</xsl:template></xsl:stylesheet>".

(** As [host], but the title of a document is read from its [title]
    element, as the browser reads it from the documents of the examples. *)
Definition reader : Host := {|
  inflate payload :=
    if bool_decide (payload = deflatedEmpty) then Some [] else None;
  titleOf text := titleText (string_of_list_byte text);
  jigyoushoNameOf _ := "";
  organizationNameOf _ := "";
  Date_now _ := 1700000000000;
  fileCtorTime := 1700000000000
|}.


End Fixture.

(** ** Line folding of notice text: [applyTextFormatting]

    Text is a list of UTF-16 code units, which is what [cleanText[i]] and
    [charCodeAt(0)] see.  The source counts a unit above 0x7F as 1 and any
    other as 0.5; the counts below are in halves, so that they stay
    integers: a unit adds 2 or 1, and the limit [lineLength] is doubled
    where it is compared. *)

Module Reflow.

(** [originalText.replace(/[\r\n\t]/g, '').replace(/ /g, '')] *)
Definition cleanText (originalText : list Z) : list Z :=
  List.filter (fun c => negb (c =? 32))
    (List.filter (fun c => negb ((c =? 13) || (c =? 10) || (c =? 9))) originalText).

(** [isFullWidth ? 1 : 0.5], in halves. *)
Definition charWidth (charCode : Z) : Z :=
  let isFullWidth := 0x7F <? charCode in
  if isFullWidth then 2 else 1.

(** [i < cleanText.length - 1] when the units after index [i] are [rest]. *)
Definition notLast (rest : list Z) : bool :=
  match rest with
  | [] => false
  | _ :: _ => true
  end.

(** The [for] loop from some index on: [cleanText] holds the units still to
    come, [charCount] the count so far (in halves); the result is what the
    loop appends to [newText]. *)
Fixpoint fold (lineLength charCount : Z) (cleanText : list Z) : list Z :=
  match cleanText with
  | [] => []
  | char :: rest =>
      let charCount := charCount + charWidth char in
      if (2 * lineLength <=? charCount) && notLast rest
      then char :: 10 :: fold lineLength 0 rest
      else char :: fold lineLength charCount rest
  end.

(** [formatBlock(selector, lineLength)] on the text of one element; the two
    loops of viewer.js are this one with the limits below. *)
Definition formatBlock (lineLength : Z) (originalText : list Z) : list Z :=
  fold lineLength 0 (cleanText originalText).

(** [pre.oshirase] *)
Definition oshirase : list Z -> list Z := formatBlock 26.

(** [pre.kyouji] *)
Definition kyouji : list Z -> list Z := formatBlock 48.

(** [text.split('\n')] *)
Fixpoint splitLines (text : list Z) : list (list Z) :=
  match text with
  | [] => [[]]
  | c :: rest =>
      if c =? 10 then [] :: splitLines rest
      else match splitLines rest with
           | l :: ls => (c :: l) :: ls
           | [] => [[c]]
           end
  end.

(** The width of a line, in halves. *)
Definition width (line : list Z) : Z :=
  fold_right (fun c w => charWidth c + w) 0 line.

(** No unit of the text is one that [cleanText] removes. *)
Definition clean (text : list Z) : Prop :=
  Forall (fun c => c <> 13 /\ c <> 10 /\ c <> 9 /\ c <> 32) text.

End Reflow.

(** ** The archives [decompressZip] reads

    The byte layout the reader walks, written out the other way round: a
    sequence of records, each a local file header, a payload and, for a
    streamed member, a data descriptor, followed by whatever the archive
    ends with (in practice the central directory).  [members] is what such
    an archive holds. *)

Module Archive.

(** One member.  The fields the reader passes over are kept as raw bytes. *)
Record Entry : Type := mkEntry {
  version : list byte;        (* version needed to extract: 2 bytes *)
  flags : Z;                  (* general purpose bit flag *)
  method : list byte;         (* compression method: 2 bytes *)
  stamp : list byte;          (* time, date and CRC-32: 8 bytes *)
  headerSize : Z;             (* the compressed-size field of the header *)
  plainSize : list byte;      (* uncompressed size: 4 bytes *)
  path : string;
  extra : list byte;
  payload : list byte;
  descriptorCrc : list byte;  (* data descriptor, CRC-32: 4 bytes *)
  descriptorSize : list byte  (* data descriptor, uncompressed size: 4 bytes *)
}.

(** Bit 3 of the flag: the sizes follow the payload in a data descriptor. *)
Definition streamed (e : Entry) : bool := negb (Z.land (flags e) 0x0008 =? 0).

Definition header (e : Entry) : list byte :=
  Fixture.le32 0x04034b50 ++ version e ++ Fixture.le16 (flags e) ++ method e ++
  stamp e ++ Fixture.le32 (headerSize e) ++ plainSize e ++
  Fixture.le16 (byteLength (list_byte_of_string (path e))) ++
  Fixture.le16 (byteLength (extra e)) ++
  list_byte_of_string (path e) ++ extra e.

Definition descriptor (e : Entry) : list byte :=
  if streamed e then
    Fixture.le32 0x08074b50 ++ descriptorCrc e ++
    Fixture.le32 (byteLength (payload e)) ++ descriptorSize e
  else [].

Definition record (e : Entry) : list byte :=
  header e ++ payload e ++ descriptor e.

Definition archive (es : list Entry) (trailer : list byte) : list byte :=
  concat (map record es) ++ trailer.

(** The byte lies between [lo] and [hi]. *)
Definition within (lo hi : N) (b : byte) : bool :=
  ((lo <=? Byte.to_N b) && (Byte.to_N b <=? hi))%N.

Definition continuation (b : byte) : bool := within 0x80 0xBF b.

(** The second byte of a three-byte sequence: no overlong form after E0, no
    surrogate after ED. *)
Definition second3 (b0 b1 : byte) : bool :=
  if within 0xE0 0xE0 b0 then within 0xA0 0xBF b1
  else if within 0xED 0xED b0 then within 0x80 0x9F b1
  else continuation b1.

(** The second byte of a four-byte sequence: no overlong form after F0,
    nothing above U+10FFFF after F4. *)
Definition second4 (b0 b1 : byte) : bool :=
  if within 0xF0 0xF0 b0 then within 0x90 0xBF b1
  else if within 0xF4 0xF4 b0 then within 0x80 0x8F b1
  else continuation b1.

(** The bytes are well-formed UTF-8: a sequence of the encodings of Unicode
    scalar values, each in its shortest form. *)
Fixpoint utf8 (bytes : list byte) : bool :=
  match bytes with
  | [] => true
  | b0 :: rest =>
      if within 0x00 0x7F b0 then utf8 rest
      else if within 0xC2 0xDF b0 then
        match rest with
        | b1 :: rest => continuation b1 && utf8 rest
        | [] => false
        end
      else if within 0xE0 0xEF b0 then
        match rest with
        | b1 :: b2 :: rest => second3 b0 b1 && continuation b2 && utf8 rest
        | _ => false
        end
      else if within 0xF0 0xF4 b0 then
        match rest with
        | b1 :: b2 :: b3 :: rest =>
            second4 b0 b1 && continuation b2 && continuation b3 && utf8 rest
        | _ => false
        end
      else false
  end.

(** The bytes start with the byte order mark EF BB BF. *)
Definition marked (bytes : list byte) : bool :=
  match bytes with
  | b0 :: b1 :: b2 :: _ =>
      within 0xEF 0xEF b0 && within 0xBB 0xBB b1 && within 0xBF 0xBF b2
  | _ => false
  end.

(** [new TextDecoder().decode(bytes)] gives the string whose UTF-8 writing
    is [bytes], byte for byte: the decoder replaces a malformed sequence by
    U+FFFD and drops a leading byte order mark, and here there is neither. *)
Definition decodesUnchanged (bytes : list byte) : bool :=
  utf8 bytes && negb (marked bytes).

(** The path name is one that [TextDecoder] hands on unchanged.  The fields
    have their widths and their values fit them.  A member that is not
    streamed states the length of its payload in the header; the payload of
    a streamed member, up to the first three bytes of the descriptor
    signature that follows it, nowhere reads as that signature. *)
Definition wellFormed (e : Entry) : bool :=
  decodesUnchanged (list_byte_of_string (path e))
  && (length (version e) =? 2)%nat && (length (method e) =? 2)%nat
  && (length (stamp e) =? 8)%nat && (length (plainSize e) =? 4)%nat
  && (0 <=? flags e) && (flags e <? 65536)
  && (byteLength (list_byte_of_string (path e)) <? 65536)
  && (byteLength (extra e) <? 65536)
  && (byteLength (payload e) <? 4294967296)
  && (if streamed e then
        (0 <=? headerSize e) && (headerSize e <? 4294967296)
        && (length (descriptorCrc e) =? 4)%nat && (length (descriptorSize e) =? 4)%nat
        && Fixture.noDescriptorBelow (payload e ++ [x50; x4b; x07])
             (length (payload e ++ [x50; x4b; x07]))
      else headerSize e =? byteLength (payload e)).

(** What may follow the last record: nothing, or bytes that start with
    four readable bytes other than the local-header signature. *)
Definition closes (trailer : list byte) : bool :=
  match trailer with
  | [] => true
  | _ :: _ =>
      match getUint32 trailer 0 with
      | Normal signature => negb (signature =? 0x04034b50)
      | _ => false
      end
  end.

Section Reading.
Context `{Host}.

(** The file a member stands for: none for a directory placeholder;
    otherwise its payload inflated, under the last segment of its path. *)
Definition member (e : Entry) : Completion (option File) :=
  if isFileEntry (path e) then
    decompressedData ← decompressData (payload e);
    Normal (Some (mkFile (JS.baseName (path e)) "" "" fileCtorTime decompressedData))
  else Normal None.

(** The files of the members, in order, after [files]; the first payload
    that does not inflate ends the reading. *)
Fixpoint members (es : list Entry) (files : list File) : Completion (list File) :=
  match es with
  | [] => Normal files
  | e :: es' =>
      file ← member e;
      members es' (push files file)
  end.

End Reading.

End Archive.

(** ** viewer.js: what a drop gathers, [handleDrop]

    A dropped item is seen through the entries API.  A file entry hands
    over its file or fails; a directory entry hands over the entries its
    reader has listed when reading stops, be it at the end or at an error;
    anything else is neither. *)

Module Dropped.

#[warnings="-register-all"]
Inductive Entry : Type :=
  | FileEntry (file : option File)                       (* [None]: the read failed *)
  | DirectoryEntry (name : string) (entries : list Entry)
  | OtherEntry.

(** What [processEntry] resolves with: [null], a file, or an array of
    files. *)
Inductive Resolved : Type :=
  | Null
  | OneFile (file : File)
  | Files (files : list File).

(** [Object.defineProperty(file, 'webkitRelativePath', { value, ... })] *)
Definition withRelativePath (value : string) (file : File) : File :=
  mkFile (name file) (type file) value (lastModified file) (content file).

(** [results.flat().filter(f => f)]: arrays are spliced in, [null]s
    dropped. *)
Definition flatFiles (results : list Resolved) : list File :=
  flat_map (fun r => match r with
                     | Null => []
                     | OneFile file => [file]
                     | Files files => files
                     end) results.

(** [if (path)]: the empty string is falsy. *)
Definition truthy (s : string) : bool :=
  match s with
  | EmptyString => false
  | String _ _ => true
  end.

(** [processEntry(entry, path)] *)
Fixpoint processEntry (entry : Entry) (path : string) : Resolved :=
  match entry with
  | FileEntry (Some file) =>
      OneFile (if truthy path then withRelativePath (path +:+ name file) file else file)
  | FileEntry None => Null
  | DirectoryEntry name entries =>
      Files (flatFiles
               (map (fun subEntry => processEntry subEntry (path +:+ name +:+ "/")) entries))
  | OtherEntry => Null
  end.

(** An element of [e.dataTransfer.items]: whether its kind is ['file'],
    what [webkitGetAsEntry()] returns ([None] when the method is missing or
    returns [null]) and what [getAsFile()] returns. *)
Record Item : Type := mkItem {
  isFileKind : bool;
  asEntry : option Entry;
  asFile : option File
}.

(** The promises [handleDrop] collects for the items, resolved. *)
Definition resolve (items : list Item) : list Resolved :=
  flat_map (fun item =>
              if isFileKind item then
                match asEntry item with
                | Some entry => [processEntry entry ""]
                | None =>
                    match asFile item with
                    | Some file => [OneFile file]
                    | None => []
                    end
                end
              else []) items.

(** [allFiles] when [handleDrop] comes to call [addFilesToStorage]: what
    the items gave or, when they gave nothing, [e.dataTransfer.files]. *)
Definition allFiles (items : list Item) (files : list File) : list File :=
  match flatFiles (resolve items) with
  | [] => files
  | gathered => gathered
  end.

(** [handleDrop(e)] on the page state. *)
Definition handleDrop `{Host} (items : list Item) (files : list File)
    (st : Viewer.State) : Viewer.State * Completion unit :=
  match allFiles items files with
  | [] => (st, Normal ())
  | dropped => Viewer.addFilesToStorage dropped st
  end.

End Dropped.

(** ** viewer.js: the names shown in the list, [renderUI] *)

Module Listing.

(** The first pass over [completePairs]: [basenameCount]. *)
Definition countBasenames (completePairs : list PairData) : gmap string Z :=
  fold_left
    (fun basenameCount p =>
       <[basename p := default 0 (basenameCount !! basename p) + 1]> basenameCount)
    completePairs ∅.

(** [basenameCount.get(basename) > 1]; [undefined > 1] is false. *)
Definition several (basenameCount : gmap string Z) (basename : string) : bool :=
  match basenameCount !! basename with
  | Some n => 1 <? n
  | None => false
  end.

(** One turn of the second pass: the new [basenameIndex] and the text of
    the row's name element, [displayTitle]. *)
Definition displayTitle (basenameCount basenameIndex : gmap string Z) (p : PairData)
  : gmap string Z * string :=
  let basename := basename p in
  let '(basenameIndex, finalDisplayName) :=
    if several basenameCount basename then
      let currentIndex := default 0 (basenameIndex !! basename) + 1 in
      (<[basename := currentIndex]> basenameIndex,
       basename +:+ " (#" +:+ pretty currentIndex +:+ ")")
    else (basenameIndex, basename) in
  (basenameIndex,
   match title p with
   | EmptyString => finalDisplayName
   | _ =>
       if several basenameCount basename then
         title p +:+ " (#" +:+
         match basenameIndex !! basename with
         | Some index => pretty index
         | None => "undefined"
         end +:+ ")"
       else title p
   end).

(** The second pass from some row on. *)
Fixpoint displayTitlesFrom (basenameCount basenameIndex : gmap string Z)
    (completePairs : list PairData) : list string :=
  match completePairs with
  | [] => []
  | p :: rest =>
      let '(basenameIndex, text) := displayTitle basenameCount basenameIndex p in
      text :: displayTitlesFrom basenameCount basenameIndex rest
  end.

(** The names of the rows of the list, top to bottom. *)
Definition displayTitles (completePairs : list PairData) : list string :=
  displayTitlesFrom (countBasenames completePairs) ∅ completePairs.

(** [renderUI] reads the pairs off [fileStorage], in its order. *)
Definition rows (st : Viewer.State) : list string :=
  displayTitles (map snd (Viewer.fileStorage st)).

(** How many of the pairs have the basename [b]. *)
Definition occurrences (b : string) (pairs : list PairData) : Z :=
  Z.of_nat (length (List.filter (fun p => bool_decide (basename p = b)) pairs)).

(** The title of a pair, or its basename when it has no title. *)
Definition shown (p : PairData) : string :=
  match title p with
  | EmptyString => basename p
  | _ => title p
  end.

End Listing.

(** ** The two front ends side by side *)

Module Agreement.






End Agreement.

(** * Properties *)

(** ** Reads and the inner scan *)

Lemma bind_Normal {A B : Type} (a : A) (k : A -> Completion B) :
  (Normal a ≫= k) = k a.
Proof. reflexivity. Qed.

Lemma bind_Throw {A B : Type} (e : Exn) (k : A -> Completion B) :
  (Throw e ≫= k) = Throw e.
Proof. reflexivity. Qed.

Lemma byteAt_nonneg (buf : list byte) (i : Z) : 0 <= byteAt buf i.
Proof. unfold byteAt. lia. Qed.

Lemma getUint16_Normal (buf : list byte) (off v : Z) :
  getUint16 buf off = Normal v -> 0 <= off /\ off + 2 <= byteLength buf /\ 0 <= v.
Proof.
  unfold getUint16. intros Hread.
  destruct (0 <=? off) eqn:Hlo; [|discriminate].
  destruct (off + 2 <=? byteLength buf) eqn:Hhi; [|discriminate].
  simpl in Hread. injection Hread as <-.
  repeat split; try lia.
  apply Z.lor_nonneg. split; [apply byteAt_nonneg|].
  apply Z.shiftl_nonneg, byteAt_nonneg.
Qed.

Lemma getUint32_Normal (buf : list byte) (off v : Z) :
  getUint32 buf off = Normal v -> 0 <= off /\ off + 4 <= byteLength buf /\ 0 <= v.
Proof.
  unfold getUint32. intros Hread.
  destruct (0 <=? off) eqn:Hlo; [|discriminate].
  destruct (off + 4 <=? byteLength buf) eqn:Hhi; [|discriminate].
  simpl in Hread. injection Hread as <-.
  repeat split; try lia.
  repeat (apply Z.lor_nonneg; split);
    first [apply byteAt_nonneg | apply Z.shiftl_nonneg, byteAt_nonneg].
Qed.

Lemma getUint32_outside (buf : list byte) (off : Z) :
  byteLength buf < off + 4 -> getUint32 buf off = Throw RangeError.
Proof.
  intros Hout. unfold getUint32.
  destruct (0 <=? off); [|reflexivity].
  destruct (off + 4 <=? byteLength buf) eqn:Hhi; [lia|reflexivity].
Qed.

Lemma getUint32_inside (buf : list byte) (off : Z) :
  0 <= off -> off + 4 <= byteLength buf -> exists v, getUint32 buf off = Normal v.
Proof.
  intros Hlo Hhi. unfold getUint32.
  destruct (0 <=? off) eqn:E1; [|lia].
  destruct (off + 4 <=? byteLength buf) eqn:E2; [|lia].
  eexists. reflexivity.
Qed.

Lemma getUint16_fuel (buf : list byte) (off : Z) : getUint16 buf off <> OutOfFuel.
Proof. unfold getUint16. destruct (_ && _); discriminate. Qed.

Lemma getUint32_fuel (buf : list byte) (off : Z) : getUint32 buf off <> OutOfFuel.
Proof. unfold getUint32. destruct (_ && _); discriminate. Qed.

(** Case analysis on the completion at the head of a chain of binds. *)
Ltac head_completion :=
  match goal with
  | |- context [mbind _ (getUint32 ?b ?o)] =>
      let E := fresh "Eread" in
      destruct (getUint32 b o) eqn:E;
      [rewrite bind_Normal | rewrite bind_Throw | exfalso; exact (getUint32_fuel _ _ E)]
  | |- context [mbind _ (getUint16 ?b ?o)] =>
      let E := fresh "Eread" in
      destruct (getUint16 b o) eqn:E;
      [rewrite bind_Normal | rewrite bind_Throw | exfalso; exact (getUint16_fuel _ _ E)]
  end.

(** With a unit of fuel per remaining byte the scan never runs dry, never
    moves backwards and keeps the compressed size non-negative. *)
Lemma scanDescriptor_sound (buf : list byte) (fuel : nat) :
  forall offset size,
    byteLength buf - offset <= Z.of_nat fuel ->
    match scanDescriptor buf fuel offset size with
    | Normal (offset', size') => offset <= offset' /\ (0 <= size -> 0 <= size')
    | Throw _ => True
    | OutOfFuel => False
    end.
Proof.
  induction fuel as [|fuel IH]; intros offset size Hfuel; simpl.
  - destruct (offset <? byteLength buf) eqn:Hguard; [lia|]. split; [lia|auto].
  - destruct (offset <? byteLength buf) eqn:Hguard; [|split; [lia|auto]].
    head_completion; [|exact I].
    destruct (a =? 134695760) eqn:Hsig.
    + head_completion; [|exact I].
      apply getUint32_Normal in Eread0. split; [lia|]. intros _. lia.
    + specialize (IH (offset + 1) size ltac:(lia)).
      destruct (scanDescriptor buf fuel (offset + 1) size) as [[o' s']| |]; [|exact I|exact IH].
      split; [lia|tauto].
Qed.

(** When no data-descriptor signature is readable from [offset] on and the
    buffer has a byte left there, the scan reads past the end. *)
Lemma scanDescriptor_no_signature (buf : list byte) (fuel : nat) :
  forall offset size,
    0 <= offset < byteLength buf ->
    byteLength buf - offset <= Z.of_nat fuel ->
    (forall p, offset <= p -> getUint32 buf p <> Normal 0x08074b50) ->
    scanDescriptor buf fuel offset size = Throw RangeError.
Proof.
  induction fuel as [|fuel IH]; intros offset size Hin Hfuel Hnone; simpl.
  - lia.
  - destruct (offset <? byteLength buf) eqn:Hguard; [|lia].
    destruct (Z_lt_le_dec (byteLength buf) (offset + 4)) as [Hshort|Hroom].
    + rewrite (getUint32_outside buf offset) by lia. reflexivity.
    + destruct (getUint32_inside buf offset) as [v Hv]; [lia..|].
      rewrite Hv, bind_Normal.
      destruct (v =? 134695760) eqn:Hsig.
      * apply Z.eqb_eq in Hsig. subst v. destruct (Hnone offset); [lia|exact Hv].
      * apply IH; [lia|lia|]. intros p Hp. apply Hnone. lia.
Qed.

(** ** The outer loop: progress, fuel and reachability *)

(** A header that is read moves the cursor at least 30 bytes forward. *)
Lemma locate_sound (buf : list byte) (offset : Z) :
  0 <= offset ->
  match locate buf offset with
  | Normal (Some m) => offset + 30 <= dataOffset m /\ dataOffset m <= nextOffset m
  | Normal None | Throw _ => True
  | OutOfFuel => False
  end.
Proof.
  intros Hpos. unfold locate.
  head_completion; [|exact I].
  destruct (negb (a =? 67324752)); [exact I|].
  head_completion; [|exact I].
  head_completion; [|exact I].
  head_completion; [|exact I].
  head_completion; [|exact I].
  apply getUint16_Normal in Eread1, Eread2. apply getUint32_Normal in Eread3.
  destruct (negb (Z.land a0 8 =? 0)).
  - pose proof (scanDescriptor_sound buf
      (Z.to_nat (byteLength buf - (offset + (a1 + a2 + 30))))
      (offset + (a1 + a2 + 30)) a3 ltac:(lia)) as Hscan.
    destruct (scanDescriptor _ _ _ _) as [[o' s']| |]; [|exact I|exact Hscan].
    rewrite bind_Normal. simpl. lia.
  - rewrite bind_Normal. simpl. lia.
Qed.

Section ArchiveReaderFacts.
Context `{Host}.

Lemma extract_fuel (buf : list byte) (m : Member) : extract buf m <> OutOfFuel.
Proof.
  unfold extract, decompressData.
  destruct (isFileEntry (pathName m)); [|discriminate].
  destruct (inflate _); discriminate.
Qed.

Lemma entry_sound (buf : list byte) (offset : Z) :
  0 <= offset ->
  match entry buf offset with
  | Normal (Next offset' _) => offset + 30 <= offset'
  | Normal Break | Throw _ => True
  | OutOfFuel => False
  end.
Proof.
  intros Hpos. unfold entry.
  pose proof (locate_sound buf offset Hpos) as Hloc.
  destruct (locate buf offset) as [[m|]| |]; try exact Hloc; try exact I.
  rewrite bind_Normal.
  pose proof (extract_fuel buf m) as Hex.
  destruct (extract buf m) as [file| |]; try exact I; [|congruence].
  rewrite bind_Normal. lia.
Qed.

(** Fuel beyond the number of bytes left changes nothing, and with that
    much fuel the loop does not run dry. *)
Lemma walk_fuel (buf : list byte) (fuel1 : nat) :
  forall fuel2 offset files,
    0 <= offset ->
    byteLength buf - offset <= Z.of_nat fuel1 ->
    byteLength buf - offset <= Z.of_nat fuel2 ->
    walk buf fuel1 offset files = walk buf fuel2 offset files
    /\ walk buf fuel1 offset files <> OutOfFuel.
Proof.
  induction fuel1 as [|fuel1 IH]; intros fuel2 offset files Hpos Hf1 Hf2.
  - destruct fuel2; simpl;
      (destruct (offset <? byteLength buf) eqn:Hguard; [lia|split; [reflexivity|discriminate]]).
  - destruct fuel2 as [|fuel2]; simpl.
    + destruct (offset <? byteLength buf) eqn:Hguard; [lia|split; [reflexivity|discriminate]].
    + destruct (offset <? byteLength buf) eqn:Hguard; [|split; [reflexivity|discriminate]].
      pose proof (entry_sound buf offset Hpos) as Hentry.
      destruct (entry buf offset) as [[|offset' file]| |]; try contradiction;
        rewrite ?bind_Normal, ?bind_Throw; try (split; [reflexivity|discriminate]).
      apply IH; lia.
Qed.

(** A call of [decompressZip] never leaves the loop for lack of fuel. *)
Lemma decompressZip_terminates (arrayBuffer : list byte) :
  decompressZip arrayBuffer <> OutOfFuel.
Proof.
  unfold decompressZip.
  apply (walk_fuel arrayBuffer (length arrayBuffer) (length arrayBuffer));
    unfold byteLength; lia.
Qed.

Lemma arrives_nonneg (buf : list byte) (offset : Z) (files : list File) :
  arrives buf offset files -> 0 <= offset.
Proof.
  induction 1 as [|offset files offset' file _ IH _ Hentry]; [lia|].
  pose proof (entry_sound buf offset IH) as Hs. rewrite Hentry in Hs. lia.
Qed.

(** From a point the loop arrives at, the rest of the loop decides the
    result of the call. *)
Lemma arrives_walk (buf : list byte) (offset : Z) (files : list File) :
  arrives buf offset files ->
  forall fuel, byteLength buf - offset <= Z.of_nat fuel ->
    walk buf fuel offset files = decompressZip buf.
Proof.
  induction 1 as [|offset files offset' file Harr IH Hguard Hentry]; intros fuel Hfuel.
  - unfold decompressZip.
    apply (walk_fuel buf fuel (length buf)); unfold byteLength in *; lia.
  - pose proof (arrives_nonneg _ _ _ Harr) as Hpos.
    pose proof (entry_sound buf offset Hpos) as Hs. rewrite Hentry in Hs.
    set (big := (fuel + Z.to_nat (byteLength buf - offset))%nat).
    rewrite <- (IH (S big)) by lia.
    simpl. apply Z.ltb_lt in Hguard. rewrite Hguard, Hentry, bind_Normal.
    apply (walk_fuel buf fuel big); lia.
Qed.

(** What the call returns once the loop is known to end at [offset]. *)
Lemma arrives_end (buf : list byte) (offset : Z) (files : list File) :
  arrives buf offset files ->
  byteLength buf <= offset ->
  decompressZip buf = Normal files.
Proof.
  intros Harr Hend.
  rewrite <- (arrives_walk buf offset files Harr 0) by lia.
  simpl. destruct (offset <? byteLength buf) eqn:Hguard; [lia|reflexivity].
Qed.

(** The call throws what a turn of the loop throws. *)
Lemma arrives_throw (buf : list byte) (offset : Z) (files : list File) (e : Exn) :
  arrives buf offset files ->
  offset < byteLength buf ->
  entry buf offset = Throw e ->
  decompressZip buf = Throw e.
Proof.
  intros Harr Hguard Hentry.
  pose proof (arrives_nonneg _ _ _ Harr) as Hpos.
  rewrite <- (arrives_walk buf offset files Harr (Z.to_nat (byteLength buf - offset))) by lia.
  destruct (Z.to_nat (byteLength buf - offset)) eqn:Hfuel; [lia|].
  simpl. apply Z.ltb_lt in Hguard. rewrite Hguard, Hentry. reflexivity.
Qed.

End ArchiveReaderFacts.

(** ** The ZIP reader: claims *)

Lemma land_shiftl_disjoint (x y n : Z) :
  0 <= x < 2 ^ n -> 0 <= n -> Z.land x (Z.shiftl y n) = 0.
Proof.
  intros Hx Hn. apply Z.bits_inj'. intros i Hi.
  rewrite Z.land_spec, Z.bits_0.
  destruct (Z_lt_le_dec i n) as [Hlow|Hhigh].
  - rewrite (Z.shiftl_spec_low y n i) by lia. apply andb_false_r.
  - destruct (Z.eq_dec x 0) as [->|Hx0]; [rewrite Z.bits_0; reflexivity|].
    rewrite (Z.bits_above_log2 x i); [reflexivity|lia|].
    apply Z.lt_le_trans with n; [|lia]. apply Z.log2_lt_pow2; lia.
Qed.

Lemma lor_shiftl_byte (x y n : Z) :
  0 <= x < 2 ^ n -> 0 <= n -> Z.lor x (Z.shiftl y n) = x + y * 2 ^ n.
Proof.
  intros Hx Hn.
  rewrite <- Z.lxor_lor by (apply land_shiftl_disjoint; assumption).
  rewrite <- Z.add_nocarry_lxor by (apply land_shiftl_disjoint; assumption).
  rewrite Z.shiftl_mul_pow2 by lia. reflexivity.
Qed.

Lemma byteAt_range (buf : list byte) (i : Z) : 0 <= byteAt buf i < 256.
Proof.
  unfold byteAt. pose proof (Byte.to_N_bounded (nth (Z.to_nat i) buf x00)) as Hb. lia.
Qed.

(** A little-endian read is the sum of its four bytes by weight. *)
Lemma getUint32_sum (buf : list byte) (off v : Z) :
  getUint32 buf off = Normal v ->
  v = byteAt buf off + 256 * byteAt buf (off + 1) + 65536 * byteAt buf (off + 2)
      + 16777216 * byteAt buf (off + 3).
Proof.
  unfold getUint32. destruct (_ && _); [|discriminate]. intros [= <-].
  pose proof (byteAt_range buf off) as R0. pose proof (byteAt_range buf (off + 1)) as R1.
  pose proof (byteAt_range buf (off + 2)) as R2. pose proof (byteAt_range buf (off + 3)) as R3.
  replace (Z.lor (byteAt buf off)
             (Z.lor (Z.shiftl (byteAt buf (off + 1)) 8)
                (Z.lor (Z.shiftl (byteAt buf (off + 2)) 16)
                   (Z.shiftl (byteAt buf (off + 3)) 24))))
    with (Z.lor (byteAt buf off)
            (Z.shiftl
               (Z.lor (byteAt buf (off + 1))
                  (Z.shiftl
                     (Z.lor (byteAt buf (off + 2)) (Z.shiftl (byteAt buf (off + 3)) 8))
                     8))
               8))
    by (rewrite !Z.shiftl_lor, !Z.shiftl_shiftl by lia; reflexivity).
  rewrite !lor_shiftl_byte by (change (2 ^ 8) with 256; lia).
  change (2 ^ 8) with 256. lia.
Qed.

(** The four bytes [PK\003\004], and only they, read as the
    local-file-header signature. *)
Lemma getUint32_signature_bytes (buf : list byte) :
  getUint32 buf 0 = Normal 0x04034b50 <-> firstn 4 buf = [x50; x4b; x03; x04].
Proof.
  split.
  - intros Hread.
    pose proof (getUint32_Normal _ _ _ Hread) as (_ & Hlen & _).
    apply getUint32_sum in Hread.
    destruct buf as [|b0 [|b1 [|b2 [|b3 rest]]]];
      try (unfold byteLength in Hlen; cbn [length] in Hlen; lia).
    change (byteAt (b0 :: b1 :: b2 :: b3 :: rest) 0) with (Z.of_N (Byte.to_N b0)) in Hread.
    change (byteAt (b0 :: b1 :: b2 :: b3 :: rest) (0 + 1)) with (Z.of_N (Byte.to_N b1)) in Hread.
    change (byteAt (b0 :: b1 :: b2 :: b3 :: rest) (0 + 2)) with (Z.of_N (Byte.to_N b2)) in Hread.
    change (byteAt (b0 :: b1 :: b2 :: b3 :: rest) (0 + 3)) with (Z.of_N (Byte.to_N b3)) in Hread.
    pose proof (Byte.to_N_bounded b0) as B0. pose proof (Byte.to_N_bounded b1) as B1.
    pose proof (Byte.to_N_bounded b2) as B2. pose proof (Byte.to_N_bounded b3) as B3.
    assert (Byte.to_N b0 = 80%N /\ Byte.to_N b1 = 75%N
            /\ Byte.to_N b2 = 3%N /\ Byte.to_N b3 = 4%N) as (V0 & V1 & V2 & V3) by lia.
    cbn [firstn].
    pose proof (Byte.of_to_N b0) as E0. pose proof (Byte.of_to_N b1) as E1.
    pose proof (Byte.of_to_N b2) as E2. pose proof (Byte.of_to_N b3) as E3.
    rewrite V0 in E0. rewrite V1 in E1. rewrite V2 in E2. rewrite V3 in E3.
    vm_compute in E0, E1, E2, E3.
    injection E0 as <-. injection E1 as <-. injection E2 as <-. injection E3 as <-.
    reflexivity.
  - intros Hbytes.
    destruct buf as [|b0 [|b1 [|b2 [|b3 rest]]]]; try discriminate.
    cbn [firstn] in Hbytes. injection Hbytes as -> -> -> ->.
    unfold getUint32.
    destruct (0 + 4 <=? byteLength (x50 :: x4b :: x03 :: x04 :: rest)) eqn:Hlen;
      [reflexivity|].
    apply Z.leb_gt in Hlen. unfold byteLength in Hlen. cbn [length] in Hlen. lia.
Qed.

(** The loop breaks at once on a first read that is not the signature. *)
Lemma decompressZip_break `{Host} (arrayBuffer : list byte) (signature : Z) :
  getUint32 arrayBuffer 0 = Normal signature ->
  signature <> 0x04034b50 ->
  decompressZip arrayBuffer = Normal [].
Proof.
  intros Hread Hsig.
  pose proof (getUint32_Normal _ _ _ Hread) as (_ & Hlen & _).
  unfold decompressZip.
  destruct (length arrayBuffer) as [|fuel] eqn:Hfuel; [unfold byteLength in Hlen; lia|].
  cbn [walk].
  destruct (0 <? byteLength arrayBuffer) eqn:Hguard; [|lia].
  unfold entry, locate. rewrite Hread, bind_Normal.
  destruct (signature =? 67324752) eqn:Heq; [apply Z.eqb_eq in Heq; contradiction|].
  reflexivity.
Qed.

(** C7.  A buffer whose first four bytes are not [50 4b 03 04], the
    little-endian local-file-header signature 0x04034b50, makes
    [decompressZip] return the empty list of files; nothing is thrown. *)
Theorem decompressZip_foreign_signature `{Host} (arrayBuffer : list byte) :
  (4 <= length arrayBuffer)%nat ->
  firstn 4 arrayBuffer <> [x50; x4b; x03; x04] ->
  decompressZip arrayBuffer = Normal [].
Proof.
  intros Hlen Hbytes.
  destruct (getUint32_inside arrayBuffer 0) as [signature Hread];
    [lia|unfold byteLength; lia|].
  apply (decompressZip_break arrayBuffer signature Hread).
  intros ->. apply Hbytes, getUint32_signature_bytes, Hread.
Qed.

Lemma decompressZip_foreign_signature_witness :
  (4 <= length [x50; x4b; x05; x06; x00])%nat
  /\ decompressZip (H := Fixture.host) [x50; x4b; x05; x06; x00] = Normal [].
Proof.
  split; [cbn; lia|].
  apply (decompressZip_foreign_signature (H := Fixture.host)); [cbn; lia|discriminate].
Defined.

(** A streamed member whose descriptor signature is nowhere to be read, with
    a byte or more after its header: the scan overruns the buffer. *)
Lemma locate_scan_overrun (buf : list byte) (offset flag nameLength extraLength : Z) :
  getUint32 buf offset = Normal 0x04034b50 ->
  getUint16 buf (offset + 6) = Normal flag ->
  Z.land flag 0x0008 <> 0 ->
  getUint16 buf (offset + 26) = Normal nameLength ->
  getUint16 buf (offset + 28) = Normal extraLength ->
  offset + (nameLength + extraLength + 30) < byteLength buf ->
  (forall p, offset + (nameLength + extraLength + 30) <= p ->
             getUint32 buf p <> Normal 0x08074b50) ->
  locate buf offset = Throw RangeError.
Proof.
  intros Hsig Hflag Hbit Hname Hextra Hroom Hnone.
  pose proof (getUint32_Normal _ _ _ Hsig) as (Hpos & _ & _).
  pose proof (getUint16_Normal _ _ _ Hname) as (_ & _ & Hn).
  pose proof (getUint16_Normal _ _ _ Hextra) as (_ & Hlen & He).
  unfold locate. rewrite Hsig, bind_Normal. simpl negb. cbv iota.
  rewrite Hflag, bind_Normal, Hname, bind_Normal, Hextra, bind_Normal.
  destruct (getUint32_inside buf (offset + 18)) as [size Hsize]; [lia..|].
  rewrite Hsize, bind_Normal.
  destruct (Z.land flag 8 =? 0) eqn:Hb; [apply Z.eqb_eq in Hb; contradiction|].
  simpl negb. cbv iota.
  rewrite scanDescriptor_no_signature; [reflexivity|lia|lia|exact Hnone].
Qed.

(** C9.  [decompressZip] is not total.  A buffer of one to three bytes makes
    the first signature read leave the buffer; so does any later turn of the
    outer loop that starts with one to three bytes left; and so does the
    inner scan of a streamed member when it meets no descriptor signature and
    walks into the last three bytes.  Each time the call throws a RangeError
    and the files collected so far are lost. *)
Theorem decompressZip_not_total `{Host} (buf : list byte) :
  (0 < byteLength buf < 4 -> decompressZip buf = Throw RangeError)
  /\ (forall offset files,
        arrives buf offset files ->
        offset < byteLength buf < offset + 4 ->
        decompressZip buf = Throw RangeError)
  /\ (forall offset files flag nameLength extraLength,
        arrives buf offset files ->
        getUint32 buf offset = Normal 0x04034b50 ->
        getUint16 buf (offset + 6) = Normal flag ->
        Z.land flag 0x0008 <> 0 ->
        getUint16 buf (offset + 26) = Normal nameLength ->
        getUint16 buf (offset + 28) = Normal extraLength ->
        offset + (nameLength + extraLength + 30) < byteLength buf ->
        (forall p, offset + (nameLength + extraLength + 30) <= p ->
                   getUint32 buf p <> Normal 0x08074b50) ->
        decompressZip buf = Throw RangeError).
Proof.
  assert (Houter : forall offset files,
             arrives buf offset files ->
             offset < byteLength buf < offset + 4 ->
             decompressZip buf = Throw RangeError).
  { intros offset files Harr [Hguard Hshort].
    apply (arrives_throw buf offset files); [exact Harr|exact Hguard|].
    unfold entry, locate. rewrite (getUint32_outside buf offset) by lia. reflexivity. }
  split; [|split].
  - intros Hlen. apply (Houter 0 []); [constructor|lia].
  - exact Houter.
  - intros offset files flag nameLength extraLength Harr Hsig Hflag Hbit Hname Hextra Hroom Hnone.
    pose proof (getUint16_Normal _ _ _ Hextra) as (_ & Hlen & _).
    apply (arrives_throw buf offset files); [exact Harr|lia|].
    unfold entry.
    rewrite (locate_scan_overrun buf offset flag nameLength extraLength) by assumption.
    reflexivity.
Qed.

(** The table test of the fixtures is sound for the whole buffer. *)
Lemma noDescriptorBelow_sound (buf : list byte) :
  Fixture.noDescriptorBelow buf (length buf) = true ->
  forall p, getUint32 buf p <> Normal 0x08074b50.
Proof.
  intros Htable p Hread.
  pose proof (getUint32_Normal _ _ _ Hread) as (Hlo & Hhi & _).
  unfold Fixture.noDescriptorBelow in Htable.
  rewrite forallb_forall in Htable.
  specialize (Htable (Z.to_nat p)).
  rewrite Z2Nat.id, Hread in Htable by exact Hlo.
  assert (Hin : In (Z.to_nat p) (seq 0 (length buf))).
  { apply in_seq. unfold byteLength in Hhi. lia. }
  specialize (Htable Hin). discriminate.
Qed.

(** A deflated member followed by two stray bytes. *)
Example arrives_before_stray_bytes :
  arrives (H := Fixture.host)
    (Fixture.localHeader 0 8 2 "a.xml" ++ Fixture.deflatedEmpty ++ [x50; x4b]) 37
    [mkFile "a.xml" "" "" 1700000000000 []].
Proof.
  apply (arrives_next _ 0 [] 37 (Some (mkFile "a.xml" "" "" 1700000000000 []))).
  - constructor.
  - reflexivity.
  - reflexivity.
Qed.

Lemma decompressZip_not_total_witness :
  (0 < byteLength [x50; x4b; x03] < 4
   /\ decompressZip (H := Fixture.host) [x50; x4b; x03] = Throw RangeError)
  /\ decompressZip (H := Fixture.host)
       (Fixture.localHeader 0 8 2 "a.xml" ++ Fixture.deflatedEmpty ++ [x50; x4b])
     = Throw RangeError
  /\ decompressZip (H := Fixture.host) Fixture.streamedNoDescriptor = Throw RangeError.
Proof.
  split; [split|split].
  - vm_compute. split; reflexivity.
  - apply (proj1 (decompressZip_not_total (H := Fixture.host) [x50; x4b; x03])).
    vm_compute. split; reflexivity.
  - apply (proj1 (proj2 (decompressZip_not_total (H := Fixture.host)
             (Fixture.localHeader 0 8 2 "a.xml" ++ Fixture.deflatedEmpty ++ [x50; x4b]))))
      with (offset := 37) (files := [mkFile "a.xml" "" "" 1700000000000 []]).
    + exact arrives_before_stray_bytes.
    + vm_compute. split; reflexivity.
  - apply (proj2 (proj2 (decompressZip_not_total (H := Fixture.host)
             Fixture.streamedNoDescriptor)))
      with (offset := 0) (files := []) (flag := 8) (nameLength := 5) (extraLength := 0).
    + constructor.
    + reflexivity.
    + reflexivity.
    + discriminate.
    + reflexivity.
    + reflexivity.
    + reflexivity.
    + intros p _. apply noDescriptorBelow_sound. reflexivity.
Defined.

(** C6.  At the streamed member of [Fixture.streamedNoDescriptor] the
    data-descriptor signature is nowhere in the buffer, and [decompressZip]
    does not end quietly: the scan reads four bytes where three are left and
    the call throws a RangeError. *)
Theorem decompressZip_missing_descriptor :
  Fixture.noDescriptorBelow Fixture.streamedNoDescriptor
    (length Fixture.streamedNoDescriptor) = true
  /\ locate Fixture.streamedNoDescriptor 0 = Throw RangeError
  /\ decompressZip (H := Fixture.host) Fixture.streamedNoDescriptor = Throw RangeError.
Proof. repeat split; reflexivity. Qed.

(** C5, as the claim states it, fails: of the two members of
    [Fixture.deflatedThenStored] the first decompresses, the second does
    not, and the caller gets a thrown error and no file. *)
Lemma decompressZip_no_partial_result :
  entry (H := Fixture.host) Fixture.deflatedThenStored 0
    = Normal (Next 37 (Some (mkFile "a.xml" "" "" 1700000000000 [])))
  /\ entry (H := Fixture.host) Fixture.deflatedThenStored 37 = Throw TypeError
  /\ decompressZip (H := Fixture.host) Fixture.deflatedThenStored = Throw TypeError.
Proof. repeat split; reflexivity. Qed.

(** C5, amended.  When the loop of [decompressZip] arrives at a member that
    is not a directory placeholder and whose payload the deflate-raw stream
    rejects, the whole call throws: the files collected before are not
    returned and no later member is read. *)
Theorem decompressZip_member_failure `{Host}
    (buf : list byte) (offset : Z) (files : list File) (m : Member) :
  arrives buf offset files ->
  offset < byteLength buf ->
  locate buf offset = Normal (Some m) ->
  isFileEntry (pathName m) = true ->
  inflate (slice buf (dataOffset m) (dataOffset m + compressedSize m)) = None ->
  decompressZip buf = Throw TypeError.
Proof.
  intros Harr Hguard Hloc Hfile Hbad.
  apply (arrives_throw buf offset files); [exact Harr|exact Hguard|].
  unfold entry. rewrite Hloc, bind_Normal.
  unfold extract, decompressData. rewrite Hfile, Hbad. reflexivity.
Qed.

Lemma decompressZip_member_failure_witness :
  inflate (Host := Fixture.host) Fixture.storedHi = None
  /\ decompressZip (H := Fixture.host) Fixture.deflatedThenStored = Throw TypeError.
Proof.
  split; [reflexivity|].
  apply (decompressZip_member_failure (H := Fixture.host) Fixture.deflatedThenStored
           37 [mkFile "a.xml" "" "" 1700000000000 []]
           (mkMember "b.xsl" 72 2 74)).
  - apply (arrives_next _ 0 [] 37 (Some (mkFile "a.xml" "" "" 1700000000000 [])));
      [constructor|reflexivity|reflexivity].
  - reflexivity.
  - reflexivity.
  - reflexivity.
  - reflexivity.
Defined.

(** ** Strings: suffixes and unique keys *)

Lemma string_app_cons (c : ascii) (s t : string) :
  String c s +:+ t = String c (s +:+ t).
Proof. reflexivity. Qed.

Lemma string_app_nil_l (s : string) : "" +:+ s = s.
Proof. reflexivity. Qed.

Lemma string_app_assoc (s t u : string) : (s +:+ t) +:+ u = s +:+ (t +:+ u).
Proof.
  induction s as [|c s IH]; [reflexivity|].
  rewrite !string_app_cons. f_equal. exact IH.
Qed.

Lemma endsWith_app (p suf : string) : JS.endsWith (p +:+ suf) suf = true.
Proof.
  induction p as [|c p IH].
  - rewrite string_app_nil_l. destruct suf; cbn; rewrite ?String.eqb_refl, ?Ascii.eqb_refl; reflexivity.
  - rewrite string_app_cons. cbn [JS.endsWith].
    destruct (String.eqb (String c (p +:+ suf)) suf); [reflexivity|exact IH].
Qed.

Lemma endsWith_inv (s suf : string) :
  JS.endsWith s suf = true -> exists p, s = p +:+ suf.
Proof.
  induction s as [|c s IH]; cbn [JS.endsWith].
  - destruct suf; [exists ""; reflexivity|discriminate].
  - destruct (String.eqb (String c s) suf) eqn:Heq.
    + apply String.eqb_eq in Heq. exists "". exact Heq.
    + intros Hends. destruct (IH Hends) as [p ->]. exists (String c p). reflexivity.
Qed.

(** Where the name ends with the extension, stripping it leaves what stood
    before it. *)
Lemma stripSuffix_endsWith (ext s : string) :
  JS.endsWith s ext = true -> JS.stripSuffix ext s +:+ ext = s.
Proof.
  induction s as [|c s IH]; cbn [JS.endsWith JS.stripSuffix].
  - destruct ext; [reflexivity|discriminate].
  - destruct (String.eqb (String c s) ext) eqn:Heq.
    + apply String.eqb_eq in Heq. intros _. symmetry. exact Heq.
    + intros Hends. rewrite string_app_cons. f_equal. exact (IH Hends).
Qed.

Lemma hasChar_app (c : ascii) (s t : string) :
  JS.hasChar c (s +:+ t) = JS.hasChar c s || JS.hasChar c t.
Proof.
  induction s as [|c' s IH]; [reflexivity|].
  rewrite string_app_cons. cbn. rewrite IH. apply orb_assoc.
Qed.

(** The text after the last separator decides the split. *)
Lemma split_at_last (c : ascii) (s1 s2 t1 t2 : string) :
  JS.hasChar c t1 = false -> JS.hasChar c t2 = false ->
  s1 +:+ String c t1 = s2 +:+ String c t2 ->
  s1 = s2 /\ t1 = t2.
Proof.
  intros Ht1 Ht2. revert s2.
  induction s1 as [|a s1 IH]; intros [|b s2] Heq;
    rewrite ?string_app_cons, ?string_app_nil_l in Heq.
  - injection Heq as ->. split; reflexivity.
  - injection Heq as <- ->. rewrite hasChar_app in Ht1. cbn in Ht1.
    rewrite Ascii.eqb_refl, orb_true_r in Ht1. discriminate.
  - injection Heq as -> <-. rewrite hasChar_app in Ht2. cbn in Ht2.
    rewrite Ascii.eqb_refl, orb_true_r in Ht2. discriminate.
  - injection Heq as -> Heq. destruct (IH _ Heq) as [-> ->]. split; reflexivity.
Qed.

Lemma pretty_N_go_underscore (x : N) :
  forall s, JS.hasChar "_" s = false -> JS.hasChar "_" (pretty_N_go x s) = false.
Proof.
  induction (N.lt_wf_0 x) as [x _ IH]; intros s Hs.
  destruct (decide (x = 0%N)) as [->|Hpos].
  - rewrite pretty_N_go_0. exact Hs.
  - rewrite pretty_N_go_step by lia.
    apply IH; [apply N.div_lt; lia|].
    cbn. rewrite Hs, orb_false_r.
    unfold pretty_N_char. repeat case_match; reflexivity.
Qed.

Lemma pretty_N_underscore (x : N) : JS.hasChar "_" (pretty x) = false.
Proof.
  unfold pretty, pretty_N. case_decide; [reflexivity|].
  apply pretty_N_go_underscore. reflexivity.
Qed.

Lemma pretty_Z_underscore (x : Z) : JS.hasChar "_" (pretty x) = false.
Proof.
  destruct x as [|p|p]; unfold pretty, pretty_Z; [reflexivity| |].
  - apply (pretty_N_underscore (N.pos p)).
  - rewrite hasChar_app. cbn. apply (pretty_N_underscore (N.pos p)).
Qed.

(** A unique key determines its basename and its counter. *)
Lemma uniqueKeyOf_inj `{Host} (b1 b2 : string) (c1 c2 : Z) :
  uniqueKeyOf b1 c1 = uniqueKeyOf b2 c2 -> b1 = b2 /\ c1 = c2.
Proof.
  unfold uniqueKeyOf. intros Heq.
  change (b1 +:+ String "_" (pretty c1 +:+ String "_" (pretty (Date_now c1)))
          = b2 +:+ String "_" (pretty c2 +:+ String "_" (pretty (Date_now c2)))) in Heq.
  assert (Hre : forall (b : string) (c : Z),
             b +:+ String "_" (pretty c +:+ String "_" (pretty (Date_now c)))
             = (b +:+ String "_" (pretty c)) +:+ String "_" (pretty (Date_now c))).
  { intros b c. rewrite string_app_assoc. reflexivity. }
  rewrite !Hre in Heq.
  apply split_at_last in Heq as [Heq _]; try apply pretty_Z_underscore.
  apply split_at_last in Heq as [-> Hc]; try apply pretty_Z_underscore.
  split; [reflexivity|]. exact (inj pretty _ _ Hc).
Qed.

(** ** The duplicate test *)

(** Membership goals over key sets, by unfolding and propositional
    reasoning. *)
Ltac solve_set :=
  set_unfold; intros; intuition (subst; try congruence; auto).

Lemma keys_seen_cons (k : string) (keys more : gset string) :
  k ∈ keys -> keys ∪ more = keys ∪ ({[k]} ∪ more).
Proof. solve_set. Qed.

Lemma keys_new_cons (k : string) (keys more : gset string) :
  {[k]} ∪ keys ∪ more = keys ∪ ({[k]} ∪ more).
Proof. solve_set. Qed.

Section IngestFacts.
Context `{Host}.
Variable isZip : File -> bool.

Lemma ingest_cons_seen (i : nat) (file : File) (files : list File)
    (keys : gset string) (acc : list Item) :
  fileKey file ∈ keys ->
  ingest isZip i (file :: files) keys acc = ingest isZip (S i) files keys acc.
Proof.
  intros Hseen. cbn [ingest]. rewrite bool_decide_eq_true_2 by exact Hseen. reflexivity.
Qed.

Lemma ingest_cons_new (i : nat) (file : File) (files : list File)
    (keys : gset string) (acc : list Item) :
  fileKey file ∉ keys ->
  ingest isZip i (file :: files) keys acc =
  match contribution isZip i file with
  | Normal items => ingest isZip (S i) files ({[fileKey file]} ∪ keys) (acc ++ items)
  | Throw e => ({[fileKey file]} ∪ keys, Throw e)
  | OutOfFuel => ({[fileKey file]} ∪ keys, OutOfFuel)
  end.
Proof.
  intros Hnew. cbn [ingest]. rewrite bool_decide_eq_false_2 by exact Hnew.
  unfold contribution. destruct (isZip file); [|reflexivity].
  destruct (decompressZip (content file)); reflexivity.
Qed.

(** Every element a file contributes carries the index of the file. *)
Lemma contribution_index (i : nat) (file : File) (items : list Item) :
  contribution isZip i file = Normal items ->
  Forall (fun item => sourceIndex (item_source item) = i) items.
Proof.
  unfold contribution. destruct (isZip file).
  - destruct (decompressZip (content file)) as [unzipped| |]; try discriminate.
    rewrite bind_Normal. intros [= <-]. apply Forall_map, Forall_true. reflexivity.
  - intros [= <-]. repeat constructor.
Qed.

Lemma itemsFrom_app (i : nat) (l1 l2 : list Item) :
  itemsFrom i (l1 ++ l2) = itemsFrom i l1 ++ itemsFrom i l2.
Proof. apply List.filter_app. Qed.

Lemma itemsFrom_same (i : nat) (items : list Item) :
  Forall (fun item => sourceIndex (item_source item) = i) items ->
  itemsFrom i items = items.
Proof.
  induction 1 as [|item items Hidx _ IH]; [reflexivity|].
  unfold itemsFrom in *. cbn [List.filter]. rewrite Hidx, Nat.eqb_refl, IH. reflexivity.
Qed.

Lemma itemsFrom_other (i : nat) (items : list Item) :
  Forall (fun item => sourceIndex (item_source item) <> i) items ->
  itemsFrom i items = [].
Proof.
  induction 1 as [|item items Hidx _ IH]; [reflexivity|].
  unfold itemsFrom in *. cbn [List.filter].
  destruct (Nat.eqb_spec (sourceIndex (item_source item)) i); [contradiction|exact IH].
Qed.

Lemma firstWithKey_head (keys : gset string) (file : File) (files : list File) :
  firstWithKey keys (file :: files) 0 file <-> fileKey file ∉ keys.
Proof.
  unfold firstWithKey. split; [tauto|].
  intros Hnew. split; [exact Hnew|]. intros j file' Hj. lia.
Qed.

Lemma firstWithKey_tail_seen (keys : gset string) (file : File) (files : list File)
    (j : nat) (file0 : File) :
  fileKey file ∈ keys ->
  firstWithKey keys (file :: files) (S j) file0 <-> firstWithKey keys files j file0.
Proof.
  intros Hseen. unfold firstWithKey. split; intros [Hnew Hearlier]; (split; [exact Hnew|]).
  - intros j' file' Hj Hlook. apply (Hearlier (S j') file'); [lia|exact Hlook].
  - intros [|j'] file' Hj Hlook.
    + cbn in Hlook. simplify_eq. intros Heq. rewrite Heq in Hseen. contradiction.
    + apply (Hearlier j' file'); [lia|exact Hlook].
Qed.

Lemma firstWithKey_tail_new (keys : gset string) (file : File) (files : list File)
    (j : nat) (file0 : File) :
  firstWithKey keys (file :: files) (S j) file0
  <-> firstWithKey ({[fileKey file]} ∪ keys) files j file0.
Proof.
  unfold firstWithKey. split; intros [Hnew Hearlier].
  - split.
    + pose proof (Hearlier 0%nat file ltac:(lia) eq_refl) as Hne. solve_set.
    + intros j' file' Hj Hlook. apply (Hearlier (S j') file'); [lia|exact Hlook].
  - split; [solve_set|].
    intros [|j'] file' Hj Hlook.
    + cbn in Hlook. simplify_eq. solve_set.
    + apply (Hearlier j' file'); [lia|exact Hlook].
Qed.

(** What the loop has done when it returns: the key set has every key of
    the list, and each index contributed either what its file expands to,
    when the file is the first of its key, or nothing. *)
Lemma ingest_spec (files : list File) :
  forall (i0 : nat) (keys : gset string) (acc : list Item)
         (keys' : gset string) (items : list Item),
    ingest isZip i0 files keys acc = (keys', Normal items) ->
    keys' = keys ∪ list_to_set (fileKey <$> files)
    /\ exists new,
         items = acc ++ new
         /\ Forall (fun item => (i0 <= sourceIndex (item_source item))%nat) new
         /\ forall j file, files !! j = Some file ->
              (firstWithKey keys files j file ->
               contribution isZip (i0 + j) file = Normal (itemsFrom (i0 + j) new))
              /\ (~ firstWithKey keys files j file -> itemsFrom (i0 + j) new = []).
Proof.
  induction files as [|file files IH]; intros i0 keys acc keys' items Hrun.
  - cbn in Hrun. simplify_eq. split; [solve_set|].
    exists []. rewrite app_nil_r. split; [reflexivity|]. split; [constructor|].
    intros j0 file0 Hlook. discriminate.
  - destruct (decide (fileKey file ∈ keys)) as [Hseen|Hnew].
    + rewrite ingest_cons_seen in Hrun by exact Hseen.
      destruct (IH _ _ _ _ _ Hrun) as (-> & new & -> & Hidx & Hall).
      split; [rewrite fmap_cons, list_to_set_cons; apply keys_seen_cons, Hseen|].
      exists new. split; [reflexivity|]. split.
      { eapply Forall_impl; [exact Hidx|]. cbn. intros; lia. }
      intros [|j] file0 Hlook.
      * cbn in Hlook. simplify_eq. rewrite firstWithKey_head. split; [contradiction|].
        intros _. rewrite Nat.add_0_r. apply itemsFrom_other.
        eapply Forall_impl; [exact Hidx|]. cbn. intros; lia.
      * cbn in Hlook. rewrite firstWithKey_tail_seen by exact Hseen.
        replace (i0 + S j)%nat with (S i0 + j)%nat by lia. exact (Hall j file0 Hlook).
    + rewrite ingest_cons_new in Hrun by exact Hnew.
      destruct (contribution isZip i0 file) as [mine| |] eqn:Hmine;
        [|discriminate Hrun|discriminate Hrun].
      pose proof (contribution_index _ _ _ Hmine) as Hmine_idx.
      destruct (IH _ _ _ _ _ Hrun) as (-> & new & -> & Hidx & Hall).
      split; [rewrite fmap_cons, list_to_set_cons; apply keys_new_cons|].
      exists (mine ++ new). split; [rewrite app_assoc; reflexivity|]. split.
      { apply Forall_app. split.
        - eapply Forall_impl; [exact Hmine_idx|]. cbn. intros; lia.
        - eapply Forall_impl; [exact Hidx|]. cbn. intros; lia. }
      intros [|j] file0 Hlook.
      * cbn in Hlook. simplify_eq. rewrite firstWithKey_head, Nat.add_0_r.
        split; [|contradiction]. intros _.
        rewrite Hmine, itemsFrom_app, (itemsFrom_same _ _ Hmine_idx), itemsFrom_other, app_nil_r;
          [reflexivity|].
        eapply Forall_impl; [exact Hidx|]. cbn. intros; lia.
      * cbn in Hlook. rewrite firstWithKey_tail_new.
        replace (i0 + S j)%nat with (S i0 + j)%nat by lia.
        rewrite itemsFrom_app, (itemsFrom_other _ mine), app_nil_l; [exact (Hall j file0 Hlook)|].
        eapply Forall_impl; [exact Hmine_idx|]. cbn. intros; lia.
Qed.

(** Files whose keys are all known leave the loop as it was entered. *)
Lemma ingest_all_seen (files : list File) :
  forall (i : nat) (keys : gset string) (acc : list Item),
    (forall file, file ∈ files -> fileKey file ∈ keys) ->
    ingest isZip i files keys acc = (keys, Normal acc).
Proof.
  induction files as [|file files IH]; intros i keys acc Hseen; [reflexivity|].
  rewrite ingest_cons_seen by (apply Hseen; left).
  apply IH. intros file' Hin. apply Hseen. right. exact Hin.
Qed.

(** The key set only grows, whatever the outcome. *)
Lemma ingest_keys_grow (files : list File) :
  forall (i : nat) (keys : gset string) (acc : list Item),
    keys ⊆ (ingest isZip i files keys acc).1.
Proof.
  induction files as [|file files IH]; intros i keys acc; [reflexivity|].
  destruct (decide (fileKey file ∈ keys)) as [Hseen|Hnew].
  - rewrite ingest_cons_seen by exact Hseen. apply IH.
  - rewrite ingest_cons_new by exact Hnew.
    destruct (contribution isZip i file); cbn; [|solve_set..].
    etrans; [|apply IH]. solve_set.
Qed.

(** The loop ends: its only recursion outside the list is the ZIP reader. *)
Lemma ingest_terminates (files : list File) :
  forall (i : nat) (keys : gset string) (acc : list Item),
    (ingest isZip i files keys acc).2 <> OutOfFuel.
Proof.
  induction files as [|file files IH]; intros i keys acc; [discriminate|].
  destruct (decide (fileKey file ∈ keys)) as [Hseen|Hnew].
  - rewrite ingest_cons_seen by exact Hseen. apply IH.
  - rewrite ingest_cons_new by exact Hnew.
    unfold contribution. destruct (isZip file); [|apply IH].
    pose proof (decompressZip_terminates (content file)) as Hzip.
    destruct (decompressZip (content file)); [apply IH|discriminate|contradiction].
Qed.

End IngestFacts.

(** ** viewer.js: what the pairing loops leave alone *)

Section ViewerFrame.
Context `{Host}.

Lemma fold_placeXml_frame (items : list Item) :
  forall st,
    Viewer.processedFileKeys (fold_left Viewer.placeXml items st) = Viewer.processedFileKeys st
    /\ Viewer.xslCache (fold_left Viewer.placeXml items st) = Viewer.xslCache st.
Proof.
  induction items as [|item items IH]; intros st; [split; reflexivity|].
  cbn [fold_left]. destruct (IH (Viewer.placeXml st item)) as [-> ->].
  unfold Viewer.placeXml. destruct (Viewer.xslCache st !! _); split; reflexivity.
Qed.

Lemma fold_storePair_frame (basename : string) (xslData : XslData) (pooled : list Pooled) :
  forall st,
    let st' :=
      fold_left
        (fun st p =>
           Viewer.storePair st basename (pooled_file p) xslData
             (pooled_jigyoushoName p) (pooled_source p))
        pooled st in
    Viewer.processedFileKeys st' = Viewer.processedFileKeys st
    /\ Viewer.xslCache st' = Viewer.xslCache st
    /\ Viewer.xmlPool st' = Viewer.xmlPool st.
Proof.
  induction pooled as [|p pooled IH]; intros st; [repeat split|].
  cbn [fold_left]. cbn zeta in IH |- *.
  destruct (IH (Viewer.storePair st basename (pooled_file p) xslData
                  (pooled_jigyoushoName p) (pooled_source p))) as (-> & -> & ->).
  repeat split.
Qed.

Lemma drain_frame (st : Viewer.State) (basename : string) :
  Viewer.processedFileKeys (Viewer.drain st basename).1 = Viewer.processedFileKeys st
  /\ Viewer.xslCache (Viewer.drain st basename).1 = Viewer.xslCache st.
Proof.
  unfold Viewer.drain.
  destruct (Viewer.xmlPool st !! basename) as [[|p pooled]|]; [split; reflexivity| |split; reflexivity].
  destruct (Viewer.xslCache st !! basename) as [xslData|]; [|split; reflexivity].
  cbn [fst Viewer.processedFileKeys Viewer.xslCache].
  destruct (fold_storePair_frame basename xslData (p :: pooled) st) as (Hk & Hc & _).
  split; [exact Hk|exact Hc].
Qed.

Lemma drainAll_frame (basenames : list string) :
  forall st,
    Viewer.processedFileKeys (Viewer.drainAll st basenames).1 = Viewer.processedFileKeys st
    /\ Viewer.xslCache (Viewer.drainAll st basenames).1 = Viewer.xslCache st.
Proof.
  induction basenames as [|basename basenames IH]; intros st; [split; reflexivity|].
  cbn [Viewer.drainAll].
  pose proof (drain_frame st basename) as [Hk Hc].
  destruct (Viewer.drain st basename) as [st' [[]| |]]; cbn [fst] in *.
  - destruct (IH st') as [-> ->]. split; assumption.
  - split; assumption.
  - split; assumption.
Qed.

(** After a call the key set of the state is the one the first loop left. *)
Lemma addFilesToStorage_keys (files : list File) (st : Viewer.State) :
  Viewer.processedFileKeys (Viewer.addFilesToStorage files st).1
  = (ingest Viewer.isZip 0 files (Viewer.processedFileKeys st) []).1.
Proof.
  unfold Viewer.addFilesToStorage.
  destruct (ingest Viewer.isZip 0 files (Viewer.processedFileKeys st) [])
    as [keys [items| |]]; [|reflexivity..].
  unfold Viewer.pairUp.
  destruct (fold_left Viewer.registerXsl _ _) as [cache basenames].
  rewrite (proj1 (drainAll_frame _ _)), (proj1 (fold_placeXml_frame _ _)). reflexivity.
Qed.

Lemma drainAll_terminates (basenames : list string) :
  forall st, (Viewer.drainAll st basenames).2 <> OutOfFuel.
Proof.
  induction basenames as [|basename basenames IH]; intros st; [discriminate|].
  cbn [Viewer.drainAll].
  destruct (Viewer.drain st basename) as [st' [[]| |]] eqn:Hdrain; [apply IH|discriminate|].
  unfold Viewer.drain in Hdrain.
  destruct (Viewer.xmlPool st !! basename) as [[|p pooled]|]; try discriminate.
  destruct (Viewer.xslCache st !! basename); discriminate.
Qed.

(** A call of [addFilesToStorage] returns or throws. *)
Lemma addFilesToStorage_terminates (files : list File) (st : Viewer.State) :
  (Viewer.addFilesToStorage files st).2 <> OutOfFuel.
Proof.
  unfold Viewer.addFilesToStorage.
  pose proof (ingest_terminates Viewer.isZip files 0 (Viewer.processedFileKeys st) []) as Hin.
  destruct (ingest Viewer.isZip 0 files (Viewer.processedFileKeys st) [])
    as [keys [items| |]]; [|discriminate|contradiction].
  unfold Viewer.pairUp.
  destruct (fold_left Viewer.registerXsl _ _) as [cache basenames].
  apply drainAll_terminates.
Qed.

End ViewerFrame.

(** ** Deduplication and the two clear buttons: claims *)




(** C10.  The clear button of the full-page pair view, once confirmed,
    empties [fileStorage], [xslCache] and [xmlPool] and leaves
    [processedFileKeys] as it was; dropping again files whose keys are all in
    that set then changes nothing and stores no pair.  The clear-all button of
    the list view empties the key set as well. *)
Theorem clearOnPairView_keeps_keys `{Host} (st : Viewer.State) (files : list File) :
  (forall file, file ∈ files -> fileKey file ∈ Viewer.processedFileKeys st) ->
  Viewer.clearOnPairView true st
    = Viewer.mkState [] (Viewer.fileIdCounter st) ∅ ∅ (Viewer.processedFileKeys st)
  /\ Viewer.addFilesToStorage files (Viewer.clearOnPairView true st)
     = (Viewer.clearOnPairView true st, Normal ())
  /\ Viewer.clearOnListView true st
     = Viewer.mkState [] (Viewer.fileIdCounter st) ∅ ∅ ∅.
Proof.
  intros Hseen. split; [reflexivity|]. split; [|reflexivity].
  unfold Viewer.addFilesToStorage, Viewer.clearOnPairView.
  cbn [Viewer.processedFileKeys].
  rewrite ingest_all_seen by exact Hseen. reflexivity.
Qed.

(** A pair dropped, cleared from the pair view and dropped again: nothing is
    stored; cleared from the list view and dropped again: the pair is back. *)
Lemma clearOnPairView_keeps_keys_witness :
  Viewer.fileStorage
    (Viewer.run (H := Fixture.host)
       [Viewer.Drop [Fixture.plain "A.xml" 10 "<doc/>"; Fixture.plain "A.xsl" 11 "v1"];
        Viewer.ClearOnPairView true;
        Viewer.Drop [Fixture.plain "A.xml" 10 "<doc/>"; Fixture.plain "A.xsl" 11 "v1"]]
       Viewer.initial) = []
  /\ length (Viewer.fileStorage
       (Viewer.run (H := Fixture.host)
          [Viewer.Drop [Fixture.plain "A.xml" 10 "<doc/>"; Fixture.plain "A.xsl" 11 "v1"];
           Viewer.ClearOnListView true;
           Viewer.Drop [Fixture.plain "A.xml" 10 "<doc/>"; Fixture.plain "A.xsl" 11 "v1"]]
          Viewer.initial)) = 1%nat.
Proof.
  split; [|vm_compute; reflexivity].
  unfold Viewer.run. cbn [fold_left Viewer.step].
  set (st := (Viewer.addFilesToStorage (H := Fixture.host)
                [Fixture.plain "A.xml" 10 "<doc/>"; Fixture.plain "A.xsl" 11 "v1"]
                Viewer.initial).1).
  assert (Hseen : forall file,
            file ∈ [Fixture.plain "A.xml" 10 "<doc/>"; Fixture.plain "A.xsl" 11 "v1"] ->
            fileKey file ∈ Viewer.processedFileKeys st).
  { intros file Hin. subst st. rewrite addFilesToStorage_keys.
    apply elem_of_cons in Hin as [->|Hin]; [vm_compute; reflexivity|].
    apply elem_of_cons in Hin as [->|Hin]; [vm_compute; reflexivity|].
    inversion Hin. }
  rewrite (proj1 (proj2 (clearOnPairView_keeps_keys (H := Fixture.host) st _ Hseen))).
  reflexivity.
Defined.

(** ** viewer.js: what every reachable state satisfies *)

Lemma mapSet_elem {V : Type} (k k' : string) (v v' : V) (m : list (string * V)) :
  (k, v) ∈ mapSet k' v' m -> (k, v) = (k', v') \/ (k, v) ∈ m.
Proof.
  induction m as [|[k0 v0] m IH]; cbn [mapSet].
  - intros Hin. apply list_elem_of_singleton in Hin. left. exact Hin.
  - destruct (bool_decide (k0 = k')).
    + intros Hin. apply elem_of_cons in Hin as [Heq|Hin]; [left; exact Heq|].
      right. right. exact Hin.
    + intros Hin. apply elem_of_cons in Hin as [Heq|Hin].
      * right. rewrite Heq. left.
      * destruct (IH Hin) as [Heq|Hin']; [left; exact Heq|right; right; exact Hin'].
Qed.

(** Setting a key the map does not hold appends the entry. *)
Lemma mapSet_fresh {V : Type} (k : string) (v : V) (m : list (string * V)) :
  (forall k' v', (k', v') ∈ m -> k' <> k) ->
  mapSet k v m = m ++ [(k, v)].
Proof.
  induction m as [|[k0 v0] m IH]; intros Hfresh; [reflexivity|].
  cbn [mapSet]. rewrite bool_decide_eq_false_2 by (apply (Hfresh k0 v0); left).
  rewrite IH; [reflexivity|].
  intros k' v' Hin. apply (Hfresh k' v'). right. exact Hin.
Qed.

Section ViewerConsistency.
Context `{Host}.

Lemma storePair_consistent (st : Viewer.State) (b : string) (xmlFile : File)
    (xslData : XslData) (jigyousho : string) (source : SourceInfo) :
  Viewer.consistent st ->
  name xmlFile = b +:+ ".xml" ->
  Viewer.xslCache st !! b = Some xslData ->
  Viewer.consistent (Viewer.storePair st b xmlFile xslData jigyousho source).
Proof.
  intros (Hpairs & Hcache & Hpool) Hxml Hxsl.
  split; [|split; assumption].
  intros k p Hin. cbn in Hin.
  apply mapSet_elem in Hin as [Heq|Hin].
  - injection Heq as -> ->. cbn. repeat split.
    + exact Hxml.
    + exact (Hcache _ _ Hxsl).
    + rewrite Hxsl. eexists. reflexivity.
    + exists (Viewer.fileIdCounter st). split; [reflexivity|lia].
  - destruct (Hpairs k p Hin) as (Hsame & Hsome & c & Hk & Hc).
    repeat split; try apply Hsame; [exact Hsome|].
    exists c. cbn. split; [exact Hk|lia].
Qed.

(** A new pair goes to the end of [fileStorage]. *)
Lemma storePair_appends (st : Viewer.State) (b : string) (xmlFile : File)
    (xslData : XslData) (jigyousho : string) (source : SourceInfo) :
  Viewer.consistent st ->
  Viewer.fileStorage (Viewer.storePair st b xmlFile xslData jigyousho source)
  = Viewer.fileStorage st ++
    [(uniqueKeyOf b (Viewer.fileIdCounter st),
      mkPairData b xmlFile (xsl_file xslData) (xsl_title xslData) jigyousho source)].
Proof.
  intros (Hpairs & _ & _). cbn. apply mapSet_fresh.
  intros k' p' Hin Heq.
  destruct (Hpairs k' p' Hin) as (_ & _ & c & Hk & Hc).
  rewrite Hk in Heq. apply uniqueKeyOf_inj in Heq as [_ Heq]. lia.
Qed.

Lemma placeXml_consistent (st : Viewer.State) (item : Item) :
  Viewer.consistent st ->
  Viewer.isXml item = true ->
  Viewer.consistent (Viewer.placeXml st item).
Proof.
  intros Hst Hxml. unfold Viewer.isXml in Hxml.
  apply stripSuffix_endsWith in Hxml. symmetry in Hxml.
  unfold Viewer.placeXml.
  destruct (Viewer.xslCache st !! _) as [xslData|] eqn:Hlook.
  - apply storePair_consistent; [exact Hst|exact Hxml|exact Hlook].
  - destruct Hst as (Hpairs & Hcache & Hpool).
    split; [exact Hpairs|]. split; [exact Hcache|].
    intros b l p Hl Hp. cbn in Hl.
    destruct (decide (JS.stripSuffix ".xml" (name (item_file item)) = b)) as [Heq|Hne].
    + rewrite Heq in *. rewrite lookup_insert_eq in Hl. injection Hl as <-.
      apply elem_of_app in Hp as [Hp|Hp].
      * destruct (Viewer.xmlPool st !! b) as [l0|] eqn:Hl0; [|inversion Hp].
        exact (Hpool b l0 p Hl0 Hp).
      * apply list_elem_of_singleton in Hp. subst p. exact Hxml.
    + rewrite lookup_insert_ne in Hl by exact Hne. exact (Hpool b l p Hl Hp).
Qed.

Lemma fold_placeXml_consistent (items : list Item) :
  forall st,
    Viewer.consistent st ->
    Forall (fun item => Viewer.isXml item = true) items ->
    Viewer.consistent (fold_left Viewer.placeXml items st).
Proof.
  induction items as [|item items IH]; intros st Hst Hall; [exact Hst|].
  apply Forall_cons in Hall as [Hitem Hall].
  cbn [fold_left]. apply IH; [|exact Hall].
  apply placeXml_consistent; assumption.
Qed.

(** The loop over the stylesheets files each one under its basename and
    removes no entry. *)
Lemma fold_registerXsl_consistent (items : list Item) :
  forall (cache : gmap string XslData) (basenames : list string),
    (forall b x, cache !! b = Some x -> name (xsl_file x) = b +:+ ".xsl") ->
    Forall (fun item => Viewer.isXsl item = true) items ->
    (forall b x, (fold_left Viewer.registerXsl items (cache, basenames)).1 !! b = Some x ->
                 name (xsl_file x) = b +:+ ".xsl")
    /\ (forall b, is_Some (cache !! b) ->
                  is_Some ((fold_left Viewer.registerXsl items (cache, basenames)).1 !! b)).
Proof.
  induction items as [|item items IH]; intros cache basenames Hcache Hall;
    [split; [exact Hcache|tauto]|].
  apply Forall_cons in Hall as [Hitem Hall].
  cbn [fold_left]. unfold Viewer.registerXsl at 2 4. cbn [fst snd].
  unfold Viewer.isXsl in Hitem. apply andb_true_iff in Hitem as [_ Hends].
  apply stripSuffix_endsWith in Hends.
  match goal with
  | |- context [fold_left _ items (?c, ?bs)] => destruct (IH c bs) as [Hnames Hkept]
  end.
  - intros b x Hlook.
    destruct (decide (JS.stripSuffix ".xsl" (name (item_file item)) = b)) as [Heq|Hne].
    + rewrite Heq in *. rewrite lookup_insert_eq in Hlook. injection Hlook as <-.
      cbn. symmetry. exact Hends.
    + rewrite lookup_insert_ne in Hlook by exact Hne. exact (Hcache b x Hlook).
  - exact Hall.
  - split; [exact Hnames|].
    intros b Hsome. apply Hkept. rewrite lookup_insert_is_Some'. right. exact Hsome.
Qed.

(** Pairing off a list of waiting files against one stylesheet: the state
    stays consistent, the pairs are appended in the order of the list and
    the counter moves by the length of the list. *)
Lemma fold_storePair_consistent (b : string) (xslData : XslData) (pooled : list Pooled) :
  forall st,
    Viewer.consistent st ->
    Viewer.xslCache st !! b = Some xslData ->
    (forall p, p ∈ pooled -> name (pooled_file p) = b +:+ ".xml") ->
    let st' :=
      fold_left
        (fun st p =>
           Viewer.storePair st b (pooled_file p) xslData
             (pooled_jigyoushoName p) (pooled_source p))
        pooled st in
    Viewer.consistent st'
    /\ Viewer.fileStorage st'
       = Viewer.fileStorage st ++
         imap (fun i p =>
                 (uniqueKeyOf b (Viewer.fileIdCounter st + Z.of_nat i),
                  mkPairData b (pooled_file p) (xsl_file xslData) (xsl_title xslData)
                    (pooled_jigyoushoName p) (pooled_source p)))
              pooled.
Proof.
  induction pooled as [|p pooled IH]; intros st Hst Hxsl Hall; cbn zeta.
  - split; [exact Hst|]. cbn. rewrite app_nil_r. reflexivity.
  - cbn [fold_left].
    assert (Hp : name (pooled_file p) = b +:+ ".xml") by (apply Hall; left).
    pose proof (storePair_consistent st b (pooled_file p) xslData
                  (pooled_jigyoushoName p) (pooled_source p) Hst Hp Hxsl) as Hst1.
    destruct (IH _ Hst1 Hxsl) as [Hcons Hpairs].
    { intros p' Hin. apply Hall. right. exact Hin. }
    cbn zeta in Hcons, Hpairs. split; [exact Hcons|].
    rewrite Hpairs, storePair_appends by exact Hst.
    rewrite <- app_assoc. cbn [app imap]. rewrite Z.add_0_r.
    do 2 f_equal. apply imap_ext. intros i p' _. cbn.
    replace (Viewer.fileIdCounter st + 1 + Z.of_nat i)
      with (Viewer.fileIdCounter st + Z.of_nat (S i)) by lia.
    reflexivity.
Qed.

Lemma drain_consistent (st : Viewer.State) (b : string) :
  Viewer.consistent st -> Viewer.consistent (Viewer.drain st b).1.
Proof.
  intros Hst. unfold Viewer.drain.
  destruct (Viewer.xmlPool st !! b) as [[|p pooled]|] eqn:Hpooled; [exact Hst| |exact Hst].
  destruct (Viewer.xslCache st !! b) as [xslData|] eqn:Hcached; [|exact Hst].
  cbn [fst].
  pose proof Hst as (_ & _ & Hpool0).
  destruct (fold_storePair_consistent b xslData (p :: pooled) st Hst Hcached) as [Hfold _].
  { intros p' Hin. exact (Hpool0 b _ p' Hpooled Hin). }
  cbn zeta in Hfold. destruct Hfold as (Hpairs & Hcache & Hpool).
  split; [exact Hpairs|]. split; [exact Hcache|].
  intros b' l p' Hl Hp. cbn in Hl.
  apply lookup_delete_Some in Hl as [_ Hl]. exact (Hpool b' l p' Hl Hp).
Qed.

Lemma drainAll_consistent (basenames : list string) :
  forall st, Viewer.consistent st -> Viewer.consistent (Viewer.drainAll st basenames).1.
Proof.
  induction basenames as [|b basenames IH]; intros st Hst; [exact Hst|].
  cbn [Viewer.drainAll].
  pose proof (drain_consistent st b Hst) as Hdrained.
  destruct (Viewer.drain st b) as [st' [[]| |]]; cbn [fst] in *; [|exact Hdrained..].
  apply IH. exact Hdrained.
Qed.

Lemma filter_Forall_true {A : Type} (f : A -> bool) (l : list A) :
  Forall (fun x => f x = true) (List.filter f l).
Proof.
  apply List.Forall_forall. intros x Hin. apply List.filter_In in Hin. tauto.
Qed.

Lemma addFilesToStorage_consistent (files : list File) (st : Viewer.State) :
  Viewer.consistent st -> Viewer.consistent (Viewer.addFilesToStorage files st).1.
Proof.
  intros Hst. unfold Viewer.addFilesToStorage.
  destruct (ingest Viewer.isZip 0 files (Viewer.processedFileKeys st) [])
    as [keys [items| |]]; [|exact Hst..].
  unfold Viewer.pairUp.
  destruct Hst as (Hpairs & Hcache & Hpool).
  destruct (fold_registerXsl_consistent (List.filter Viewer.isXsl items)
              (Viewer.xslCache st) [] Hcache (filter_Forall_true _ _)) as [Hnames Hkept].
  destruct (fold_left Viewer.registerXsl _ _) as [cache basenames].
  apply drainAll_consistent, fold_placeXml_consistent; [|apply filter_Forall_true].
  split; [|split; [exact Hnames|exact Hpool]].
  intros k p Hin. destruct (Hpairs k p Hin) as (Hsame & Hsome & Hkey).
  repeat split; try apply Hsame; [|exact Hkey]. apply Hkept. exact Hsome.
Qed.

Lemma cleared_consistent (counter : Z) (keys : gset string) :
  Viewer.consistent (Viewer.mkState [] counter ∅ ∅ keys).
Proof.
  split; [|split].
  - intros k p Hin. inversion Hin.
  - intros b x Hlook. cbn in Hlook. rewrite lookup_empty in Hlook. discriminate.
  - intros b l p Hlook. cbn in Hlook. rewrite lookup_empty in Hlook. discriminate.
Qed.

Lemma step_consistent (st : Viewer.State) (ev : Viewer.Event) :
  Viewer.consistent st -> Viewer.consistent (Viewer.step st ev).
Proof.
  intros Hst. destruct ev as [files|c|c| |c k]; cbn [Viewer.step].
  - apply addFilesToStorage_consistent. exact Hst.
  - destruct c; [apply cleared_consistent|exact Hst].
  - destruct c; [apply cleared_consistent|exact Hst].
  - apply cleared_consistent.
  - destruct c; [|exact Hst].
    destruct Hst as (Hpairs & Hcache & Hpool).
    split; [|split; assumption].
    intros k' p Hin. cbn in Hin. unfold mapDelete in Hin.
    apply list_elem_of_filter in Hin as [_ Hin]. exact (Hpairs k' p Hin).
Qed.

Lemma run_consistent (evs : list Viewer.Event) :
  forall st, Viewer.consistent st -> Viewer.consistent (Viewer.run evs st).
Proof.
  induction evs as [|ev evs IH]; intros st Hst; [exact Hst|].
  unfold Viewer.run. cbn [fold_left]. apply IH, step_consistent, Hst.
Qed.

Lemma initial_consistent : Viewer.consistent Viewer.initial.
Proof. apply cleared_consistent. Qed.

End ViewerConsistency.

(** C8.  Whatever is dropped, cleared or deleted, in whatever order, every
    stored pair is made of an XML file and a stylesheet whose names are the
    pair's basename followed by [.xml] and by [.xsl], letter for letter; so
    a file named [a.xml] is never paired with a file named [A.xsl]. *)
Theorem pairs_share_basename `{Host} (evs : list Viewer.Event) (k : string) (p : PairData) :
  (k, p) ∈ Viewer.fileStorage (Viewer.run evs Viewer.initial) ->
  Viewer.sameBasename p
  /\ ~ (name (xml p) = "a.xml" /\ name (xsl p) = "A.xsl").
Proof.
  intros Hin.
  destruct (run_consistent evs Viewer.initial initial_consistent) as (Hpairs & _ & _).
  pose proof (Hpairs k p Hin) as ([Hxml Hxsl] & _).
  split; [split; assumption|].
  intros [Ha HA]. rewrite Hxml in Ha. rewrite Hxsl in HA.
  apply (split_at_last "." (basename p) "a" "xml" "xml") in Ha as [Ha _]; [|reflexivity..].
  apply (split_at_last "." (basename p) "A" "xsl" "xsl") in HA as [HA _]; [|reflexivity..].
  rewrite Ha in HA. discriminate.
Qed.

(** [a.xml], then [A.xsl] with [A.xml]: the one pair made is that of
    [A.xml]; [a.xml] goes on waiting. *)
Lemma pairs_share_basename_witness :
  Viewer.fileStorage
    (Viewer.run (H := Fixture.host)
       [Viewer.Drop [Fixture.plain "a.xml" 10 "<doc/>"];
        Viewer.Drop [Fixture.plain "A.xsl" 11 "v1"; Fixture.plain "A.xml" 12 "<doc/>"]]
       Viewer.initial)
  = [("A_1_1700000000000",
      mkPairData "A" (Fixture.plain "A.xml" 12 "<doc/>") (Fixture.plain "A.xsl" 11 "v1")
        "v1" "" (mkSourceInfo 1 direct "A.xml" None))]
  /\ Viewer.sameBasename
       (mkPairData "A" (Fixture.plain "A.xml" 12 "<doc/>") (Fixture.plain "A.xsl" 11 "v1")
          "v1" "" (mkSourceInfo 1 direct "A.xml" None)).
Proof.
  assert (Hrun :
    Viewer.fileStorage
      (Viewer.run (H := Fixture.host)
         [Viewer.Drop [Fixture.plain "a.xml" 10 "<doc/>"];
          Viewer.Drop [Fixture.plain "A.xsl" 11 "v1"; Fixture.plain "A.xml" 12 "<doc/>"]]
         Viewer.initial)
    = [("A_1_1700000000000",
        mkPairData "A" (Fixture.plain "A.xml" 12 "<doc/>") (Fixture.plain "A.xsl" 11 "v1")
          "v1" "" (mkSourceInfo 1 direct "A.xml" None))]).
  { vm_compute. reflexivity. }
  split; [exact Hrun|].
  apply (pairs_share_basename (H := Fixture.host)
           [Viewer.Drop [Fixture.plain "a.xml" 10 "<doc/>"];
            Viewer.Drop [Fixture.plain "A.xsl" 11 "v1"; Fixture.plain "A.xml" 12 "<doc/>"]]
           "A_1_1700000000000").
  rewrite Hrun. left.
Defined.

(** ** Classification by extension: claims *)

(** C3.  In viewer.js the extension test is case-sensitive: of [A.XML] and
    [A.xsl] dropped together, [A.XML] is neither paired nor kept waiting and
    only the stylesheet is cached.  The React front end lowers the name
    before the test and pairs the two. *)
Theorem viewer_extension_case_sensitive :
  Viewer.isXml (mkItem (Fixture.plain "A.XML" 10 "<doc/>") (mkSourceInfo 0 direct "A.XML" None))
    = false
  /\ (Viewer.addFilesToStorage (H := Fixture.host)
        [Fixture.plain "A.XML" 10 "<doc/>"; Fixture.plain "A.xsl" 11 "v1"] Viewer.initial).1
     = Viewer.mkState [] 1
         {["A" := mkXslData (Fixture.plain "A.xsl" 11 "v1") "v1"]} ∅
         {[fileKey (Fixture.plain "A.XML" 10 "<doc/>");
           fileKey (Fixture.plain "A.xsl" 11 "v1")]}
  /\ App.isXml (mkItem (Fixture.plain "A.XML" 10 "<doc/>") (mkSourceInfo 0 direct "A.XML" None))
     = true
  /\ App.filePairs
       (App.addFilesToStorage (H := Fixture.host)
          [Fixture.plain "A.XML" 10 "<doc/>"; Fixture.plain "A.xsl" 11 "v1"] App.initial).1
     = [("A_1_1700000000000",
         mkPairData "A" (Fixture.plain "A.XML" 10 "<doc/>") (Fixture.plain "A.xsl" 11 "v1")
           "v1" "" (mkSourceInfo 0 direct "A.XML" None))].
Proof. repeat split; vm_compute; reflexivity. Qed.

(** In the React front end two names that differ only in the case of their
    letters are classified alike. *)
Lemma App_isXml_ignores_case (item item' : Item) :
  JS.toLowerCase (name (item_file item)) = JS.toLowerCase (name (item_file item')) ->
  App.isXml item = App.isXml item' /\ App.isXsl item = App.isXsl item'.
Proof. unfold App.isXsl, App.isXml. intros ->. split; reflexivity. Qed.

(** ** viewer.js: one or two documents dropped at a time *)

Lemma endsWith_other_extension (b e1 e2 : string) :
  JS.hasChar "." e1 = false -> JS.hasChar "." e2 = false -> e1 <> e2 ->
  JS.endsWith (b +:+ String "." e1) (String "." e2) = false.
Proof.
  intros H1 H2 Hne.
  destruct (JS.endsWith (b +:+ String "." e1) (String "." e2)) eqn:Hends; [|reflexivity].
  apply endsWith_inv in Hends as [p Hp].
  apply split_at_last in Hp as [_ Heq]; [contradiction|assumption..].
Qed.

Lemma stripSuffix_app (b e : string) :
  JS.hasChar "." e = false ->
  JS.stripSuffix (String "." e) (b +:+ String "." e) = b.
Proof.
  intros He.
  pose proof (stripSuffix_endsWith (String "." e) (b +:+ String "." e)
                (endsWith_app b (String "." e))) as Hstrip.
  apply split_at_last in Hstrip as [Hb _]; [exact Hb|exact He..].
Qed.

Section ViewerScenarios.
Context `{Host}.

Lemma xml_name_facts (b : string) (i : nat) (x : File) :
  name x = b +:+ ".xml" -> isZipType x = false ->
  Viewer.isZip x = false
  /\ Viewer.isXml (plainItem i x) = true
  /\ Viewer.isXsl (plainItem i x) = false
  /\ JS.stripSuffix ".xml" (name x) = b.
Proof.
  intros Hname Htype.
  unfold Viewer.isZip, Viewer.isXsl, Viewer.isXml, plainItem. cbn [item_file].
  rewrite Hname, Htype.
  rewrite (endsWith_other_extension b "xml" "zip") by (reflexivity || discriminate).
  rewrite (endsWith_app b ".xml"), (stripSuffix_app b "xml") by reflexivity.
  repeat split.
Qed.

Lemma xsl_name_facts (b : string) (i : nat) (s : File) :
  name s = b +:+ ".xsl" -> isZipType s = false ->
  Viewer.isZip s = false
  /\ Viewer.isXml (plainItem i s) = false
  /\ Viewer.isXsl (plainItem i s) = true
  /\ JS.stripSuffix ".xsl" (name s) = b.
Proof.
  intros Hname Htype.
  unfold Viewer.isZip, Viewer.isXsl, Viewer.isXml, plainItem. cbn [item_file].
  rewrite Hname, Htype.
  rewrite (endsWith_other_extension b "xsl" "zip") by (reflexivity || discriminate).
  rewrite (endsWith_other_extension b "xsl" "xml") by (reflexivity || discriminate).
  rewrite (endsWith_app b ".xsl"), (stripSuffix_app b "xsl") by reflexivity.
  repeat split.
Qed.

Lemma ingest_plain_one (i : nat) (f : File) (keys : gset string) (acc : list Item) :
  Viewer.isZip f = false -> fileKey f ∉ keys ->
  ingest Viewer.isZip i [f] keys acc
  = ({[fileKey f]} ∪ keys, Normal (acc ++ [plainItem i f])).
Proof.
  intros Hzip Hnew. rewrite ingest_cons_new by exact Hnew.
  unfold contribution. rewrite Hzip. reflexivity.
Qed.

Lemma ingest_plain_two (i : nat) (f1 f2 : File) (keys : gset string) (acc : list Item) :
  Viewer.isZip f1 = false -> Viewer.isZip f2 = false ->
  fileKey f1 ∉ keys -> fileKey f2 ∉ keys -> fileKey f1 <> fileKey f2 ->
  ingest Viewer.isZip i [f1; f2] keys acc
  = ({[fileKey f2]} ∪ ({[fileKey f1]} ∪ keys),
     Normal (acc ++ [plainItem i f1; plainItem (S i) f2])).
Proof.
  intros Hzip1 Hzip2 Hnew1 Hnew2 Hne. rewrite ingest_cons_new by exact Hnew1.
  unfold contribution at 1. rewrite Hzip1.
  rewrite ingest_plain_one; [|exact Hzip2|solve_set].
  rewrite <- app_assoc. reflexivity.
Qed.

(** One XML file whose stylesheet is not cached goes to the pool. *)
Lemma placeXml_pending (b : string) (i : nat) (x : File)
    (pairs : list (string * PairData)) (counter : Z)
    (cache : gmap string XslData) (pool : gmap string (list Pooled)) (keys : gset string) :
  name x = b +:+ ".xml" -> isZipType x = false -> cache !! b = None ->
  Viewer.placeXml (Viewer.mkState pairs counter cache pool keys) (plainItem i x)
  = Viewer.mkState pairs counter cache
      (<[b := default [] (pool !! b) ++ [Viewer.pooledOf i x]]> pool) keys.
Proof.
  intros Hname Htype Hcache.
  destruct (xml_name_facts b i x Hname Htype) as (_ & _ & _ & Hstrip).
  unfold Viewer.placeXml. cbn [plainItem item_file item_source Viewer.xslCache].
  rewrite Hstrip, Hcache. reflexivity.
Qed.

(** A batch of one XML file with a new key and no cached stylesheet. *)
Lemma drop_xml_pending (b : string) (x : File)
    (pairs : list (string * PairData)) (counter : Z)
    (cache : gmap string XslData) (pool : gmap string (list Pooled)) (keys : gset string) :
  name x = b +:+ ".xml" -> isZipType x = false ->
  fileKey x ∉ keys -> cache !! b = None ->
  Viewer.addFilesToStorage [x] (Viewer.mkState pairs counter cache pool keys)
  = (Viewer.mkState pairs counter cache
       (<[b := default [] (pool !! b) ++ [Viewer.pooledOf 0 x]]> pool)
       ({[fileKey x]} ∪ keys),
     Normal ()).
Proof.
  intros Hname Htype Hnew Hcache.
  destruct (xml_name_facts b 0 x Hname Htype) as (Hzip & Hxml & Hxsl & _).
  unfold Viewer.addFilesToStorage. cbn [Viewer.processedFileKeys].
  rewrite ingest_plain_one by assumption.
  unfold Viewer.pairUp. cbn [app List.filter]. rewrite Hxml, Hxsl.
  cbn [fold_left Viewer.drainAll Viewer.fileStorage Viewer.fileIdCounter
       Viewer.xslCache Viewer.xmlPool].
  rewrite (placeXml_pending b) by assumption. reflexivity.
Qed.


(** A batch of one stylesheet with a new key: the cache entry is written and
    the pool of its basename drained. *)
Lemma drop_xsl (b : string) (s : File)
    (pairs : list (string * PairData)) (counter : Z)
    (cache : gmap string XslData) (pool : gmap string (list Pooled)) (keys : gset string) :
  name s = b +:+ ".xsl" -> isZipType s = false -> fileKey s ∉ keys ->
  Viewer.addFilesToStorage [s] (Viewer.mkState pairs counter cache pool keys)
  = Viewer.drainAll
      (Viewer.mkState pairs counter
         (<[b := mkXslData s (titleOf (content s))]> cache) pool
         ({[fileKey s]} ∪ keys))
      [b].
Proof.
  intros Hname Htype Hnew.
  destruct (xsl_name_facts b 0 s Hname Htype) as (Hzip & Hxml & Hxsl & Hstrip).
  unfold Viewer.addFilesToStorage. cbn [Viewer.processedFileKeys].
  rewrite ingest_plain_one by assumption.
  unfold Viewer.pairUp. cbn [app List.filter]. rewrite Hxml, Hxsl.
  cbn [fold_left Viewer.registerXsl plainItem item_file fst snd app
       Viewer.fileStorage Viewer.fileIdCounter Viewer.xslCache Viewer.xmlPool].
  rewrite Hstrip. reflexivity.
Qed.

End ViewerScenarios.

Section ViewerDrain.
Context `{Host}.

Lemma drainAll_one_none (b : string)
    (pairs : list (string * PairData)) (counter : Z)
    (cache : gmap string XslData) (pool : gmap string (list Pooled)) (keys : gset string) :
  pool !! b = None ->
  Viewer.drainAll (Viewer.mkState pairs counter cache pool keys) [b]
  = (Viewer.mkState pairs counter cache pool keys, Normal ()).
Proof.
  intros Hpool. cbn [Viewer.drainAll]. unfold Viewer.drain. cbn [Viewer.xmlPool].
  rewrite Hpool. reflexivity.
Qed.

Lemma drainAll_one_some (b : string) (xslData : XslData) (p : Pooled) (ps : list Pooled)
    (pairs : list (string * PairData)) (counter : Z)
    (cache : gmap string XslData) (pool : gmap string (list Pooled)) (keys : gset string) :
  pool !! b = Some (p :: ps) -> cache !! b = Some xslData ->
  Viewer.drainAll (Viewer.mkState pairs counter cache pool keys) [b]
  = (let st' :=
       fold_left
         (fun st p =>
            Viewer.storePair st b (pooled_file p) xslData
              (pooled_jigyoushoName p) (pooled_source p))
         (p :: ps) (Viewer.mkState pairs counter cache pool keys) in
     Viewer.mkState (Viewer.fileStorage st') (Viewer.fileIdCounter st') cache
       (delete b pool) keys,
     Normal ()).
Proof.
  intros Hpool Hcache. cbn [Viewer.drainAll]. unfold Viewer.drain.
  cbn [Viewer.xmlPool Viewer.xslCache]. rewrite Hpool, Hcache. cbn zeta.
  destruct (fold_storePair_frame b xslData (p :: ps)
              (Viewer.mkState pairs counter cache pool keys)) as (Hk & Hc & Hp).
  cbn zeta in Hk, Hc, Hp. rewrite Hk, Hc, Hp. reflexivity.
Qed.

End ViewerDrain.

(** ** Pairing across batches: claims *)

(** No stored pair has a key made with the current or a later counter
    value. *)
Lemma stored_keys_older `{Host} (st : Viewer.State) (b : string) (c : Z) :
  Viewer.consistent st -> Viewer.fileIdCounter st <= c ->
  forall k p, (k, p) ∈ Viewer.fileStorage st -> k <> uniqueKeyOf b c.
Proof.
  intros (Hpairs & _ & _) Hc k p Hin Heq.
  destruct (Hpairs k p Hin) as (_ & _ & c' & Hk & Hc').
  rewrite Hk in Heq. apply uniqueKeyOf_inj in Heq as [_ Heq]. lia.
Qed.

(** No stored pair has a basename whose stylesheet is not cached. *)
Lemma stored_basenames_cached `{Host} (st : Viewer.State) (b : string) :
  Viewer.consistent st -> Viewer.xslCache st !! b = None ->
  forall k p, (k, p) ∈ Viewer.fileStorage st -> basename p <> b.
Proof.
  intros (Hpairs & _ & _) Hnone k p Hin Heq.
  destruct (Hpairs k p Hin) as (_ & Hsome & _).
  rewrite Heq, Hnone in Hsome. destruct Hsome as [? ?]. discriminate.
Qed.

(** C1, as the claim states it, fails.  [A.xml], then a well-formed
    stylesheet [A.xsl] whose [title] element holds v1, then a well-formed
    stylesheet [A.xsl] whose [title] element holds v2, are dropped in three
    batches.  The one stored pair holds the first stylesheet and the title
    v1, while the title that [querySelector('title')] reads from the second
    stylesheet is v2. *)
Lemma xsl_update_not_applied :
  map Viewer.pairFiles
    (Viewer.fileStorage
       (Viewer.run (H := Fixture.reader)
          [Viewer.Drop [Fixture.plain "A.xml" 10 "<doc/>"];
           Viewer.Drop [Fixture.plain "A.xsl" 11 (Fixture.stylesheet "v1")];
           Viewer.Drop [Fixture.plain "A.xsl" 12 (Fixture.stylesheet "v2")]]
          Viewer.initial))
  = [("A", Fixture.plain "A.xml" 10 "<doc/>",
      Fixture.plain "A.xsl" 11 (Fixture.stylesheet "v1"), "v1")]
  /\ titleOf (Host := Fixture.reader)
       (content (Fixture.plain "A.xsl" 11 (Fixture.stylesheet "v1"))) = "v1"
  /\ titleOf (Host := Fixture.reader)
       (content (Fixture.plain "A.xsl" 12 (Fixture.stylesheet "v2"))) = "v2"
  /\ "v1" <> "v2".
Proof. repeat split; try (vm_compute; reflexivity). discriminate. Qed.

(** C1, amended.  In any state the page can reach where no stylesheet of
    basename [b] is cached and no XML file of that basename waits: an XML
    file [b.xml], then a stylesheet [b.xsl], then a second stylesheet
    [b.xsl], each in a batch of its own and each with a deduplication key of
    its own, add exactly one pair to [fileStorage], the only one of that
    basename; it holds the first stylesheet and the title read from it, as
    they were when the pair was made, and the second stylesheet only
    replaces the cache entry of the basename. *)
Theorem xsl_update_leaves_pair `{Host} (evs : list Viewer.Event) (b : string)
    (x s1 s2 : File) :
  let st := Viewer.run evs Viewer.initial in
  Viewer.xslCache st !! b = None -> Viewer.xmlPool st !! b = None ->
  name x = b +:+ ".xml" -> name s1 = b +:+ ".xsl" -> name s2 = b +:+ ".xsl" ->
  isZipType x = false -> isZipType s1 = false -> isZipType s2 = false ->
  fileKey x ∉ Viewer.processedFileKeys st ->
  fileKey s1 ∉ Viewer.processedFileKeys st ->
  fileKey s2 ∉ Viewer.processedFileKeys st ->
  fileKey x <> fileKey s1 -> fileKey x <> fileKey s2 -> fileKey s1 <> fileKey s2 ->
  let st' := Viewer.run [Viewer.Drop [x]; Viewer.Drop [s1]; Viewer.Drop [s2]] st in
  Viewer.fileStorage st'
  = Viewer.fileStorage st ++
    [(uniqueKeyOf b (Viewer.fileIdCounter st), Viewer.pairOf b 0 x s1)]
  /\ (forall k p, (k, p) ∈ Viewer.fileStorage st -> basename p <> b)
  /\ Viewer.xslCache st' !! b = Some (mkXslData s2 (titleOf (content s2))).
Proof.
  intros st Hcache Hpool Hx Hs1 Hs2 Tx Ts1 Ts2 Nx Ns1 Ns2 Kxs1 Kxs2 Ks12 st'.
  pose proof (run_consistent evs Viewer.initial initial_consistent) as Hcons.
  fold st in Hcons. subst st'. clearbody st.
  split; [|split; [exact (stored_basenames_cached st b Hcons Hcache)|]];
    pose proof (stored_keys_older st b (Viewer.fileIdCounter st) Hcons ltac:(lia)) as Hfresh;
    destruct st as [pairs counter cache pool keys];
    cbn [Viewer.xslCache Viewer.xmlPool Viewer.processedFileKeys Viewer.fileStorage
         Viewer.fileIdCounter] in *;
    unfold Viewer.run; cbn [fold_left Viewer.step];
    rewrite (drop_xml_pending b) by assumption;
    cbn [fst]; rewrite Hpool; cbn [default app];
    rewrite (drop_xsl b) by (assumption || solve_set);
    rewrite (drainAll_one_some b (mkXslData s1 (titleOf (content s1)))
               (Viewer.pooledOf 0 x) [])
      by apply lookup_insert_eq;
    cbn [fst fold_left Viewer.storePair Viewer.fileStorage Viewer.fileIdCounter
         Viewer.pooledOf pooled_file pooled_jigyoushoName pooled_source xsl_file xsl_title];
    rewrite (drop_xsl b) by (assumption || solve_set);
    rewrite drainAll_one_none by apply lookup_delete_eq;
    cbn [fst Viewer.fileStorage Viewer.xslCache].
  - apply mapSet_fresh. intros k' v' Hin. exact (Hfresh k' v' Hin).
  - apply lookup_insert_eq.
Qed.

(** After an unrelated pair, the three batches of the claim. *)
Lemma xsl_update_leaves_pair_witness :
  Viewer.fileStorage
    (Viewer.run (H := Fixture.host)
       [Viewer.Drop [Fixture.plain "A.xml" 10 "<doc/>"];
        Viewer.Drop [Fixture.plain "A.xsl" 11 "v1"];
        Viewer.Drop [Fixture.plain "A.xsl" 12 "v2"]]
       (Viewer.run (H := Fixture.host)
          [Viewer.Drop [Fixture.plain "Z.xsl" 1 "z"; Fixture.plain "Z.xml" 2 "<z/>"]]
          Viewer.initial))
  = Viewer.fileStorage
      (Viewer.run (H := Fixture.host)
         [Viewer.Drop [Fixture.plain "Z.xsl" 1 "z"; Fixture.plain "Z.xml" 2 "<z/>"]]
         Viewer.initial)
    ++ [("A_2_1700000000000",
         mkPairData "A" (Fixture.plain "A.xml" 10 "<doc/>") (Fixture.plain "A.xsl" 11 "v1")
           "v1" "" (mkSourceInfo 0 direct "A.xml" None))].
Proof.
  refine (proj1 (xsl_update_leaves_pair (H := Fixture.host)
                  [Viewer.Drop [Fixture.plain "Z.xsl" 1 "z"; Fixture.plain "Z.xml" 2 "<z/>"]]
                  "A"
                  (Fixture.plain "A.xml" 10 "<doc/>") (Fixture.plain "A.xsl" 11 "v1")
                  (Fixture.plain "A.xsl" 12 "v2")
                  _ _ _ _ _ _ _ _ _ _ _ _ _ _));
    first [ reflexivity
          | vm_compute; reflexivity
          | vm_compute; discriminate
          | apply bool_decide_eq_false_1; vm_compute; reflexivity ].
Defined.



(** ** Line folding *)

Lemma cleanText_clean (t : list Z) : Reflow.clean (Reflow.cleanText t).
Proof.
  unfold Reflow.clean, Reflow.cleanText. apply Forall_forall. intros c Hc.
  apply list_elem_of_In in Hc.
  apply filter_In in Hc as [Hc H32]. apply filter_In in Hc as [_ Hws].
  apply negb_true_iff in H32. apply negb_true_iff in Hws.
  apply orb_false_iff in Hws as [Hws H9]. apply orb_false_iff in Hws as [H13 H10].
  lia.
Qed.

Lemma cleanText_of_clean (t : list Z) : Reflow.clean t -> Reflow.cleanText t = t.
Proof.
  unfold Reflow.clean, Reflow.cleanText. induction 1 as [|c t Hc Ht IH]; [reflexivity|].
  cbn [List.filter].
  replace ((c =? 13) || (c =? 10) || (c =? 9)) with false
    by (symmetry; rewrite !orb_false_iff; lia).
  cbn [negb List.filter].
  replace (c =? 32) with false by (symmetry; lia).
  cbn [negb]. now rewrite IH.
Qed.

Lemma cleanText_fold (lineLength : Z) (text : list Z) :
  Reflow.clean text ->
  forall charCount, Reflow.cleanText (Reflow.fold lineLength charCount text) = text.
Proof.
  induction 1 as [|c t Hc Ht IH]; intros charCount; [reflexivity|].
  assert (Hkeep : forall rest, Reflow.cleanText (c :: rest) = c :: Reflow.cleanText rest).
  { intros rest. unfold Reflow.cleanText. cbn [List.filter].
    replace ((c =? 13) || (c =? 10) || (c =? 9)) with false
      by (symmetry; rewrite !orb_false_iff; lia).
    cbn [negb List.filter].
    replace (c =? 32) with false by (symmetry; lia). reflexivity. }
  cbn [Reflow.fold].
  destruct ((2 * lineLength <=? charCount + Reflow.charWidth c) && Reflow.notLast t).
  - rewrite Hkeep. f_equal. change (Reflow.cleanText (10 :: ?r)) with (Reflow.cleanText r).
    apply IH.
  - rewrite Hkeep. f_equal. apply IH.
Qed.

Lemma charWidth_range (c : Z) : 1 <= Reflow.charWidth c <= 2.
Proof. unfold Reflow.charWidth. destruct (127 <? c); lia. Qed.

Lemma fold_lines (lineLength : Z) (text : list Z) :
  1 <= lineLength -> Reflow.clean text ->
  forall charCount,
    0 <= charCount < 2 * lineLength -> text <> [] ->
    exists l ls,
      Reflow.splitLines (Reflow.fold lineLength charCount text) = l :: ls
      /\ 0 < Reflow.width l
      /\ charCount + Reflow.width l <= 2 * lineLength + 1
      /\ (ls <> [] -> 2 * lineLength <= charCount + Reflow.width l)
      /\ Forall (fun x => 0 < Reflow.width x <= 2 * lineLength + 1) ls
      /\ Forall (fun x => 2 * lineLength <= Reflow.width x) (removelast ls).
Proof.
  intros HL. induction 1 as [|c t Hc Ht IH]; intros charCount Hcount Hne; [done|].
  pose proof (charWidth_range c) as Hw.
  assert (Hc10 : (c =? 10) = false) by lia.
  cbn [Reflow.fold].
  destruct t as [|c' t'].
  - rewrite andb_false_r. cbn [Reflow.fold Reflow.splitLines]. rewrite Hc10.
    exists [c], []. cbn [Reflow.width fold_right removelast].
    repeat split; try lia; try done; constructor.
  - cbn [Reflow.notLast]. rewrite andb_true_r.
    destruct (2 * lineLength <=? charCount + Reflow.charWidth c) eqn:Hfull.
    + destruct (IH 0 ltac:(lia) ltac:(done)) as (l' & ls' & Hsplit & Hpos & Hle & Hge & Hall & Hbut).
      exists [c], (l' :: ls').
      change (Reflow.splitLines (c :: 10 :: ?r))
        with (if c =? 10 then [] :: Reflow.splitLines (10 :: r)
              else match Reflow.splitLines (10 :: r) with
                   | l :: ls => (c :: l) :: ls
                   | [] => [[c]]
                   end).
      rewrite Hc10.
      change (Reflow.splitLines (10 :: ?r)) with ([] :: Reflow.splitLines r).
      rewrite Hsplit. cbn [Reflow.width fold_right].
      split; [reflexivity|]. split; [lia|]. split; [lia|]. split; [lia|].
      split.
      * constructor; [|exact Hall]. fold (Reflow.width l'). lia.
      * destruct ls' as [|l'' ls'']; [constructor|].
        change (removelast (l' :: l'' :: ls'')) with (l' :: removelast (l'' :: ls'')).
        constructor; [|exact Hbut]. specialize (Hge ltac:(done)). lia.
    + destruct (IH (charCount + Reflow.charWidth c) ltac:(lia) ltac:(done))
        as (l' & ls' & Hsplit & Hpos & Hle & Hge & Hall & Hbut).
      exists (c :: l'), ls'.
      change (Reflow.splitLines (c :: ?r))
        with (if c =? 10 then [] :: Reflow.splitLines r
              else match Reflow.splitLines r with
                   | l :: ls => (c :: l) :: ls
                   | [] => [[c]]
                   end).
      rewrite Hc10, Hsplit. cbn [Reflow.width fold_right]. fold (Reflow.width l').
      split; [reflexivity|]. split; [lia|]. split; [lia|]. split; [intros; specialize (Hge ltac:(done)); lia|].
      split; assumption.
Qed.

Lemma filter_LF_fold (lineLength : Z) (text : list Z) :
  Reflow.clean text ->
  forall charCount,
    List.filter (fun c => negb (c =? 10)) (Reflow.fold lineLength charCount text) = text.
Proof.
  induction 1 as [|c t Hc Ht IH]; intros charCount; [reflexivity|].
  assert (Hc10 : (c =? 10) = false) by lia.
  cbn [Reflow.fold].
  destruct ((2 * lineLength <=? charCount + Reflow.charWidth c) && Reflow.notLast t);
    cbn [List.filter]; rewrite Hc10; cbn [negb Z.eqb Pos.eqb List.filter]; f_equal; apply IH.
Qed.

(** X1.  Folding only inserts line feeds: with the line feeds taken out
    again, the folded text is the original text without its carriage
    returns, line feeds, tabs and spaces, whatever the limit. *)
Theorem formatBlock_keeps_text (lineLength : Z) (originalText : list Z) :
  List.filter (fun c => negb (c =? 10)) (Reflow.formatBlock lineLength originalText)
  = Reflow.cleanText originalText
  /\ Reflow.clean (Reflow.cleanText originalText).
Proof.
  split; [|apply cleanText_clean].
  apply filter_LF_fold, cleanText_clean.
Qed.

(** X2.  Folding a folded text again changes nothing: the line feeds of the
    first pass are removed with the other white space and put back at the
    same places. *)
Theorem formatBlock_idempotent (lineLength : Z) (originalText : list Z) :
  Reflow.formatBlock lineLength (Reflow.formatBlock lineLength originalText)
  = Reflow.formatBlock lineLength originalText.
Proof.
  unfold Reflow.formatBlock at 1 3.
  f_equal. unfold Reflow.formatBlock. apply cleanText_fold, cleanText_clean.
Qed.

(** X3.  For a limit of one at least, as the limits 26 and 48 of the two
    selectors are: a text with something left after cleaning is folded into
    lines none of which is empty or wider than the limit and a half, and
    all of which but the last have reached the limit; the folded text
    neither starts nor ends with a line feed.  Widths are in halves: an
    ASCII unit is one half, any other unit two. *)
Theorem formatBlock_line_widths (lineLength : Z) (originalText : list Z) :
  1 <= lineLength ->
  Reflow.cleanText originalText <> [] ->
  let lines := Reflow.splitLines (Reflow.formatBlock lineLength originalText) in
  Forall (fun l => 0 < Reflow.width l <= 2 * lineLength + 1) lines
  /\ Forall (fun l => 2 * lineLength <= Reflow.width l) (removelast lines).
Proof.
  intros HL Hne lines.
  destruct (fold_lines lineLength (Reflow.cleanText originalText) HL
              (cleanText_clean originalText) 0 ltac:(lia) Hne)
    as (l & ls & Hsplit & Hpos & Hle & Hge & Hall & Hbut).
  subst lines. unfold Reflow.formatBlock. rewrite Hsplit. split.
  - constructor; [lia | exact Hall].
  - destruct ls as [|l' ls']; [constructor|].
    change (removelast (l :: l' :: ls')) with (l :: removelast (l' :: ls')).
    constructor; [|exact Hbut]. specialize (Hge ltac:(done)). lia.
Qed.

Lemma formatBlock_line_widths_witness :
  Reflow.splitLines (Reflow.formatBlock 1 [12354; 32; 97; 98; 10; 99])
  = [[12354]; [97; 98]; [99]]
  /\ Forall (fun l => 2 * 1 <= Reflow.width l)
       (removelast (Reflow.splitLines (Reflow.formatBlock 1 [12354; 32; 97; 98; 10; 99]))).
Proof.
  split; [reflexivity|].
  refine (proj2 (formatBlock_line_widths 1 [12354; 32; 97; 98; 10; 99] _ _));
    [lia | vm_compute; discriminate].
Defined.

(** ** viewer.js: the pairing phase *)

Section ViewerPairing.
Context `{Host}.

(** The loop over the stylesheets adds the basenames it meets to the cache
    and to the list, and nothing else. *)
Lemma fold_registerXsl_dom (items : list Item) :
  forall (cache : gmap string XslData) (names : list string),
    exists new,
      (fold_left Viewer.registerXsl items (cache, names)).2 = names ++ new
      /\ forall b,
           is_Some ((fold_left Viewer.registerXsl items (cache, names)).1 !! b)
           <-> is_Some (cache !! b) \/ b ∈ new.
Proof.
  induction items as [|item items IH]; intros cache names.
  - exists []. cbn. rewrite app_nil_r. split; [reflexivity|].
    intros b. rewrite elem_of_nil. tauto.
  - cbn [fold_left].
    set (b0 := JS.stripSuffix ".xsl" (name (item_file item))).
    set (d0 := mkXslData (item_file item) (titleOf (content (item_file item)))).
    change (Viewer.registerXsl (cache, names) item)
      with (<[b0 := d0]> cache, names ++ [b0]).
    destruct (IH (<[b0 := d0]> cache) (names ++ [b0])) as (new & Hnames & Hdom).
    exists (b0 :: new). rewrite Hnames, <- app_assoc. split; [reflexivity|].
    intros b. rewrite Hdom, lookup_insert_is_Some', elem_of_cons.
    split; intros [[]|Hb]; auto.
    destruct Hb as [Hb|Hb]; auto.
Qed.

(** The drain of cached basenames does not throw. *)
Lemma drainAll_cached (names : list string) :
  forall st,
    (forall b, b ∈ names -> is_Some (Viewer.xslCache st !! b)) ->
    (Viewer.drainAll st names).2 = Normal ().
Proof.
  induction names as [|b names IH]; intros st Hcached; [reflexivity|].
  cbn [Viewer.drainAll].
  pose proof (drain_frame st b) as [_ Hcache].
  destruct (Hcached b ltac:(left)) as [x Hx].
  destruct (Viewer.drain st b) as [st' [[]| |]] eqn:Hdrain; cbn [fst] in Hcache.
  - apply IH. intros b' Hb'. rewrite Hcache. apply Hcached. right. exact Hb'.
  - exfalso. unfold Viewer.drain in Hdrain. rewrite Hx in Hdrain.
    destruct (Viewer.xmlPool st !! b) as [[|p ps]|]; discriminate.
  - exfalso. unfold Viewer.drain in Hdrain. rewrite Hx in Hdrain.
    destruct (Viewer.xmlPool st !! b) as [[|p ps]|]; discriminate.
Qed.


(** A batch all of whose files have been seen changes nothing. *)
Lemma addFilesToStorage_all_seen (files : list File) (st : Viewer.State) :
  (forall file, file ∈ files -> fileKey file ∈ Viewer.processedFileKeys st) ->
  Viewer.addFilesToStorage files st = (st, Normal ()).
Proof.
  intros Hseen. unfold Viewer.addFilesToStorage.
  rewrite (ingest_all_seen Viewer.isZip files 0 _ [] Hseen).
  destruct st; reflexivity.
Qed.


End ViewerPairing.
(** ** viewer.js: no XML file waits beside its stylesheet *)

Section ViewerSettled.
Context `{Host}.











End ViewerSettled.

(** ** viewer.js: titles and organisation names *)

Section ViewerDerived.
Context `{Host}.

Lemma storePair_derived (st : Viewer.State) (b : string) (xmlFile : File)
    (xslData : XslData) (jigyousho : string) (source : SourceInfo) :
  Viewer.derived st ->
  xsl_title xslData = titleOf (content (xsl_file xslData)) ->
  jigyousho = jigyoushoNameOf (content xmlFile) ->
  Viewer.derived (Viewer.storePair st b xmlFile xslData jigyousho source).
Proof.
  intros (Hpairs & Hcache & Hpool) Htitle Hname.
  split; [|split; assumption].
  intros k p Hin. cbn in Hin. apply mapSet_elem in Hin as [Heq|Hin].
  - injection Heq as -> ->. cbn. split; assumption.
  - exact (Hpairs k p Hin).
Qed.

Lemma placeXml_derived (st : Viewer.State) (item : Item) :
  Viewer.derived st -> Viewer.derived (Viewer.placeXml st item).
Proof.
  intros Hst. unfold Viewer.placeXml.
  destruct (Viewer.xslCache st !! _) as [xslData|] eqn:Hlook.
  - apply storePair_derived; [exact Hst| |reflexivity].
    destruct Hst as (_ & Hcache & _). exact (Hcache _ _ Hlook).
  - destruct Hst as (Hpairs & Hcache & Hpool).
    split; [exact Hpairs|]. split; [exact Hcache|].
    intros b l p Hl Hp. cbn in Hl.
    destruct (decide (JS.stripSuffix ".xml" (name (item_file item)) = b)) as [Heq|Hne].
    + rewrite Heq in *. rewrite lookup_insert_eq in Hl. injection Hl as <-.
      apply elem_of_app in Hp as [Hp|Hp].
      * destruct (Viewer.xmlPool st !! b) as [l0|] eqn:Hl0; [|inversion Hp].
        exact (Hpool b l0 p Hl0 Hp).
      * apply list_elem_of_singleton in Hp. subst p. reflexivity.
    + rewrite lookup_insert_ne in Hl by exact Hne. exact (Hpool b l p Hl Hp).
Qed.

Lemma fold_placeXml_derived (items : list Item) :
  forall st, Viewer.derived st -> Viewer.derived (fold_left Viewer.placeXml items st).
Proof.
  induction items as [|item items IH]; intros st Hst; [exact Hst|].
  cbn [fold_left]. apply IH, placeXml_derived, Hst.
Qed.

Lemma fold_registerXsl_derived (items : list Item) :
  forall (cache : gmap string XslData) (names : list string),
    (forall b x, cache !! b = Some x -> xsl_title x = titleOf (content (xsl_file x))) ->
    forall b x, (fold_left Viewer.registerXsl items (cache, names)).1 !! b = Some x ->
                xsl_title x = titleOf (content (xsl_file x)).
Proof.
  induction items as [|item items IH]; intros cache names Hcache; [exact Hcache|].
  cbn [fold_left].
  set (b0 := JS.stripSuffix ".xsl" (name (item_file item))).
  set (d0 := mkXslData (item_file item) (titleOf (content (item_file item)))).
  change (Viewer.registerXsl (cache, names) item) with (<[b0 := d0]> cache, names ++ [b0]).
  apply IH. intros b x Hlook.
  destruct (decide (b0 = b)) as [Heq|Hne].
  - rewrite Heq in Hlook. rewrite lookup_insert_eq in Hlook. injection Hlook as <-. reflexivity.
  - rewrite lookup_insert_ne in Hlook by exact Hne. exact (Hcache b x Hlook).
Qed.

Lemma fold_storePair_derived (b : string) (xslData : XslData) (pooled : list Pooled) :
  forall st,
    Viewer.derived st ->
    xsl_title xslData = titleOf (content (xsl_file xslData)) ->
    (forall p, p ∈ pooled ->
       pooled_jigyoushoName p = jigyoushoNameOf (content (pooled_file p))) ->
    Viewer.derived
      (fold_left
         (fun st p =>
            Viewer.storePair st b (pooled_file p) xslData
              (pooled_jigyoushoName p) (pooled_source p))
         pooled st).
Proof.
  induction pooled as [|p pooled IH]; intros st Hst Htitle Hall; [exact Hst|].
  cbn [fold_left]. apply IH; [|exact Htitle|].
  - apply storePair_derived; [exact Hst|exact Htitle|]. apply Hall. left.
  - intros p' Hin. apply Hall. right. exact Hin.
Qed.

Lemma drain_derived (st : Viewer.State) (b : string) :
  Viewer.derived st -> Viewer.derived (Viewer.drain st b).1.
Proof.
  intros Hst. unfold Viewer.drain.
  destruct (Viewer.xmlPool st !! b) as [[|p pooled]|] eqn:Hpooled; [exact Hst| |exact Hst].
  destruct (Viewer.xslCache st !! b) as [xslData|] eqn:Hcached; [|exact Hst].
  cbn [fst].
  pose proof Hst as (_ & Hcache0 & Hpool0).
  pose proof (fold_storePair_derived b xslData (p :: pooled) st Hst
                (Hcache0 _ _ Hcached)
                (fun p' Hin => Hpool0 b _ p' Hpooled Hin)) as (Hpairs & Hcache & Hpool).
  split; [exact Hpairs|]. split; [exact Hcache|].
  intros b' l p' Hl Hp. cbn in Hl.
  apply lookup_delete_Some in Hl as [_ Hl]. exact (Hpool b' l p' Hl Hp).
Qed.

Lemma drainAll_derived (basenames : list string) :
  forall st, Viewer.derived st -> Viewer.derived (Viewer.drainAll st basenames).1.
Proof.
  induction basenames as [|b basenames IH]; intros st Hst; [exact Hst|].
  cbn [Viewer.drainAll].
  pose proof (drain_derived st b Hst) as Hdrained.
  destruct (Viewer.drain st b) as [st' [[]| |]]; cbn [fst] in *; [|exact Hdrained..].
  apply IH. exact Hdrained.
Qed.

Lemma addFilesToStorage_derived (files : list File) (st : Viewer.State) :
  Viewer.derived st -> Viewer.derived (Viewer.addFilesToStorage files st).1.
Proof.
  intros Hst. unfold Viewer.addFilesToStorage.
  destruct (ingest Viewer.isZip 0 files (Viewer.processedFileKeys st) [])
    as [keys [items| |]]; [|exact Hst..].
  unfold Viewer.pairUp.
  destruct Hst as (Hpairs & Hcache & Hpool).
  pose proof (fold_registerXsl_derived (List.filter Viewer.isXsl items)
                (Viewer.xslCache st) [] Hcache) as Htitles.
  destruct (fold_left Viewer.registerXsl _ _) as [cache basenames].
  apply drainAll_derived, fold_placeXml_derived.
  split; [exact Hpairs|]. split; [exact Htitles|exact Hpool].
Qed.

Lemma cleared_derived (counter : Z) (keys : gset string) :
  Viewer.derived (Viewer.mkState [] counter ∅ ∅ keys).
Proof.
  split; [|split].
  - intros k p Hin. inversion Hin.
  - intros b x Hlook. cbn in Hlook. rewrite lookup_empty in Hlook. discriminate.
  - intros b l p Hlook. cbn in Hlook. rewrite lookup_empty in Hlook. discriminate.
Qed.

Lemma step_derived (st : Viewer.State) (ev : Viewer.Event) :
  Viewer.derived st -> Viewer.derived (Viewer.step st ev).
Proof.
  intros Hst. destruct ev as [files|c|c| |c k]; cbn [Viewer.step].
  - apply addFilesToStorage_derived. exact Hst.
  - destruct c; [apply cleared_derived|exact Hst].
  - destruct c; [apply cleared_derived|exact Hst].
  - apply cleared_derived.
  - destruct c; [|exact Hst].
    destruct Hst as (Hpairs & Hcache & Hpool).
    split; [|split; assumption].
    intros k' p Hin. cbn in Hin. unfold mapDelete in Hin.
    apply list_elem_of_filter in Hin as [_ Hin]. exact (Hpairs k' p Hin).
Qed.

Lemma run_derived (evs : list Viewer.Event) :
  forall st, Viewer.derived st -> Viewer.derived (Viewer.run evs st).
Proof.
  induction evs as [|ev evs IH]; intros st Hst; [exact Hst|].
  unfold Viewer.run. cbn [fold_left]. apply IH, step_derived, Hst.
Qed.

End ViewerDerived.

(** ** viewer.js: a batch only appends *)

Section ViewerAppended.
Context `{Host}.

Lemma appended_refl (st st' : Viewer.State) :
  Viewer.fileStorage st' = Viewer.fileStorage st ->
  Viewer.fileIdCounter st' = Viewer.fileIdCounter st ->
  Viewer.appended st st'.
Proof.
  intros Hpairs Hcounter. exists []. cbn. rewrite app_nil_r. split; [exact Hpairs|lia].
Qed.

Lemma appended_trans (st1 st2 st3 : Viewer.State) :
  Viewer.appended st1 st2 -> Viewer.appended st2 st3 -> Viewer.appended st1 st3.
Proof.
  intros (ps & Hpairs & Hcounter) (ps' & Hpairs' & Hcounter').
  exists (ps ++ ps'). rewrite Hpairs', Hpairs, Hcounter', Hcounter.
  rewrite <- app_assoc, imap_app, length_app. split; [|lia].
  do 2 f_equal. apply imap_ext. intros i p _. cbn. do 2 f_equal. lia.
Qed.

Lemma storePair_appended (st : Viewer.State) (b : string) (xmlFile : File)
    (xslData : XslData) (jigyousho : string) (source : SourceInfo) :
  Viewer.consistent st ->
  Viewer.appended st (Viewer.storePair st b xmlFile xslData jigyousho source).
Proof.
  intros Hst.
  exists [mkPairData b xmlFile (xsl_file xslData) (xsl_title xslData) jigyousho source].
  rewrite storePair_appends by exact Hst. cbn. rewrite Z.add_0_r. split; reflexivity.
Qed.

Lemma placeXml_appended (st : Viewer.State) (item : Item) :
  Viewer.consistent st -> Viewer.appended st (Viewer.placeXml st item).
Proof.
  intros Hst. unfold Viewer.placeXml.
  destruct (Viewer.xslCache st !! _) as [xslData|].
  - apply storePair_appended. exact Hst.
  - apply appended_refl; reflexivity.
Qed.

Lemma fold_placeXml_appended (items : list Item) :
  forall st,
    Viewer.consistent st ->
    Forall (fun item => Viewer.isXml item = true) items ->
    Viewer.appended st (fold_left Viewer.placeXml items st).
Proof.
  induction items as [|item items IH]; intros st Hst Hall;
    [apply appended_refl; reflexivity|].
  apply Forall_cons in Hall as [Hitem Hall]. cbn [fold_left].
  eapply appended_trans; [apply placeXml_appended, Hst|].
  apply IH; [|exact Hall]. apply placeXml_consistent; assumption.
Qed.

Lemma fold_storePair_appended (b : string) (xslData : XslData) (pooled : list Pooled) :
  forall st,
    Viewer.consistent st ->
    Viewer.xslCache st !! b = Some xslData ->
    (forall p, p ∈ pooled -> name (pooled_file p) = b +:+ ".xml") ->
    Viewer.appended st
      (fold_left
         (fun st p =>
            Viewer.storePair st b (pooled_file p) xslData
              (pooled_jigyoushoName p) (pooled_source p))
         pooled st).
Proof.
  induction pooled as [|p pooled IH]; intros st Hst Hxsl Hall;
    [apply appended_refl; reflexivity|].
  cbn [fold_left].
  eapply appended_trans; [apply storePair_appended, Hst|].
  apply IH.
  - apply storePair_consistent; [exact Hst| |exact Hxsl]. apply Hall. left.
  - exact Hxsl.
  - intros p' Hin. apply Hall. right. exact Hin.
Qed.

Lemma drain_appended (st : Viewer.State) (b : string) :
  Viewer.consistent st -> Viewer.appended st (Viewer.drain st b).1.
Proof.
  intros Hst. unfold Viewer.drain.
  destruct (Viewer.xmlPool st !! b) as [[|p pooled]|] eqn:Hpooled;
    [apply appended_refl; reflexivity| |apply appended_refl; reflexivity].
  destruct (Viewer.xslCache st !! b) as [xslData|] eqn:Hcached;
    [|apply appended_refl; reflexivity].
  cbn [fst]. pose proof Hst as (_ & _ & Hpool0).
  eapply appended_trans.
  - apply (fold_storePair_appended b xslData (p :: pooled) st Hst Hcached).
    intros p' Hin. exact (Hpool0 b _ p' Hpooled Hin).
  - apply appended_refl; reflexivity.
Qed.

Lemma drainAll_appended (basenames : list string) :
  forall st, Viewer.consistent st -> Viewer.appended st (Viewer.drainAll st basenames).1.
Proof.
  induction basenames as [|b basenames IH]; intros st Hst;
    [apply appended_refl; reflexivity|].
  cbn [Viewer.drainAll].
  pose proof (drain_appended st b Hst) as Hdrained.
  pose proof (drain_consistent st b Hst) as Hcons.
  destruct (Viewer.drain st b) as [st' [[]| |]]; cbn [fst] in *; [|exact Hdrained..].
  eapply appended_trans; [exact Hdrained|]. apply IH. exact Hcons.
Qed.

Lemma addFilesToStorage_appended (files : list File) (st : Viewer.State) :
  Viewer.consistent st -> Viewer.appended st (Viewer.addFilesToStorage files st).1.
Proof.
  intros Hst. unfold Viewer.addFilesToStorage.
  destruct (ingest Viewer.isZip 0 files (Viewer.processedFileKeys st) [])
    as [keys [items| |]]; [|apply appended_refl; reflexivity..].
  unfold Viewer.pairUp.
  destruct Hst as (Hpairs & Hcache & Hpool).
  destruct (fold_registerXsl_consistent (List.filter Viewer.isXsl items)
              (Viewer.xslCache st) [] Hcache (filter_Forall_true _ _)) as [Hnames Hkept].
  destruct (fold_left Viewer.registerXsl _ _) as [cache basenames].
  cbn [fst] in Hnames, Hkept.
  assert (Hst1 : Viewer.consistent
                   (Viewer.mkState (Viewer.fileStorage st) (Viewer.fileIdCounter st) cache
                      (Viewer.xmlPool st) keys)).
  { split; [|split; [exact Hnames|exact Hpool]].
    intros k p Hin. destruct (Hpairs k p Hin) as (Hsame & Hsome & Hkey).
    repeat split; try apply Hsame; [|exact Hkey]. apply Hkept. exact Hsome. }
  set (st1 := Viewer.mkState (Viewer.fileStorage st) (Viewer.fileIdCounter st) cache
                (Viewer.xmlPool st) keys) in *.
  apply (appended_trans st st1); [apply appended_refl; reflexivity|].
  apply (appended_trans st1 (fold_left Viewer.placeXml (List.filter Viewer.isXml items) st1)).
  - apply fold_placeXml_appended; [exact Hst1|apply filter_Forall_true].
  - apply drainAll_appended, fold_placeXml_consistent; [exact Hst1|apply filter_Forall_true].
Qed.

End ViewerAppended.
(** ** viewer.js: what a batch does and does not do *)

(** X4.  The drain [newXslBasenames.forEach] of [addFilesToStorage] never
    reads [xslData.file] from a missing cache entry.  The drain runs over
    the basenames that the loop over the stylesheets of the batch has noted,
    from the state that the loop over the XML files has left.  Whenever it
    comes to a basename, the turns before it have returned, the cache holds
    a stylesheet of that basename, and the turn returns; so the drain as a
    whole returns.  This is about the drain alone: the repaint that follows
    it and the reading of file texts are outside it. *)
Theorem drain_finds_every_stylesheet `{Host} (processedFiles : list Item)
    (keys : gset string) (st : Viewer.State) :
  Viewer.pairUp processedFiles keys st
  = Viewer.drainAll (Viewer.placed processedFiles keys st)
      (Viewer.registered processedFiles st).2
  /\ (forall done basename rest,
        (Viewer.registered processedFiles st).2 = done ++ basename :: rest ->
        (Viewer.drainAll (Viewer.placed processedFiles keys st) done).2 = Normal ()
        /\ is_Some
             (Viewer.xslCache
                (Viewer.drainAll (Viewer.placed processedFiles keys st) done).1
              !! basename)
        /\ (Viewer.drain
              (Viewer.drainAll (Viewer.placed processedFiles keys st) done).1
              basename).2 = Normal ())
  /\ (Viewer.drainAll (Viewer.placed processedFiles keys st)
        (Viewer.registered processedFiles st).2).2 = Normal ().
Proof.
  assert (Hcached : forall b, b ∈ (Viewer.registered processedFiles st).2 ->
            is_Some (Viewer.xslCache (Viewer.placed processedFiles keys st) !! b)).
  { intros b Hb. unfold Viewer.placed.
    rewrite (proj2 (fold_placeXml_frame _ _)). cbn [Viewer.xslCache].
    unfold Viewer.registered in Hb |- *.
    destruct (fold_registerXsl_dom (List.filter Viewer.isXsl processedFiles)
                (Viewer.xslCache st) []) as (new & Hnames & Hdom).
    apply Hdom. right. rewrite Hnames in Hb. exact Hb. }
  split.
  { unfold Viewer.pairUp, Viewer.placed, Viewer.registered.
    destruct (fold_left Viewer.registerXsl _ _) as [cache names]. reflexivity. }
  split; [|apply drainAll_cached; exact Hcached].
  intros done basename rest Hsplit.
  assert (Hdone : (Viewer.drainAll (Viewer.placed processedFiles keys st) done).2
                  = Normal ()).
  { apply drainAll_cached. intros b Hb. apply Hcached. rewrite Hsplit.
    apply elem_of_app. left. exact Hb. }
  assert (Hthere : is_Some
            (Viewer.xslCache
               (Viewer.drainAll (Viewer.placed processedFiles keys st) done).1
             !! basename)).
  { rewrite (proj2 (drainAll_frame done _)). apply Hcached. rewrite Hsplit.
    apply elem_of_app. right. left. }
  split; [exact Hdone|]. split; [exact Hthere|].
  destruct Hthere as [xslData Hthere].
  unfold Viewer.drain. rewrite Hthere.
  destruct (Viewer.xmlPool _ !! basename) as [[|p pooled]|]; reflexivity.
Qed.





(** X7.  Whatever is dropped, cleared or deleted, in whatever order, the
    title kept with a stored pair is the title of the pair's own stylesheet
    file, and its organisation name that of its own XML file. *)
Theorem pair_metadata_from_its_files `{Host} (evs : list Viewer.Event) (k : string)
    (p : PairData) :
  (k, p) ∈ Viewer.fileStorage (Viewer.run evs Viewer.initial) ->
  title p = titleOf (content (xsl p))
  /\ jigyoushoName p = jigyoushoNameOf (content (xml p)).
Proof.
  intros Hin.
  destruct (run_derived evs Viewer.initial (cleared_derived _ _)) as (Hpairs & _ & _).
  exact (Hpairs k p Hin).
Qed.

Lemma pair_metadata_from_its_files_witness :
  title
    (mkPairData "A" (Fixture.plain "A.xml" 10 "<doc/>") (Fixture.plain "A.xsl" 11 "v1")
       "v1" "" (mkSourceInfo 0 direct "A.xml" None))
  = titleOf (Host := Fixture.host) (content (Fixture.plain "A.xsl" 11 "v1"))
  /\ jigyoushoName
       (mkPairData "A" (Fixture.plain "A.xml" 10 "<doc/>") (Fixture.plain "A.xsl" 11 "v1")
          "v1" "" (mkSourceInfo 0 direct "A.xml" None))
     = jigyoushoNameOf (Host := Fixture.host) (content (Fixture.plain "A.xml" 10 "<doc/>")).
Proof.
  apply (pair_metadata_from_its_files (H := Fixture.host)
           [Viewer.Drop [Fixture.plain "A.xml" 10 "<doc/>"];
            Viewer.Drop [Fixture.plain "A.xsl" 11 "v1"];
            Viewer.Drop [Fixture.plain "A.xsl" 12 "v2"]]
           "A_1_1700000000000").
  vm_compute. left.
Defined.

(** X8.  In any state the page can reach, a batch removes and reorders no
    stored pair: the pairs it makes go to the end of [fileStorage], in the
    order they were made, under keys made from their basenames and the
    counter values from the current one onwards, and the counter moves by
    their number. *)
Theorem drop_appends_numbered_pairs `{Host} (evs : list Viewer.Event)
    (files : list File) :
  Viewer.appended (Viewer.run evs Viewer.initial)
    (Viewer.addFilesToStorage files (Viewer.run evs Viewer.initial)).1.
Proof.
  apply addFilesToStorage_appended, run_consistent, initial_consistent.
Qed.

Section ViewerOrder.
Context `{Host}.

(** A batch of one XML file with a new key whose stylesheet is cached. *)
Lemma drop_xml_cached (b : string) (x : File) (xslData : XslData)
    (pairs : list (string * PairData)) (counter : Z)
    (cache : gmap string XslData) (pool : gmap string (list Pooled)) (keys : gset string) :
  name x = b +:+ ".xml" -> isZipType x = false ->
  fileKey x ∉ keys -> cache !! b = Some xslData ->
  Viewer.addFilesToStorage [x] (Viewer.mkState pairs counter cache pool keys)
  = (Viewer.mkState
       (mapSet (uniqueKeyOf b counter)
          (mkPairData b x (xsl_file xslData) (xsl_title xslData)
             (jigyoushoNameOf (content x)) (item_source (plainItem 0 x)))
          pairs)
       (counter + 1) cache pool ({[fileKey x]} ∪ keys),
     Normal ()).
Proof.
  intros Hname Htype Hnew Hcache.
  destruct (xml_name_facts b 0 x Hname Htype) as (Hzip & Hxml & Hxsl & Hstrip).
  unfold Viewer.addFilesToStorage. cbn [Viewer.processedFileKeys].
  rewrite ingest_plain_one by assumption.
  unfold Viewer.pairUp. cbn [app List.filter]. rewrite Hxml, Hxsl.
  cbn [fold_left Viewer.drainAll Viewer.fileStorage Viewer.fileIdCounter
       Viewer.xslCache Viewer.xmlPool].
  unfold Viewer.placeXml. cbn [plainItem item_file item_source Viewer.xslCache].
  rewrite Hstrip, Hcache. reflexivity.
Qed.

(** A batch of an XML file and its stylesheet, in either order: the pair is
    made in the loop over the XML files. *)
Lemma drop_xml_and_xsl (b : string) (x s : File) (first : bool)
    (pairs : list (string * PairData)) (counter : Z)
    (cache : gmap string XslData) (pool : gmap string (list Pooled)) (keys : gset string) :
  name x = b +:+ ".xml" -> name s = b +:+ ".xsl" ->
  isZipType x = false -> isZipType s = false ->
  fileKey x ∉ keys -> fileKey s ∉ keys -> fileKey x <> fileKey s ->
  pool !! b = None ->
  Viewer.addFilesToStorage (if first then [x; s] else [s; x])
    (Viewer.mkState pairs counter cache pool keys)
  = (Viewer.mkState
       (mapSet (uniqueKeyOf b counter)
          (Viewer.pairOf b (if first then 0 else 1) x s) pairs)
       (counter + 1) (<[b := mkXslData s (titleOf (content s))]> cache) pool
       (if first then {[fileKey s]} ∪ ({[fileKey x]} ∪ keys)
        else {[fileKey x]} ∪ ({[fileKey s]} ∪ keys)),
     Normal ()).
Proof.
  intros Hx Hs Htx Hts Hnx Hns Hne Hpool.
  destruct first.
  - destruct (xml_name_facts b 0 x Hx Htx) as (Hzipx & Hxmlx & Hxslx & Hstripx).
    destruct (xsl_name_facts b 1 s Hs Hts) as (Hzips & Hxmls & Hxsls & Hstrips).
    unfold Viewer.addFilesToStorage. cbn [Viewer.processedFileKeys].
    rewrite ingest_plain_two by assumption.
    unfold Viewer.pairUp. cbn [app List.filter]. rewrite Hxmlx, Hxslx, Hxmls, Hxsls.
    cbn [fold_left Viewer.registerXsl plainItem item_file fst snd app
         Viewer.fileStorage Viewer.fileIdCounter Viewer.xslCache Viewer.xmlPool].
    rewrite Hstrips. unfold Viewer.placeXml.
    cbn [plainItem item_file item_source Viewer.xslCache]. rewrite Hstripx, lookup_insert_eq.
    unfold Viewer.storePair. cbn [Viewer.fileStorage Viewer.fileIdCounter Viewer.xslCache
                                   Viewer.xmlPool Viewer.processedFileKeys xsl_file xsl_title].
    rewrite drainAll_one_none by exact Hpool. reflexivity.
  - destruct (xml_name_facts b 1 x Hx Htx) as (Hzipx & Hxmlx & Hxslx & Hstripx).
    destruct (xsl_name_facts b 0 s Hs Hts) as (Hzips & Hxmls & Hxsls & Hstrips).
    unfold Viewer.addFilesToStorage. cbn [Viewer.processedFileKeys].
    rewrite ingest_plain_two by (assumption || congruence).
    unfold Viewer.pairUp. cbn [app List.filter]. rewrite Hxmlx, Hxslx, Hxmls, Hxsls.
    cbn [fold_left Viewer.registerXsl plainItem item_file fst snd app
         Viewer.fileStorage Viewer.fileIdCounter Viewer.xslCache Viewer.xmlPool].
    rewrite Hstrips. unfold Viewer.placeXml.
    cbn [plainItem item_file item_source Viewer.xslCache]. rewrite Hstripx, lookup_insert_eq.
    unfold Viewer.storePair. cbn [Viewer.fileStorage Viewer.fileIdCounter Viewer.xslCache
                                   Viewer.xmlPool Viewer.processedFileKeys xsl_file xsl_title].
    rewrite drainAll_one_none by exact Hpool. reflexivity.
Qed.

Lemma step_keeps_keys (st : Viewer.State) (ev : Viewer.Event) :
  Viewer.keepsKeys ev = true ->
  Viewer.processedFileKeys st ⊆ Viewer.processedFileKeys (Viewer.step st ev).
Proof.
  intros Hev. destruct ev as [files|c|c| |c k]; cbn [Viewer.step].
  - rewrite addFilesToStorage_keys. apply ingest_keys_grow.
  - destruct c; reflexivity.
  - destruct c; [discriminate|reflexivity].
  - discriminate.
  - destruct c; reflexivity.
Qed.

Lemma run_keeps_keys (evs : list Viewer.Event) :
  forall st,
    forallb Viewer.keepsKeys evs = true ->
    Viewer.processedFileKeys st ⊆ Viewer.processedFileKeys (Viewer.run evs st).
Proof.
  induction evs as [|ev evs IH]; intros st Hevs; [reflexivity|].
  cbn [forallb] in Hevs. apply andb_true_iff in Hevs as [Hev Hevs].
  unfold Viewer.run. cbn [fold_left].
  etransitivity; [apply step_keeps_keys, Hev|]. apply IH, Hevs.
Qed.

End ViewerOrder.

(** X9.  In a state where neither a stylesheet of basename [b] is cached nor
    an XML file of that basename waits, it makes no difference to the whole
    state whether a new XML file [b.xml] is dropped before its stylesheet
    [b.xsl], after it, or in one batch in front of it: one pair is stored
    under the key made from [b] and the current counter value.  Dropped in
    one batch behind the stylesheet, the pair differs only in the source
    index it records. *)
Theorem arrival_order_irrelevant `{Host} (st : Viewer.State) (b : string) (x s : File) :
  Viewer.xslCache st !! b = None -> Viewer.xmlPool st !! b = None ->
  name x = b +:+ ".xml" -> name s = b +:+ ".xsl" ->
  isZipType x = false -> isZipType s = false ->
  fileKey x ∉ Viewer.processedFileKeys st ->
  fileKey s ∉ Viewer.processedFileKeys st ->
  fileKey x <> fileKey s ->
  Viewer.run [Viewer.Drop [x]; Viewer.Drop [s]] st
  = Viewer.run [Viewer.Drop [s]; Viewer.Drop [x]] st
  /\ Viewer.run [Viewer.Drop [x; s]] st
     = Viewer.run [Viewer.Drop [x]; Viewer.Drop [s]] st
  /\ Viewer.fileStorage (Viewer.run [Viewer.Drop [x; s]] st)
     = mapSet (uniqueKeyOf b (Viewer.fileIdCounter st)) (Viewer.pairOf b 0 x s)
         (Viewer.fileStorage st)
  /\ Viewer.fileStorage (Viewer.run [Viewer.Drop [s; x]] st)
     = mapSet (uniqueKeyOf b (Viewer.fileIdCounter st)) (Viewer.pairOf b 1 x s)
         (Viewer.fileStorage st).
Proof.
  destruct st as [pairs counter cache pool keys].
  cbn [Viewer.xslCache Viewer.xmlPool Viewer.processedFileKeys Viewer.fileStorage
       Viewer.fileIdCounter].
  intros Hcache Hpool Hx Hs Htx Hts Hnx Hns Hne.
  assert (Hxs : Viewer.run [Viewer.Drop [x]; Viewer.Drop [s]]
                  (Viewer.mkState pairs counter cache pool keys)
                = Viewer.mkState
                    (mapSet (uniqueKeyOf b counter) (Viewer.pairOf b 0 x s) pairs)
                    (counter + 1) (<[b := mkXslData s (titleOf (content s))]> cache) pool
                    ({[fileKey s]} ∪ ({[fileKey x]} ∪ keys))).
  { unfold Viewer.run. cbn [fold_left Viewer.step].
    rewrite (drop_xml_pending b x) by assumption. cbn [fst].
    rewrite (drop_xsl b s) by first [assumption | solve [solve_set]].
    rewrite Hpool. cbn [default app].
    rewrite (drainAll_one_some b (mkXslData s (titleOf (content s)))
               (Viewer.pooledOf 0 x) [])
      by apply lookup_insert_eq.
    cbn [fst fold_left Viewer.storePair Viewer.fileStorage Viewer.fileIdCounter
         Viewer.pooledOf pooled_file pooled_jigyoushoName pooled_source xsl_file xsl_title].
    rewrite delete_insert_id by exact Hpool. reflexivity. }
  assert (Hsx : Viewer.run [Viewer.Drop [s]; Viewer.Drop [x]]
                  (Viewer.mkState pairs counter cache pool keys)
                = Viewer.mkState
                    (mapSet (uniqueKeyOf b counter) (Viewer.pairOf b 0 x s) pairs)
                    (counter + 1) (<[b := mkXslData s (titleOf (content s))]> cache) pool
                    ({[fileKey x]} ∪ ({[fileKey s]} ∪ keys))).
  { unfold Viewer.run. cbn [fold_left Viewer.step].
    rewrite (drop_xsl b s) by assumption.
    rewrite drainAll_one_none by exact Hpool. cbn [fst].
    rewrite (drop_xml_cached b x (mkXslData s (titleOf (content s))))
      by first [assumption | apply lookup_insert_eq | solve [solve_set]].
    reflexivity. }
  assert (Hkeys : {[fileKey s]} ∪ ({[fileKey x]} ∪ keys)
                  = {[fileKey x]} ∪ ({[fileKey s]} ∪ keys)).
  { apply set_eq. solve_set. }
  split; [rewrite Hxs, Hsx, Hkeys; reflexivity|].
  split; [rewrite Hxs|split].
  - unfold Viewer.run. cbn [fold_left Viewer.step].
    rewrite (drop_xml_and_xsl b x s true) by assumption. reflexivity.
  - unfold Viewer.run. cbn [fold_left Viewer.step].
    rewrite (drop_xml_and_xsl b x s true) by assumption. reflexivity.
  - unfold Viewer.run. cbn [fold_left Viewer.step].
    rewrite (drop_xml_and_xsl b x s false) by assumption. reflexivity.
Qed.

Lemma arrival_order_irrelevant_witness :
  Viewer.run (H := Fixture.host)
    [Viewer.Drop [Fixture.plain "A.xml" 10 "<doc/>"];
     Viewer.Drop [Fixture.plain "A.xsl" 11 "v1"]] Viewer.initial
  = Viewer.run (H := Fixture.host)
      [Viewer.Drop [Fixture.plain "A.xsl" 11 "v1"];
       Viewer.Drop [Fixture.plain "A.xml" 10 "<doc/>"]] Viewer.initial.
Proof.
  refine (proj1 (arrival_order_irrelevant (H := Fixture.host) Viewer.initial "A"
                  (Fixture.plain "A.xml" 10 "<doc/>") (Fixture.plain "A.xsl" 11 "v1")
                  _ _ _ _ _ _ _ _ _));
    first [ reflexivity
          | vm_compute; reflexivity
          | vm_compute; discriminate
          | apply bool_decide_eq_false_1; vm_compute; reflexivity ].
Defined.

(** X10.  A batch that returned is not ingested a second time: after it,
    and after any further drops, deletions and clears on the pair view,
    dropping the same files again changes nothing.  Only the clear-all and
    back-to-top buttons of the list view make the files droppable again; a
    pair that was deleted does not come back by dropping its files. *)
Theorem returned_batch_not_ingested_again `{Host} (st : Viewer.State)
    (files : list File) (evs : list Viewer.Event) :
  (Viewer.addFilesToStorage files st).2 = Normal () ->
  forallb Viewer.keepsKeys evs = true ->
  Viewer.addFilesToStorage files (Viewer.run evs (Viewer.addFilesToStorage files st).1)
  = (Viewer.run evs (Viewer.addFilesToStorage files st).1, Normal ()).
Proof.
  intros Hret Hevs. apply addFilesToStorage_all_seen. intros file Hin.
  apply (run_keeps_keys evs _ Hevs). rewrite addFilesToStorage_keys.
  unfold Viewer.addFilesToStorage in Hret.
  destruct (ingest Viewer.isZip 0 files (Viewer.processedFileKeys st) [])
    as [keys [items| |]] eqn:Hingest; [|discriminate..].
  destruct (ingest_spec Viewer.isZip files 0 _ [] _ _ Hingest) as [-> _].
  cbn [fst]. apply elem_of_union. right.
  apply elem_of_list_to_set, list_elem_of_fmap. exists file. split; [reflexivity|exact Hin].
Qed.

Lemma returned_batch_not_ingested_again_witness :
  Viewer.fileStorage
    (Viewer.addFilesToStorage (H := Fixture.host)
       [Fixture.plain "A.xml" 10 "<doc/>"; Fixture.plain "A.xsl" 11 "v1"]
       (Viewer.run (H := Fixture.host)
          [Viewer.DeletePair true "A_1_1700000000000"]
          (Viewer.addFilesToStorage (H := Fixture.host)
             [Fixture.plain "A.xml" 10 "<doc/>"; Fixture.plain "A.xsl" 11 "v1"]
             Viewer.initial).1)).1
  = [].
Proof.
  rewrite (returned_batch_not_ingested_again (H := Fixture.host) Viewer.initial
             [Fixture.plain "A.xml" 10 "<doc/>"; Fixture.plain "A.xsl" 11 "v1"]
             [Viewer.DeletePair true "A_1_1700000000000"]);
    vm_compute; reflexivity.
Defined.

(** ** Deduplication keys *)

(** X11.  Two files have the same deduplication key exactly when they agree
    on three things: the relative path (the name, for a file without one),
    the size and the last-modified time.  The content is not compared. *)
Theorem fileKey_compares_three_fields (f g : File) :
  fileKey f = fileKey g <->
  (if bool_decide (webkitRelativePath f = "") then name f else webkitRelativePath f)
  = (if bool_decide (webkitRelativePath g = "") then name g else webkitRelativePath g)
  /\ fileSize f = fileSize g
  /\ lastModified f = lastModified g.
Proof.
  unfold fileKey.
  set (pf := if bool_decide (webkitRelativePath f = "") then name f
             else webkitRelativePath f).
  set (pg := if bool_decide (webkitRelativePath g = "") then name g
             else webkitRelativePath g).
  split.
  - intros Heq.
    change (pf +:+ String "_" (pretty (fileSize f) +:+ String "_" (pretty (lastModified f)))
            = pg +:+ String "_" (pretty (fileSize g) +:+ String "_" (pretty (lastModified g))))
      in Heq.
    assert (Hre : forall p a c : string,
               p +:+ String "_" (a +:+ String "_" c)
               = (p +:+ String "_" a) +:+ String "_" c).
    { intros p a c. rewrite string_app_assoc. reflexivity. }
    rewrite !Hre in Heq.
    apply split_at_last in Heq as [Heq Hm]; try apply pretty_Z_underscore.
    apply split_at_last in Heq as [Hp Hs]; try apply pretty_Z_underscore.
    split; [exact Hp|]. split; [exact (inj pretty _ _ Hs)|exact (inj pretty _ _ Hm)].
  - intros (-> & -> & ->). reflexivity.
Qed.
(** ** Reading inside a concatenation *)

Lemma byteLength_app (a b : list byte) :
  byteLength (a ++ b) = byteLength a + byteLength b.
Proof. unfold byteLength. rewrite length_app. lia. Qed.

Lemma byteLength_nonneg (a : list byte) : 0 <= byteLength a.
Proof. unfold byteLength. lia. Qed.

Lemma byteAt_app_r (pre l : list byte) (i : Z) :
  0 <= i -> byteAt (pre ++ l) (byteLength pre + i) = byteAt l i.
Proof.
  intros Hi. unfold byteAt, byteLength. do 2 f_equal.
  replace (Z.to_nat (Z.of_nat (length pre) + i)) with (length pre + Z.to_nat i)%nat by lia.
  apply app_nth2_plus.
Qed.

Lemma byteAt_app_l (l post : list byte) (i : Z) :
  0 <= i < byteLength l -> byteAt (l ++ post) i = byteAt l i.
Proof.
  intros Hi. unfold byteAt, byteLength in *. do 2 f_equal.
  apply app_nth1. lia.
Qed.

Lemma getUint16_app_r (pre l : list byte) (off : Z) :
  0 <= off -> getUint16 (pre ++ l) (byteLength pre + off) = getUint16 l off.
Proof.
  intros Hoff. unfold getUint16. rewrite byteLength_app.
  pose proof (byteLength_nonneg pre) as Hpre.
  replace (0 <=? byteLength pre + off) with true by (symmetry; apply Z.leb_le; lia).
  replace (0 <=? off) with true by (symmetry; apply Z.leb_le; lia).
  replace (byteLength pre + off + 2 <=? byteLength pre + byteLength l)
    with (off + 2 <=? byteLength l)
    by (destruct (Z.leb_spec (off + 2) (byteLength l));
        [symmetry; apply Z.leb_le; lia|symmetry; apply Z.leb_gt; lia]).
  rewrite <- Z.add_assoc, !byteAt_app_r by lia. reflexivity.
Qed.

Lemma getUint32_app_r (pre l : list byte) (off : Z) :
  0 <= off -> getUint32 (pre ++ l) (byteLength pre + off) = getUint32 l off.
Proof.
  intros Hoff. unfold getUint32. rewrite byteLength_app.
  pose proof (byteLength_nonneg pre) as Hpre.
  replace (0 <=? byteLength pre + off) with true by (symmetry; apply Z.leb_le; lia).
  replace (0 <=? off) with true by (symmetry; apply Z.leb_le; lia).
  replace (byteLength pre + off + 4 <=? byteLength pre + byteLength l)
    with (off + 4 <=? byteLength l)
    by (destruct (Z.leb_spec (off + 4) (byteLength l));
        [symmetry; apply Z.leb_le; lia|symmetry; apply Z.leb_gt; lia]).
  rewrite <- !Z.add_assoc, !byteAt_app_r by lia. reflexivity.
Qed.

Lemma getUint32_app_l (l post : list byte) (off : Z) :
  off + 4 <= byteLength l -> getUint32 (l ++ post) off = getUint32 l off.
Proof.
  intros Hoff. unfold getUint32. rewrite byteLength_app.
  pose proof (byteLength_nonneg post) as Hpost.
  destruct (Z.leb_spec 0 off) as [Hpos|Hneg]; [|reflexivity].
  replace (off + 4 <=? byteLength l + byteLength post) with true
    by (symmetry; apply Z.leb_le; lia).
  replace (off + 4 <=? byteLength l) with true by (symmetry; apply Z.leb_le; lia).
  rewrite !byteAt_app_l by lia. reflexivity.
Qed.

Lemma byteAt_u8 (n : Z) (rest : list byte) :
  byteAt (Fixture.u8 n :: rest) 0 = n mod 256.
Proof.
  unfold byteAt, Fixture.u8. change (Z.to_nat 0) with 0%nat. cbn [nth].
  pose proof (Z.mod_pos_bound n 256 ltac:(lia)) as Hmod.
  destruct (Byte.of_N (Z.to_N (n mod 256))) as [b|] eqn:Hb.
  - apply Byte.to_of_N in Hb. rewrite Hb. lia.
  - apply Byte.of_N_None_iff in Hb. lia.
Qed.

Lemma byteAt_cons (b : byte) (rest : list byte) (i : Z) :
  0 <= i -> byteAt (b :: rest) (i + 1) = byteAt rest i.
Proof.
  intros Hi. unfold byteAt. do 2 f_equal.
  replace (Z.to_nat (i + 1)) with (S (Z.to_nat i)) by lia. reflexivity.
Qed.

Lemma getUint16_le16 (n : Z) (rest : list byte) :
  0 <= n < 65536 -> getUint16 (Fixture.le16 n ++ rest) 0 = Normal n.
Proof.
  intros Hn. unfold getUint16, Fixture.le16. cbn [app].
  replace (0 + 2 <=? byteLength _) with true
    by (symmetry; apply Z.leb_le; unfold byteLength; cbn [length]; lia).
  cbn [Z.leb Z.compare andb]. f_equal.
  rewrite byteAt_u8. change (0 + 1) with (0 + 1). rewrite (byteAt_cons _ _ 0) by lia.
  rewrite byteAt_u8.
  rewrite lor_shiftl_byte by (pose proof (Z.mod_pos_bound n 256); lia).
  pose proof (Z.div_mod n 256 ltac:(lia)) as Hdiv.
  assert (Hq : 0 <= n / 256 < 256).
  { split; [apply Z.div_pos; lia|apply Z.div_lt_upper_bound; lia]. }
  rewrite (Z.mod_small (n / 256)) by exact Hq. change (2 ^ 8) with 256. lia.
Qed.

Lemma getUint32_le32 (n : Z) (rest : list byte) :
  0 <= n < 4294967296 -> getUint32 (Fixture.le32 n ++ rest) 0 = Normal n.
Proof.
  intros Hn.
  destruct (getUint32_inside (Fixture.le32 n ++ rest) 0 ltac:(lia)) as [v Hv].
  { rewrite byteLength_app. pose proof (byteLength_nonneg rest).
    change (byteLength (Fixture.le32 n)) with 4. lia. }
  rewrite Hv. f_equal. apply getUint32_sum in Hv. rewrite Hv.
  unfold Fixture.le32. cbn [app].
  change (0 + 1) with (0 + 1). change (0 + 2) with (0 + 1 + 1).
  change (0 + 3) with (0 + 1 + 1 + 1).
  rewrite byteAt_u8, (byteAt_cons _ _ 0), byteAt_u8 by lia.
  rewrite (byteAt_cons _ _ (0 + 1)), (byteAt_cons _ _ 0), byteAt_u8 by lia.
  rewrite (byteAt_cons _ _ (0 + 1 + 1)), (byteAt_cons _ _ (0 + 1)),
    (byteAt_cons _ _ 0), byteAt_u8 by lia.
  pose proof (Z.div_mod n 256 ltac:(lia)) as H0.
  pose proof (Z.div_mod (n / 256) 256 ltac:(lia)) as H1.
  pose proof (Z.div_mod (n / 256 / 256) 256 ltac:(lia)) as H2.
  rewrite (Z.div_div n 256 256) in H1, H2 by lia.
  rewrite (Z.div_div n (256 * 256) 256) in H2 by lia.
  change (256 * 256) with 65536 in *. change (65536 * 256) with 16777216 in *.
  assert (Hq : 0 <= n / 16777216 < 256).
  { split; [apply Z.div_pos; lia|apply Z.div_lt_upper_bound; lia]. }
  rewrite (Z.mod_small (n / 16777216)) by exact Hq. lia.
Qed.

(** A two-byte field read where it lies. *)
Lemma read16 (buf a : list byte) (n : Z) (b : list byte) (off : Z) :
  buf = a ++ Fixture.le16 n ++ b -> off = byteLength a -> 0 <= n < 65536 ->
  getUint16 buf off = Normal n.
Proof.
  intros -> -> Hn. rewrite <- (Z.add_0_r (byteLength a)).
  rewrite getUint16_app_r by lia. apply getUint16_le16, Hn.
Qed.

(** A four-byte field read where it lies. *)
Lemma read32 (buf a : list byte) (n : Z) (b : list byte) (off : Z) :
  buf = a ++ Fixture.le32 n ++ b -> off = byteLength a -> 0 <= n < 4294967296 ->
  getUint32 buf off = Normal n.
Proof.
  intros -> -> Hn. rewrite <- (Z.add_0_r (byteLength a)).
  rewrite getUint32_app_r by lia. apply getUint32_le32, Hn.
Qed.

Lemma slice_middle (buf a m b : list byte) (from to : Z) :
  buf = a ++ m ++ b -> from = byteLength a -> to = byteLength a + byteLength m ->
  slice buf from to = m.
Proof.
  intros -> -> ->. unfold slice. rewrite !byteLength_app.
  pose proof (byteLength_nonneg a). pose proof (byteLength_nonneg m).
  pose proof (byteLength_nonneg b).
  rewrite !Z.min_l by lia.
  replace (byteLength a + byteLength m - byteLength a) with (byteLength m) by lia.
  unfold byteLength. rewrite !Nat2Z.id.
  change (firstn ?n ?l) with (take n l). change (skipn ?n ?l) with (drop n l).
  rewrite drop_app_length, take_app_length. reflexivity.
Qed.
(** ** The ZIP reader on the archives it is made for *)

Section ArchiveReading.
Context `{Host}.

Lemma wellFormed_fields (e : Archive.Entry) :
  Archive.wellFormed e = true ->
  length (Archive.version e) = 2%nat /\ length (Archive.method e) = 2%nat
  /\ length (Archive.stamp e) = 8%nat /\ length (Archive.plainSize e) = 4%nat
  /\ 0 <= Archive.flags e < 65536
  /\ byteLength (list_byte_of_string (Archive.path e)) < 65536
  /\ byteLength (Archive.extra e) < 65536
  /\ byteLength (Archive.payload e) < 4294967296
  /\ 0 <= Archive.headerSize e < 4294967296
  /\ (if Archive.streamed e then
        length (Archive.descriptorCrc e) = 4%nat
        /\ length (Archive.descriptorSize e) = 4%nat
        /\ Fixture.noDescriptorBelow (Archive.payload e ++ [x50; x4b; x07])
             (length (Archive.payload e ++ [x50; x4b; x07])) = true
      else Archive.headerSize e = byteLength (Archive.payload e)).
Proof.
  unfold Archive.wellFormed. rewrite !andb_true_iff.
  intros [[[[[[[[[[_ Hv] Hm] Hs] Hp] Hf0] Hf1] Hn] Hx] Hpl] Hkind].
  apply Nat.eqb_eq in Hv, Hm, Hs, Hp.
  apply Z.leb_le in Hf0. apply Z.ltb_lt in Hf1, Hn, Hx, Hpl.
  pose proof (byteLength_nonneg (Archive.payload e)) as Hpl0.
  repeat (split; [assumption || lia|]).
  destruct (Archive.streamed e).
  - rewrite !andb_true_iff in Hkind. destruct Hkind as [[[[Hh0 Hh1] Hc] Hd] Hnone].
    apply Nat.eqb_eq in Hc, Hd. apply Z.leb_le in Hh0. apply Z.ltb_lt in Hh1.
    split; [lia|]. repeat split; assumption.
  - apply Z.eqb_eq in Hkind. split; [lia|exact Hkind].
Qed.

Lemma byteLength_header (e : Archive.Entry) :
  Archive.wellFormed e = true ->
  byteLength (Archive.header e)
  = 30 + byteLength (list_byte_of_string (Archive.path e)) + byteLength (Archive.extra e).
Proof.
  intros Hwf. destruct (wellFormed_fields e Hwf) as (Hv & Hm & Hs & Hp & _).
  unfold Archive.header. rewrite !byteLength_app. unfold byteLength.
  rewrite Hv, Hm, Hs, Hp. cbn [length Fixture.le16 Fixture.le32]. lia.
Qed.

Lemma byteLength_record (e : Archive.Entry) :
  Archive.wellFormed e = true ->
  byteLength (Archive.record e)
  = byteLength (Archive.header e) + byteLength (Archive.payload e)
    + (if Archive.streamed e then 16 else 0).
Proof.
  intros Hwf. destruct (wellFormed_fields e Hwf) as (_ & _ & _ & _ & _ & _ & _ & _ & _ & Hkind).
  unfold Archive.record, Archive.descriptor. rewrite !byteLength_app.
  destruct (Archive.streamed e).
  - destruct Hkind as (Hc & Hd & _). rewrite !byteLength_app. unfold byteLength.
    rewrite Hc, Hd. cbn [length Fixture.le32]. lia.
  - unfold byteLength. cbn [length]. lia.
Qed.

(** The inner scan finds the first position that reads as the descriptor
    signature. *)
Lemma scanDescriptor_finds (buf : list byte) (D n size' : Z) :
  0 <= D -> 0 <= n ->
  (forall i, 0 <= i < n ->
     exists v, getUint32 buf (D + i) = Normal v /\ v <> 0x08074b50) ->
  getUint32 buf (D + n) = Normal 0x08074b50 ->
  getUint32 buf (D + n + 8) = Normal size' ->
  forall (fuel : nat) (i size : Z),
    0 <= i <= n -> n - i < Z.of_nat fuel ->
    scanDescriptor buf fuel (D + i) size = Normal (D + n + 16, size').
Proof.
  intros HD Hn Hbefore Hsig Hsize.
  pose proof (getUint32_Normal _ _ _ Hsig) as (_ & Hlen & _).
  induction fuel as [|fuel IH]; intros i size Hi Hfuel; [lia|].
  cbn [scanDescriptor].
  replace (D + i <? byteLength buf) with true by (symmetry; apply Z.ltb_lt; lia).
  destruct (decide (i = n)) as [->|Hne].
  - rewrite Hsig, bind_Normal, Z.eqb_refl, Hsize, bind_Normal. reflexivity.
  - destruct (Hbefore i ltac:(lia)) as (v & Hv & Hvne).
    rewrite Hv, bind_Normal.
    replace (v =? 0x08074b50) with false by (symmetry; apply Z.eqb_neq; exact Hvne).
    rewrite <- Z.add_assoc. apply IH; lia.
Qed.

Lemma locate_record (pre post : list byte) (e : Archive.Entry) :
  Archive.wellFormed e = true ->
  locate (pre ++ Archive.record e ++ post) (byteLength pre)
  = Normal (Some (mkMember (Archive.path e)
                    (byteLength pre + byteLength (Archive.header e))
                    (byteLength (Archive.payload e))
                    (byteLength pre + byteLength (Archive.record e)))).
Proof.
  intros Hwf.
  pose proof (byteLength_header e Hwf) as Hhdr.
  pose proof (byteLength_record e Hwf) as Hrec.
  destruct (wellFormed_fields e Hwf)
    as (Hv & Hm & Hs & Hp & Hf & Hn & Hx & Hpl & Hh & Hkind).
  pose proof (byteLength_nonneg pre) as Hpre0.
  pose proof (byteLength_nonneg (list_byte_of_string (Archive.path e))) as Hn0.
  pose proof (byteLength_nonneg (Archive.extra e)) as Hx0.
  pose proof (byteLength_nonneg (Archive.payload e)) as Hpl0.
  set (buf := pre ++ Archive.record e ++ post).
  set (nameBytes := list_byte_of_string (Archive.path e)) in *.
  assert (Hbuf : buf = pre ++ Fixture.le32 0x04034b50 ++ Archive.version e
                       ++ Fixture.le16 (Archive.flags e) ++ Archive.method e
                       ++ Archive.stamp e ++ Fixture.le32 (Archive.headerSize e)
                       ++ Archive.plainSize e ++ Fixture.le16 (byteLength nameBytes)
                       ++ Fixture.le16 (byteLength (Archive.extra e))
                       ++ nameBytes ++ Archive.extra e ++ Archive.payload e
                       ++ Archive.descriptor e ++ post).
  { subst buf nameBytes. unfold Archive.record, Archive.header.
    rewrite <- !app_assoc. reflexivity. }
  assert (R0 : getUint32 buf (byteLength pre) = Normal 0x04034b50).
  { eapply (read32 buf pre); [exact Hbuf|reflexivity|lia]. }
  assert (R6 : getUint16 buf (byteLength pre + 6) = Normal (Archive.flags e)).
  { eapply (read16 buf (pre ++ Fixture.le32 0x04034b50 ++ Archive.version e));
      [rewrite Hbuf, <- !app_assoc; reflexivity| |exact Hf].
    rewrite !byteLength_app. unfold byteLength. rewrite Hv.
    cbn [length Fixture.le32]. lia. }
  assert (R18 : getUint32 buf (byteLength pre + 18) = Normal (Archive.headerSize e)).
  { eapply (read32 buf (pre ++ Fixture.le32 0x04034b50 ++ Archive.version e
                        ++ Fixture.le16 (Archive.flags e) ++ Archive.method e
                        ++ Archive.stamp e));
      [rewrite Hbuf, <- !app_assoc; reflexivity| |exact Hh].
    rewrite !byteLength_app. unfold byteLength. rewrite Hv, Hm, Hs.
    cbn [length Fixture.le32 Fixture.le16]. lia. }
  assert (R26 : getUint16 buf (byteLength pre + 26) = Normal (byteLength nameBytes)).
  { eapply (read16 buf (pre ++ Fixture.le32 0x04034b50 ++ Archive.version e
                        ++ Fixture.le16 (Archive.flags e) ++ Archive.method e
                        ++ Archive.stamp e ++ Fixture.le32 (Archive.headerSize e)
                        ++ Archive.plainSize e));
      [rewrite Hbuf, <- !app_assoc; reflexivity| |lia].
    rewrite !byteLength_app. unfold byteLength. rewrite Hv, Hm, Hs, Hp.
    cbn [length Fixture.le32 Fixture.le16]. lia. }
  assert (R28 : getUint16 buf (byteLength pre + 28) = Normal (byteLength (Archive.extra e))).
  { eapply (read16 buf (pre ++ Fixture.le32 0x04034b50 ++ Archive.version e
                        ++ Fixture.le16 (Archive.flags e) ++ Archive.method e
                        ++ Archive.stamp e ++ Fixture.le32 (Archive.headerSize e)
                        ++ Archive.plainSize e ++ Fixture.le16 (byteLength nameBytes)));
      [rewrite Hbuf, <- !app_assoc; reflexivity| |lia].
    rewrite !byteLength_app. unfold byteLength. rewrite Hv, Hm, Hs, Hp.
    cbn [length Fixture.le32 Fixture.le16]. lia. }
  assert (Hname : string_of_list_byte
                    (slice buf (byteLength pre + 30)
                       (byteLength pre + 30 + byteLength nameBytes))
                  = Archive.path e).
  { rewrite (slice_middle buf
               (pre ++ Fixture.le32 0x04034b50 ++ Archive.version e
                ++ Fixture.le16 (Archive.flags e) ++ Archive.method e
                ++ Archive.stamp e ++ Fixture.le32 (Archive.headerSize e)
                ++ Archive.plainSize e ++ Fixture.le16 (byteLength nameBytes)
                ++ Fixture.le16 (byteLength (Archive.extra e)))
               nameBytes
               (Archive.extra e ++ Archive.payload e ++ Archive.descriptor e ++ post)).
    - apply string_of_list_byte_of_string.
    - rewrite Hbuf, <- !app_assoc. reflexivity.
    - rewrite !byteLength_app. unfold byteLength. rewrite Hv, Hm, Hs, Hp.
      cbn [length Fixture.le32 Fixture.le16]. lia.
    - rewrite !byteLength_app. unfold byteLength. rewrite Hv, Hm, Hs, Hp.
      cbn [length Fixture.le32 Fixture.le16]. lia. }
  unfold locate.
  rewrite R0, bind_Normal, Z.eqb_refl. cbn [negb].
  rewrite R6, bind_Normal, R26, bind_Normal, R28, bind_Normal, R18, bind_Normal.
  rewrite Hname. cbn zeta.
  change (negb (Z.land (Archive.flags e) 8 =? 0)) with (Archive.streamed e).
  destruct (Archive.streamed e) eqn:Hstreamed.
  - destruct Hkind as (Hc & Hd & Hnone).
    set (D := byteLength pre + (byteLength nameBytes + byteLength (Archive.extra e) + 30)).
    set (M := Archive.payload e ++ [x50; x4b; x07]) in *.
    assert (Hbuf' : buf = (pre ++ Archive.header e)
                          ++ M ++ [x08] ++ Archive.descriptorCrc e
                          ++ Fixture.le32 (byteLength (Archive.payload e))
                          ++ Archive.descriptorSize e ++ post).
    { subst buf M. unfold Archive.record, Archive.descriptor. rewrite Hstreamed.
      change (Fixture.le32 0x08074b50) with ([x50; x4b; x07] ++ [x08]).
      rewrite <- !app_assoc. reflexivity. }
    assert (HD : D = byteLength (pre ++ Archive.header e)).
    { subst D. rewrite byteLength_app, Hhdr. lia. }
    assert (Hscan : scanDescriptor buf (Z.to_nat (byteLength buf - D)) (D + 0)
                      (Archive.headerSize e)
                    = Normal (D + byteLength (Archive.payload e) + 16,
                              byteLength (Archive.payload e))).
    { apply (scanDescriptor_finds buf D (byteLength (Archive.payload e))
               (byteLength (Archive.payload e))).
      - subst D. lia.
      - exact Hpl0.
      - intros i Hi. rewrite Hbuf', HD, getUint32_app_r by lia.
        rewrite getUint32_app_l
          by (subst M; rewrite byteLength_app; change (byteLength [x50; x4b; x07]) with 3; lia).
        destruct (getUint32_inside M i ltac:(lia)) as [v Hv'].
        { subst M. rewrite byteLength_app. change (byteLength [x50; x4b; x07]) with 3. lia. }
        exists v. split; [exact Hv'|].
        intros ->. exact (noDescriptorBelow_sound M Hnone i Hv').
      - eapply (read32 buf (pre ++ Archive.header e ++ Archive.payload e));
          [| |lia].
        + subst buf. unfold Archive.record, Archive.descriptor. rewrite Hstreamed.
          rewrite <- !app_assoc. reflexivity.
        + subst D. rewrite !byteLength_app, Hhdr. lia.
      - eapply (read32 buf (pre ++ Archive.header e ++ Archive.payload e
                            ++ Fixture.le32 0x08074b50 ++ Archive.descriptorCrc e));
          [| |lia].
        + subst buf. unfold Archive.record, Archive.descriptor. rewrite Hstreamed.
          rewrite <- !app_assoc. reflexivity.
        + assert (Hc' : byteLength (Archive.descriptorCrc e) = 4)
            by (unfold byteLength; rewrite Hc; reflexivity).
          subst D. rewrite !byteLength_app, Hhdr, Hc'.
          change (byteLength (Fixture.le32 134695760)) with 4. lia.
      - split; [lia|exact Hpl0].
      - subst D. unfold buf. rewrite !byteLength_app, Hrec, Hhdr.
        pose proof (byteLength_nonneg post). lia. }
    rewrite Z.add_0_r in Hscan. rewrite Hscan, bind_Normal.
    do 3 f_equal; subst D; lia.
  - rewrite bind_Normal. do 3 f_equal; lia.
Qed.

Lemma entry_record (pre post : list byte) (e : Archive.Entry) :
  Archive.wellFormed e = true ->
  entry (pre ++ Archive.record e ++ post) (byteLength pre)
  = (file ← Archive.member e;
     Normal (Next (byteLength pre + byteLength (Archive.record e)) file)).
Proof.
  intros Hwf. unfold entry. rewrite locate_record by exact Hwf. rewrite bind_Normal.
  unfold extract, Archive.member. cbn [pathName dataOffset compressedSize nextOffset].
  rewrite (slice_middle (pre ++ Archive.record e ++ post)
             (pre ++ Archive.header e) (Archive.payload e)
             (Archive.descriptor e ++ post)).
  - destruct (isFileEntry (Archive.path e)); [|rewrite !bind_Normal; reflexivity].
    destruct (decompressData (Archive.payload e)); reflexivity.
  - unfold Archive.record. rewrite <- !app_assoc. reflexivity.
  - rewrite byteLength_app. reflexivity.
  - rewrite byteLength_app. reflexivity.
Qed.

Lemma walk_archive (trailer : list byte) (es : list Archive.Entry) :
  Archive.closes trailer = true ->
  forallb Archive.wellFormed es = true ->
  forall (pre : list byte) (files : list File) (fuel : nat),
    byteLength (Archive.archive es trailer) <= Z.of_nat fuel ->
    walk (pre ++ Archive.archive es trailer) fuel (byteLength pre) files
    = Archive.members es files.
Proof.
  intros Hcloses. induction es as [|e es IH]; intros Hwf pre files fuel Hfuel.
  - change (Archive.archive [] trailer) with trailer in *.
    cbn [Archive.members]. destruct trailer as [|t trailer].
    + rewrite app_nil_r. destruct fuel; cbn [walk]; rewrite Z.ltb_irrefl; reflexivity.
    + destruct fuel as [|fuel]; [unfold byteLength in Hfuel; cbn [length] in Hfuel; lia|].
      cbn [walk].
      replace (byteLength pre <? byteLength (pre ++ t :: trailer)) with true
        by (symmetry; apply Z.ltb_lt; rewrite byteLength_app; unfold byteLength;
            cbn [length]; lia).
      unfold entry, locate.
      rewrite <- (Z.add_0_r (byteLength pre)) at 1.
      rewrite (getUint32_app_r pre (t :: trailer) 0) by lia.
      unfold Archive.closes in Hcloses.
      destruct (getUint32 (t :: trailer) 0) as [v| |]; try discriminate.
      rewrite bind_Normal, Hcloses. reflexivity.
  - cbn [forallb] in Hwf. apply andb_true_iff in Hwf as [He Hes].
    assert (Harch : Archive.archive (e :: es) trailer
                    = Archive.record e ++ Archive.archive es trailer).
    { unfold Archive.archive. cbn [map concat]. rewrite <- app_assoc. reflexivity. }
    rewrite Harch in *.
    pose proof (byteLength_header e He) as Hhdr.
    pose proof (byteLength_record e He) as Hrec.
    pose proof (byteLength_nonneg (list_byte_of_string (Archive.path e))).
    pose proof (byteLength_nonneg (Archive.extra e)).
    pose proof (byteLength_nonneg (Archive.payload e)).
    pose proof (byteLength_nonneg (Archive.archive es trailer)).
    assert (0 <= (if Archive.streamed e then 16 else 0)) by (destruct (Archive.streamed e); lia).
    rewrite byteLength_app in Hfuel.
    destruct fuel as [|fuel]; [lia|].
    cbn [walk Archive.members].
    replace (byteLength pre <? byteLength (pre ++ Archive.record e ++ Archive.archive es trailer))
      with true by (symmetry; apply Z.ltb_lt; rewrite !byteLength_app; lia).
    rewrite entry_record by exact He.
    destruct (Archive.member e) as [file| |]; [|reflexivity..].
    rewrite !bind_Normal.
    rewrite <- byteLength_app, app_assoc.
    apply IH; [exact Hes|lia].
Qed.

End ArchiveReading.

(** X12.  [decompressZip] reads the archives it is made for.  Given an
    archive made of well-formed records (local header, payload and, for a
    streamed member, a data descriptor found by its signature), whose path
    names are written in well-formed UTF-8 without a leading byte order
    mark, so that [TextDecoder] hands them on as they are, and closed by
    nothing or by bytes that do not start as a local header, as the central
    directory does, the reader returns one file for each member that is not
    a directory placeholder, in order, named by the last segment of the
    member's path and holding the inflated payload; it throws when a
    payload does not inflate.  The version, method, time, date, CRC and
    uncompressed-size fields have no influence, and neither has the
    compressed-size field of a streamed member's header. *)
Theorem decompressZip_reads_archive `{Host} (es : list Archive.Entry)
    (trailer : list byte) :
  forallb Archive.wellFormed es = true ->
  Archive.closes trailer = true ->
  decompressZip (Archive.archive es trailer) = Archive.members es [].
Proof.
  intros Hwf Hcloses. unfold decompressZip.
  apply (walk_archive trailer es Hcloses Hwf [] [] _).
  unfold byteLength. lia.
Qed.

Lemma decompressZip_reads_archive_witness :
  decompressZip (H := Fixture.host)
    (Archive.archive
       [Archive.mkEntry [x14; x00] 0 [x08; x00] [x00; x00; x00; x00; x00; x00; x00; x00]
          0 [x00; x00; x00; x00] "docs/" [] [] [] [];
        Archive.mkEntry [x14; x00] 8 [x08; x00] [x00; x00; x00; x00; x00; x00; x00; x00]
          0 [x00; x00; x00; x00] "docs/a.xml" [xff; xfe] Fixture.deflatedEmpty
          [x00; x00; x00; x00] [x00; x00; x00; x00];
        Archive.mkEntry [x14; x00] 0 [x08; x00] [x00; x00; x00; x00; x00; x00; x00; x00]
          2 [x00; x00; x00; x00] "docs/様式.xsl" [] Fixture.deflatedEmpty [] []]
       [x50; x4b; x01; x02; x00])
  = Normal [mkFile "a.xml" "" "" 1700000000000 []; mkFile "様式.xsl" "" "" 1700000000000 []].
Proof.
  rewrite (decompressZip_reads_archive (H := Fixture.host)); vm_compute; reflexivity.
Defined.
(** ** The ZIP reader: how many files, and their names *)

Section ArchiveBounds.
Context `{Host}.

(** A turn that goes on has read a whole 30-byte header. *)
Lemma entry_header_inside (buf : list byte) (offset offset' : Z) (file : option File) :
  entry buf offset = Normal (Next offset' file) -> offset + 30 <= byteLength buf.
Proof.
  unfold entry, locate. intros Hentry.
  destruct (getUint32 buf offset) as [signature| |]; try discriminate.
  rewrite bind_Normal in Hentry.
  destruct (negb (signature =? 67324752)); [discriminate|].
  destruct (getUint16 buf (offset + 6)) as [flag| |]; try discriminate.
  rewrite bind_Normal in Hentry.
  destruct (getUint16 buf (offset + 26)) as [nameLength| |]; try discriminate.
  rewrite bind_Normal in Hentry.
  destruct (getUint16 buf (offset + 28)) as [extraLength| |] eqn:Hextra; try discriminate.
  apply getUint16_Normal in Hextra. lia.
Qed.

Lemma length_push (files : list File) (file : option File) :
  (length (push files file) <= S (length files))%nat.
Proof. destruct file; cbn [push]; rewrite ?length_app; cbn [length]; lia. Qed.

Lemma walk_bound (buf : list byte) (fuel : nat) :
  forall (offset : Z) (files0 files : list File),
    0 <= offset ->
    walk buf fuel offset files0 = Normal files ->
    30 * (Z.of_nat (length files) - Z.of_nat (length files0))
    <= Z.max 0 (byteLength buf - offset).
Proof.
  induction fuel as [|fuel IH]; intros offset files0 files Hoffset Hwalk.
  - cbn [walk] in Hwalk. destruct (offset <? byteLength buf); [discriminate|].
    injection Hwalk as <-. lia.
  - cbn [walk] in Hwalk.
    destruct (offset <? byteLength buf) eqn:Hinside; [|injection Hwalk as <-; lia].
    apply Z.ltb_lt in Hinside.
    pose proof (entry_sound buf offset Hoffset) as Hsound.
    destruct (entry buf offset) as [[|offset' file]| |] eqn:Hentry; try discriminate.
    + rewrite bind_Normal in Hwalk. injection Hwalk as <-. lia.
    + rewrite bind_Normal in Hwalk.
      pose proof (entry_header_inside buf offset offset' file Hentry) as Hheader.
      pose proof (length_push files0 file) as Hpush.
      pose proof (IH offset' (push files0 file) files ltac:(lia) Hwalk) as Hrest.
      lia.
Qed.

End ArchiveBounds.

(** X13.  A returned list of files has at most one file for every 30 bytes
    of the archive: each turn of the loop that yields a file has read a
    whole local header inside the buffer and moved past it.  A buffer
    shorter than 30 bytes yields no file. *)
Theorem decompressZip_one_file_per_header `{Host} (arrayBuffer : list byte)
    (files : list File) :
  decompressZip arrayBuffer = Normal files ->
  30 * Z.of_nat (length files) <= byteLength arrayBuffer.
Proof.
  intros Hrun. unfold decompressZip in Hrun.
  pose proof (walk_bound arrayBuffer _ 0 [] files ltac:(lia) Hrun) as Hbound.
  cbn [length] in Hbound. pose proof (byteLength_nonneg arrayBuffer). lia.
Qed.

Lemma decompressZip_one_file_per_header_witness :
  30 * Z.of_nat (length [mkFile "a.xml" "" "" 1700000000000 []])
  <= byteLength (Fixture.localHeader 0 8 2 "a.xml" ++ Fixture.deflatedEmpty).
Proof.
  apply (decompressZip_one_file_per_header (H := Fixture.host)).
  vm_compute. reflexivity.
Defined.

(** ** Path names *)

Lemma terminatorLength_before_slash (c : ascii) (d t : string) :
  JS.terminatorLength (String c (d +:+ String "/" t)) = JS.terminatorLength (String c d).
Proof.
  destruct c as [[] [] [] [] [] [] [] []]; try reflexivity.
  destruct d as [|c1 d]; [reflexivity|].
  rewrite string_app_cons.
  destruct c1 as [[] [] [] [] [] [] [] []]; try reflexivity.
  destruct d as [|c2 d]; [reflexivity|].
  rewrite string_app_cons.
  destruct c2 as [[] [] [] [] [] [] [] []]; reflexivity.
Qed.

Lemma splitLine_oneLine (s : string) :
  JS.oneLine s = true -> JS.hasChar "/" s = false ->
  JS.splitLine s = (None, s, "").
Proof.
  induction s as [|c s IH]; intros Hline Hslash; [reflexivity|].
  cbn [JS.oneLine] in Hline. apply andb_true_iff in Hline as [Hterm Hline].
  apply Nat.eqb_eq in Hterm.
  cbn [JS.hasChar] in Hslash. apply orb_false_iff in Hslash as [Hc Hslash].
  cbn [JS.splitLine]. rewrite Hterm. cbn [Nat.ltb Nat.leb].
  rewrite (IH Hline Hslash), Hc. reflexivity.
Qed.

Lemma splitLine_last_segment (dir file : string) :
  JS.oneLine dir = true -> JS.oneLine file = true -> JS.hasChar "/" file = false ->
  JS.splitLine (dir +:+ String "/" file)
  = (Some file, dir +:+ String "/" file, "").
Proof.
  intros Hdir Hfile Hslash. induction dir as [|c dir IH].
  - rewrite string_app_nil_l.
    change (JS.splitLine (String "/" file))
      with (let '(cut, line, rest) := JS.splitLine file in
            (Some (match cut with Some t => t | None => line end),
             String "/"%char line, rest)).
    rewrite (splitLine_oneLine file Hfile Hslash). reflexivity.
  - cbn [JS.oneLine] in Hdir. apply andb_true_iff in Hdir as [Hterm Hdir].
    apply Nat.eqb_eq in Hterm.
    rewrite string_app_cons. cbn [JS.splitLine].
    rewrite terminatorLength_before_slash, Hterm. cbn [Nat.ltb Nat.leb].
    rewrite (IH Hdir).
    destruct (Ascii.eqb c "/"); reflexivity.
Qed.

(** X14.  The name given to an extracted file is the last segment of the
    member's path: for a path free of line terminators, everything up to
    and including the last slash is removed, and a path without a slash is
    kept whole.  Members of different folders with the same last segment
    get the same file name. *)
Theorem baseName_last_segment (dir file : string) :
  JS.oneLine dir = true -> JS.oneLine file = true -> JS.hasChar "/" file = false ->
  JS.baseName file = file
  /\ JS.baseName (dir +:+ String "/" file) = file.
Proof.
  intros Hdir Hfile Hslash. unfold JS.baseName. cbn [JS.stripDirs]. split.
  - rewrite (splitLine_oneLine file Hfile Hslash). reflexivity.
  - rewrite (splitLine_last_segment dir file Hdir Hfile Hslash).
    clear. induction file as [|c file IH]; [reflexivity|].
    rewrite string_app_cons, IH. reflexivity.
Qed.

Lemma baseName_last_segment_witness :
  JS.baseName "a.xml" = "a.xml" /\ JS.baseName "docs/2024/a.xml" = "a.xml".
Proof.
  apply (baseName_last_segment "docs/2024" "a.xml"); reflexivity.
Defined.

(** ** viewer.js: folders *)

Lemma firstPart_before_slash (d rest : string) :
  JS.hasChar "/" d = false -> firstPart (d +:+ String "/" rest) = Some d.
Proof.
  induction d as [|c d IH]; intros Hd.
  - rewrite string_app_nil_l. reflexivity.
  - cbn [JS.hasChar] in Hd. apply orb_false_iff in Hd as [Hc Hd].
    rewrite string_app_cons. cbn [firstPart]. rewrite Hc, (IH Hd). reflexivity.
Qed.

Lemma elem_of_flatFiles (f : File) (results : list Dropped.Resolved) :
  f ∈ Dropped.flatFiles results ->
  exists r, r ∈ results
            /\ (r = Dropped.OneFile f \/ exists files, r = Dropped.Files files /\ f ∈ files).
Proof.
  unfold Dropped.flatFiles. intros Hin.
  apply list_elem_of_In, in_flat_map in Hin as (r & Hr & Hf).
  exists r. split; [apply list_elem_of_In; exact Hr|].
  destruct r as [|file|files].
  - inversion Hf.
  - left. destruct Hf as [->|[]]. reflexivity.
  - right. exists files. split; [reflexivity|apply list_elem_of_In; exact Hf].
Qed.

(** Every file found below a path carries that path in front of its
    relative path. *)
Lemma processEntry_prefix :
  forall (entry : Dropped.Entry) (path : string) (f : File),
    Dropped.truthy path = true ->
    (Dropped.processEntry entry path = Dropped.OneFile f
     \/ exists files, Dropped.processEntry entry path = Dropped.Files files /\ f ∈ files) ->
    exists rest, webkitRelativePath f = path +:+ rest.
Proof.
  fix IH 1. intros entry path f Hpath Hres.
  destruct entry as [[file|]|name entries|].
  - cbn [Dropped.processEntry] in Hres. rewrite Hpath in Hres.
    destruct Hres as [Hres|(files & Hres & _)]; [|discriminate].
    injection Hres as <-. exists (name file). reflexivity.
  - destruct Hres as [Hres|(files & Hres & _)]; discriminate.
  - cbn [Dropped.processEntry] in Hres.
    destruct Hres as [Hres|(files & Hres & Hin)]; [discriminate|].
    injection Hres as <-.
    apply elem_of_flatFiles in Hin as (r & Hr & Hf).
    assert (Hsub : exists rest, webkitRelativePath f = (path +:+ name +:+ "/") +:+ rest).
    { revert Hr. induction entries as [|sub entries IHl]; cbn [map]; intros Hr.
      - inversion Hr.
      - apply elem_of_cons in Hr as [->|Hr]; [|exact (IHl Hr)].
        apply (IH sub (path +:+ name +:+ "/") f).
        + destruct path; [discriminate|reflexivity].
        + exact Hf. }
    destruct Hsub as [rest Hrest]. exists (name +:+ "/" +:+ rest).
    rewrite Hrest, !string_app_assoc. reflexivity.
  - destruct Hres as [Hres|(files & Hres & _)]; discriminate.
Qed.

(** X15.  When a folder is dropped and at least one file is found in it,
    [handleDrop] passes the files found in the folder, however deep, to
    [addFilesToStorage] and leaves [e.dataTransfer.files] aside.  Each of
    these files has got a relative path that starts with the folder's name
    and a slash; so [extractFolderName] gives that name for it and, the
    name not being empty, the file counts as coming from a folder. *)
Theorem dropped_folder_names_its_files `{Host} (top : string)
    (entries : list Dropped.Entry) (other : option File) (fallback files : list File)
    (st : Viewer.State) :
  JS.hasChar "/" top = false ->
  Dropped.processEntry (Dropped.DirectoryEntry top entries) "" = Dropped.Files files ->
  files <> [] ->
  Dropped.handleDrop
    [Dropped.mkItem true (Some (Dropped.DirectoryEntry top entries)) other] fallback st
  = Viewer.addFilesToStorage files st
  /\ forall f, f ∈ files ->
       extractFolderName f = Some top
       /\ (top <> "" -> sourceTypeOf (extractFolderName f) = folder).
Proof.
  intros Htop Hres Hsome. split.
  - unfold Dropped.handleDrop, Dropped.allFiles, Dropped.resolve.
    cbn [flat_map Dropped.isFileKind Dropped.asEntry app].
    rewrite Hres. unfold Dropped.flatFiles. cbn [flat_map]. rewrite app_nil_r.
    destruct files; [contradiction|reflexivity].
  - intros f Hin.
    assert (Hname : extractFolderName f = Some top).
    { cbn [Dropped.processEntry] in Hres. injection Hres as <-.
      apply elem_of_flatFiles in Hin as (r & Hr & Hf).
      assert (Hsub : exists rest, webkitRelativePath f = ("" +:+ top +:+ "/") +:+ rest).
      { revert Hr. clear Hsome. induction entries as [|sub entries IHl]; cbn [map]; intros Hr.
        - inversion Hr.
        - apply elem_of_cons in Hr as [->|Hr]; [|exact (IHl Hr)].
          apply (processEntry_prefix sub ("" +:+ top +:+ "/") f); [|exact Hf].
          rewrite string_app_nil_l. destruct top; reflexivity. }
      destruct Hsub as [rest Hrest].
      rewrite string_app_nil_l, string_app_assoc in Hrest.
      change ("/" +:+ rest) with (String "/" rest) in Hrest.
      unfold extractFolderName. rewrite Hrest.
      rewrite bool_decide_eq_false_2.
      - apply firstPart_before_slash, Htop.
      - destruct top; discriminate. }
    split; [exact Hname|].
    intros Hne. rewrite Hname. destruct top; [contradiction|reflexivity].
Qed.

Lemma dropped_folder_names_its_files_witness :
  Dropped.handleDrop (H := Fixture.host)
    [Dropped.mkItem true
       (Some (Dropped.DirectoryEntry "docs"
                [Dropped.OtherEntry;
                 Dropped.DirectoryEntry "2024"
                   [Dropped.FileEntry None;
                    Dropped.FileEntry (Some (Fixture.plain "a.xml" 10 "<doc/>"))]]))
       None]
    [] Viewer.initial
  = Viewer.addFilesToStorage (H := Fixture.host)
      [Dropped.withRelativePath "docs/2024/a.xml" (Fixture.plain "a.xml" 10 "<doc/>")]
      Viewer.initial.
Proof.
  refine (proj1 (dropped_folder_names_its_files (H := Fixture.host) "docs"
                  [Dropped.OtherEntry;
                   Dropped.DirectoryEntry "2024"
                     [Dropped.FileEntry None;
                      Dropped.FileEntry (Some (Fixture.plain "a.xml" 10 "<doc/>"))]]
                  None []
                  [Dropped.withRelativePath "docs/2024/a.xml" (Fixture.plain "a.xml" 10 "<doc/>")]
                  Viewer.initial _ _ _)); [reflexivity|reflexivity|discriminate].
Defined.

(** ** The React front end: the selected pair *)

Section AppSelection.
Context `{Host}.

Lemma uniqueKeyOf_nonempty (b : string) (c : Z) : uniqueKeyOf b c <> "".
Proof.
  unfold uniqueKeyOf. destruct b as [|a b].
  - rewrite string_app_nil_l. change ("_" +:+ ?s) with (String "_" s). discriminate.
  - rewrite string_app_cons. discriminate.
Qed.

Lemma pushPair_keys (w : App.Work) (b : string) (xmlFile : File) (xslData : XslData)
    (jigyousho : string) (source : SourceInfo) :
  (forall key pair, (key, pair) ∈ App.newPairs w -> key <> "") ->
  forall key pair,
    (key, pair) ∈ App.newPairs (App.pushPair w b xmlFile xslData jigyousho source) ->
    key <> "".
Proof.
  intros Hw key pair Hin. cbn in Hin. apply elem_of_app in Hin as [Hin|Hin].
  - exact (Hw key pair Hin).
  - apply list_elem_of_singleton in Hin. injection Hin as -> _.
    apply uniqueKeyOf_nonempty.
Qed.

Lemma fold_placeXml_keys (cache : gmap string XslData) (items : list Item) :
  forall w,
    (forall key pair, (key, pair) ∈ App.newPairs w -> key <> "") ->
    forall key pair,
      (key, pair) ∈ App.newPairs (fold_left (App.placeXml cache) items w) -> key <> "".
Proof.
  induction items as [|item items IH]; intros w Hw; [exact Hw|].
  cbn [fold_left]. apply IH. unfold App.placeXml.
  destruct (cache !! _) as [xslData|]; [apply pushPair_keys, Hw|exact Hw].
Qed.

Lemma fold_pushPair_keys (b : string) (xslData : XslData) (pooled : list Pooled) :
  forall w,
    (forall key pair, (key, pair) ∈ App.newPairs w -> key <> "") ->
    forall key pair,
      (key, pair) ∈ App.newPairs
        (fold_left
           (fun w p =>
              App.pushPair w b (pooled_file p) xslData
                (pooled_jigyoushoName p) (pooled_source p))
           pooled w) ->
      key <> "".
Proof.
  induction pooled as [|p pooled IH]; intros w Hw; [exact Hw|].
  cbn [fold_left]. apply IH, pushPair_keys, Hw.
Qed.

Lemma fold_drain_keys (cache : gmap string XslData) (names : list string) :
  forall w,
    (forall key pair, (key, pair) ∈ App.newPairs w -> key <> "") ->
    forall key pair,
      (key, pair) ∈ App.newPairs (fold_left (App.drain cache) names w) -> key <> "".
Proof.
  induction names as [|b names IH]; intros w Hw; [exact Hw|].
  cbn [fold_left]. apply IH. unfold App.drain.
  destruct (App.pool w !! b) as [[|p pooled]|]; [exact Hw| |exact Hw].
  destruct (cache !! b) as [xslData|]; [|exact Hw].
  cbn [App.newPairs]. apply fold_pushPair_keys, Hw.
Qed.

Lemma addFilesToStorage_wellSelected (files : list File) (st : App.State) :
  App.wellSelected st -> App.wellSelected (App.addFilesToStorage files st).1.
Proof.
  intros [Hsel Hkeys]. unfold App.addFilesToStorage.
  destruct (ingest App.isZip 0 files (App.processedFileKeys st) [])
    as [keys [items| |]]; [|split; assumption..].
  destruct (fold_left App.registerXsl _ _) as [cache names].
  set (w := fold_left (App.drain cache) names _).
  assert (Hnew : forall key pair, (key, pair) ∈ App.newPairs w -> key <> "").
  { apply fold_drain_keys, fold_placeXml_keys. intros key pair Hin. inversion Hin. }
  cbn [fst]. unfold App.wellSelected, App.listed.
  cbn [App.selectedKey App.filePairs].
  assert (Hall : forall key pair,
             (key, pair) ∈ App.filePairs st ++ App.newPairs w -> key <> "").
  { intros key pair Hin. apply elem_of_app in Hin as [Hin|Hin];
      [exact (Hkeys key pair Hin)|exact (Hnew key pair Hin)]. }
  split; [|exact Hall].
  destruct (App.filePairs st ++ App.newPairs w) as [|[first pair] rest] eqn:Hupdated.
  - apply app_eq_nil in Hupdated as [Hold _].
    destruct (App.selectedKey st) as [key|]; [|reflexivity].
    destruct Hsel as [p Hin]. rewrite Hold in Hin. inversion Hin.
  - destruct (App.selectedKey st) as [key|] eqn:Hselected.
    + destruct Hsel as [p Hin].
      assert (Hne : key <> "") by exact (Hkeys key p Hin).
      destruct key as [|a key]; [contradiction|]. cbn [App.noSelection].
      exists p. rewrite <- Hupdated. apply elem_of_app. left. exact Hin.
    + cbn [App.noSelection]. exists pair. left.
Qed.

Lemma deletePair_wellSelected (key : string) (st : App.State) :
  App.wellSelected st -> App.wellSelected (App.deletePair key st).
Proof.
  intros [Hsel Hkeys]. unfold App.deletePair, App.wellSelected, App.listed.
  cbn [App.selectedKey App.filePairs]. split.
  - destruct (decide (App.selectedKey st = Some key)) as [Heq|Hne].
    + rewrite bool_decide_eq_true_2 by exact Heq.
      destruct (mapDelete key (App.filePairs st)) as [|[first pair] rest];
        [reflexivity|]. exists pair. left.
    + rewrite bool_decide_eq_false_2 by exact Hne.
      destruct (App.selectedKey st) as [selected|].
      * destruct Hsel as [p Hin]. exists p. unfold mapDelete.
        apply list_elem_of_filter. split; [|exact Hin]. cbn. congruence.
      * rewrite Hsel. reflexivity.
  - intros k pair Hin. unfold mapDelete in Hin.
    apply list_elem_of_filter in Hin as [_ Hin]. exact (Hkeys k pair Hin).
Qed.

Lemma step_wellSelected (st : App.State) (ev : App.Event) :
  App.wellSelected st -> App.wellSelected (App.step st ev).
Proof.
  intros Hst. destruct ev as [files|key|key]; cbn [App.step].
  - apply addFilesToStorage_wellSelected, Hst.
  - case_bool_decide as Hlisted; [|exact Hst].
    destruct Hst as [_ Hkeys]. split; [|exact Hkeys].
    apply list_elem_of_fmap in Hlisted as ([k pair] & -> & Hin). exists pair. exact Hin.
  - case_bool_decide; [|exact Hst].
    apply deletePair_wellSelected, Hst.
Qed.

Lemma run_wellSelected (evs : list App.Event) :
  forall st, App.wellSelected st -> App.wellSelected (App.run evs st).
Proof.
  induction evs as [|ev evs IH]; intros st Hst; [exact Hst|].
  unfold App.run. cbn [fold_left]. apply IH, step_wellSelected, Hst.
Qed.

End AppSelection.

(** X16.  In the React front end, whatever is dropped, selected or deleted,
    in whatever order: no pair is selected exactly when the list is empty,
    and a selected key is always the key of a listed pair.  Deleting a
    listed pair leaves the other pairs in their order; when the deleted pair
    was the selected one, the selection moves to the first pair left, and
    there is none when no pair is left; when another pair was selected, the
    selection stays.  So the preview always has a pair to show while there
    is one. *)
Theorem selection_follows_list `{Host} (evs : list App.Event) :
  (App.selectedKey (App.run evs App.initial) = None
   <-> App.filePairs (App.run evs App.initial) = [])
  /\ (forall key, App.selectedKey (App.run evs App.initial) = Some key ->
        App.listed key (App.run evs App.initial))
  /\ (forall key, App.listed key (App.run evs App.initial) ->
        App.filePairs (App.run (evs ++ [App.DeletePair key]) App.initial)
        = List.filter (fun kv => negb (String.eqb kv.1 key))
            (App.filePairs (App.run evs App.initial))
        /\ (App.selectedKey (App.run evs App.initial) = Some key ->
            App.selectedKey (App.run (evs ++ [App.DeletePair key]) App.initial)
            = fst <$> head (List.filter (fun kv => negb (String.eqb kv.1 key))
                              (App.filePairs (App.run evs App.initial))))
        /\ (App.selectedKey (App.run evs App.initial) <> Some key ->
            App.selectedKey (App.run (evs ++ [App.DeletePair key]) App.initial)
            = App.selectedKey (App.run evs App.initial))).
Proof.
  assert (Hinit : App.wellSelected App.initial).
  { split; [reflexivity|]. intros key pair Hin. inversion Hin. }
  destruct (run_wellSelected evs App.initial Hinit) as [Hsel _].
  split; [|split].
  - destruct (App.selectedKey (App.run evs App.initial)) as [selected|].
    + split; [discriminate|]. intros Hempty.
      destruct Hsel as [pair Hin]. rewrite Hempty in Hin. inversion Hin.
    + split; [intros _; exact Hsel|reflexivity].
  - intros key Heq. rewrite Heq in Hsel. exact Hsel.
  - intros key [pair Hin].
    unfold App.run. rewrite !fold_left_app. cbn [fold_left App.step].
    fold (App.run evs App.initial).
    assert (Hlisted : key ∈ (App.filePairs (App.run evs App.initial)).*1).
    { apply list_elem_of_fmap. exists (key, pair). split; [reflexivity|exact Hin]. }
    case_bool_decide; [|contradiction].
    assert (Hfilter : forall l : list (string * PairData),
              mapDelete key l = List.filter (fun kv => negb (String.eqb kv.1 key)) l).
    { induction l as [|[k v] l IH]; [reflexivity|].
      unfold mapDelete in IH |- *. rewrite filter_cons. cbn [List.filter fst].
      destruct (String.eqb_spec k key) as [Heq|Hne]; cbn [negb].
      - rewrite decide_False by (cbn; intros Hk; exact (Hk Heq)). exact IH.
      - rewrite decide_True by exact Hne. f_equal. exact IH. }
    unfold App.deletePair. cbn [App.filePairs App.selectedKey].
    rewrite <- Hfilter.
    split; [reflexivity|]. split.
    + intros Heq. rewrite bool_decide_eq_true_2 by exact Heq.
      destruct (mapDelete key (App.filePairs (App.run evs App.initial)))
        as [|[first p] rest]; reflexivity.
    + intros Hne. rewrite bool_decide_eq_false_2 by exact Hne. reflexivity.
Qed.
(** ** The React front end: pairs share a basename *)

Lemma stripSuffixI_named (ext s : string) :
  JS.endsWith (JS.toLowerCase s) ext = true ->
  App.named ext (JS.stripSuffixI ext s) s.
Proof.
  induction s as [|c s IH]; intros Hends.
  - cbn [JS.toLowerCase JS.endsWith] in Hends.
    destruct (String.eqb "" ext) eqn:Hext; [|discriminate].
    apply String.eqb_eq in Hext. subst ext. exists "". split; reflexivity.
  - cbn [JS.stripSuffixI].
    destruct (String.eqb (JS.toLowerCase (String c s)) ext) eqn:Hwhole.
    + apply String.eqb_eq in Hwhole. exists (String c s).
      split; [rewrite string_app_nil_l; reflexivity|exact Hwhole].
    + cbn [JS.toLowerCase] in Hends, Hwhole. cbn [JS.endsWith] in Hends.
      rewrite Hwhole in Hends.
      destruct (IH Hends) as (e & Hs & He). exists e.
      split; [|exact He]. rewrite string_app_cons. f_equal. exact Hs.
Qed.

Lemma toLowerCase_length (s : string) :
  String.length (JS.toLowerCase s) = String.length s.
Proof. induction s as [|c s IH]; [reflexivity|]. cbn. f_equal. exact IH. Qed.

Lemma string_app_inj_length (b b' e e' : string) :
  b +:+ e = b' +:+ e' -> String.length e = String.length e' -> b = b' /\ e = e'.
Proof.
  revert b'. induction b as [|a b IH]; intros [|a' b'] Heq Hlen;
    rewrite ?string_app_cons, ?string_app_nil_l in Heq.
  - split; [reflexivity|exact Heq].
  - exfalso. subst e. cbn [String.length] in Hlen.
    assert (Happ : forall x y : string,
               String.length (x +:+ y) = (String.length x + String.length y)%nat).
    { intros x y. induction x as [|c x IHx]; [rewrite string_app_nil_l; reflexivity|].
      rewrite string_app_cons. cbn [String.length]. rewrite IHx. reflexivity. }
    rewrite Happ in Hlen. lia.
  - exfalso. subst e'. cbn [String.length] in Hlen.
    assert (Happ : forall x y : string,
               String.length (x +:+ y) = (String.length x + String.length y)%nat).
    { intros x y. induction x as [|c x IHx]; [rewrite string_app_nil_l; reflexivity|].
      rewrite string_app_cons. cbn [String.length]. rewrite IHx. reflexivity. }
    rewrite Happ in Hlen. lia.
  - injection Heq as -> Heq. destruct (IH b' Heq Hlen) as [-> ->]. split; reflexivity.
Qed.

(** A name has one basename for a given extension. *)
Lemma named_basename (ext b b' e' : string) :
  App.named ext b (b' +:+ e') -> JS.toLowerCase e' = ext -> b = b'.
Proof.
  intros (e & Heq & He) He'. symmetry in Heq.
  apply string_app_inj_length in Heq as [-> _]; [reflexivity|].
  rewrite <- (toLowerCase_length e), <- (toLowerCase_length e'). congruence.
Qed.

Section AppConsistency.
Context `{Host}.

Lemma fold_registerXsl_App_consistent (items : list Item) :
  forall (cache : gmap string XslData) (names : list string),
    (forall b x, cache !! b = Some x -> App.named ".xsl" b (name (xsl_file x))) ->
    Forall (fun item => App.isXsl item = true) items ->
    forall b x, (fold_left App.registerXsl items (cache, names)).1 !! b = Some x ->
                App.named ".xsl" b (name (xsl_file x)).
Proof.
  induction items as [|item items IH]; intros cache names Hcache Hall; [exact Hcache|].
  apply Forall_cons in Hall as [Hitem Hall]. cbn [fold_left].
  set (b0 := JS.stripSuffixI ".xsl" (name (item_file item))).
  set (d0 := mkXslData (item_file item) (titleOf (content (item_file item)))).
  change (App.registerXsl (cache, names) item) with (<[b0 := d0]> cache, names ++ [b0]).
  apply IH; [|exact Hall]. intros b x Hlook.
  destruct (decide (b0 = b)) as [Heq|Hne].
  - rewrite Heq in Hlook. rewrite lookup_insert_eq in Hlook. injection Hlook as <-.
    rewrite <- Heq. cbn [xsl_file d0]. apply stripSuffixI_named.
    unfold App.isXsl in Hitem. apply andb_true_iff in Hitem as [_ Hends]. exact Hends.
  - rewrite lookup_insert_ne in Hlook by exact Hne. exact (Hcache b x Hlook).
Qed.

Lemma pushPair_named (w : App.Work) (b : string) (xmlFile : File) (xslData : XslData)
    (jigyousho : string) (source : SourceInfo) :
  App.workNamed w ->
  App.named ".xml" b (name xmlFile) ->
  App.named ".xsl" b (name (xsl_file xslData)) ->
  App.workNamed (App.pushPair w b xmlFile xslData jigyousho source).
Proof.
  intros [Hpairs Hpool] Hxml Hxsl. split; [|exact Hpool].
  intros k p Hin. cbn in Hin. apply elem_of_app in Hin as [Hin|Hin].
  - exact (Hpairs k p Hin).
  - apply list_elem_of_singleton in Hin. injection Hin as _ ->. split; assumption.
Qed.

Lemma placeXml_named (cache : gmap string XslData) (w : App.Work) (item : Item) :
  (forall b x, cache !! b = Some x -> App.named ".xsl" b (name (xsl_file x))) ->
  App.workNamed w -> App.isXml item = true ->
  App.workNamed (App.placeXml cache w item).
Proof.
  intros Hcache Hw Hitem. unfold App.isXml in Hitem.
  apply stripSuffixI_named in Hitem. unfold App.placeXml.
  destruct (cache !! _) as [xslData|] eqn:Hlook.
  - apply pushPair_named; [exact Hw|exact Hitem|exact (Hcache _ _ Hlook)].
  - destruct Hw as [Hpairs Hpool]. split; [exact Hpairs|].
    intros b l p Hl Hp. cbn in Hl.
    destruct (decide (JS.stripSuffixI ".xml" (name (item_file item)) = b)) as [Heq|Hne].
    + rewrite Heq in *. rewrite lookup_insert_eq in Hl. injection Hl as <-.
      apply elem_of_app in Hp as [Hp|Hp].
      * destruct (App.pool w !! b) as [l0|] eqn:Hl0; [|inversion Hp].
        exact (Hpool b l0 p Hl0 Hp).
      * apply list_elem_of_singleton in Hp. subst p. exact Hitem.
    + rewrite lookup_insert_ne in Hl by exact Hne. exact (Hpool b l p Hl Hp).
Qed.

Lemma fold_placeXml_named (cache : gmap string XslData) (items : list Item) :
  (forall b x, cache !! b = Some x -> App.named ".xsl" b (name (xsl_file x))) ->
  forall w,
    App.workNamed w -> Forall (fun item => App.isXml item = true) items ->
    App.workNamed (fold_left (App.placeXml cache) items w).
Proof.
  intros Hcache. induction items as [|item items IH]; intros w Hw Hall; [exact Hw|].
  apply Forall_cons in Hall as [Hitem Hall]. cbn [fold_left].
  apply IH; [|exact Hall]. apply placeXml_named; assumption.
Qed.

Lemma fold_pushPair_named (b : string) (xslData : XslData) (pooled : list Pooled) :
  App.named ".xsl" b (name (xsl_file xslData)) ->
  forall w,
    App.workNamed w ->
    (forall p, p ∈ pooled -> App.named ".xml" b (name (pooled_file p))) ->
    App.workNamed
      (fold_left
         (fun w p =>
            App.pushPair w b (pooled_file p) xslData
              (pooled_jigyoushoName p) (pooled_source p))
         pooled w).
Proof.
  intros Hxsl. induction pooled as [|p pooled IH]; intros w Hw Hall; [exact Hw|].
  cbn [fold_left]. apply IH.
  - apply pushPair_named; [exact Hw| |exact Hxsl]. apply Hall. left.
  - intros p' Hin. apply Hall. right. exact Hin.
Qed.

Lemma fold_pushPair_pool (b : string) (xslData : XslData) (pooled : list Pooled) :
  forall w,
    App.pool
      (fold_left
         (fun w p =>
            App.pushPair w b (pooled_file p) xslData
              (pooled_jigyoushoName p) (pooled_source p))
         pooled w)
    = App.pool w.
Proof.
  induction pooled as [|p pooled IH]; intros w; [reflexivity|].
  cbn [fold_left]. rewrite IH. reflexivity.
Qed.

Lemma fold_drain_named (cache : gmap string XslData) (names : list string) :
  (forall b x, cache !! b = Some x -> App.named ".xsl" b (name (xsl_file x))) ->
  forall w, App.workNamed w -> App.workNamed (fold_left (App.drain cache) names w).
Proof.
  intros Hcache. induction names as [|b names IH]; intros w Hw; [exact Hw|].
  cbn [fold_left]. apply IH. unfold App.drain.
  destruct (App.pool w !! b) as [[|p pooled]|] eqn:Hpooled; [exact Hw| |exact Hw].
  destruct (cache !! b) as [xslData|] eqn:Hcached; [|exact Hw].
  pose proof Hw as [_ Hpool0].
  pose proof (fold_pushPair_named b xslData (p :: pooled) (Hcache _ _ Hcached) w Hw
                (fun p' Hin => Hpool0 b _ p' Hpooled Hin)) as [Hpairs Hpool].
  split; [exact Hpairs|].
  intros b' l p' Hl Hp. cbn [App.pool] in Hl.
  apply lookup_delete_Some in Hl as [_ Hl]. exact (Hpool b' l p' Hl Hp).
Qed.

Lemma addFilesToStorage_App_consistent (files : list File) (st : App.State) :
  App.consistent st -> App.consistent (App.addFilesToStorage files st).1.
Proof.
  intros (Hpairs & Hcache & Hpool). unfold App.addFilesToStorage.
  destruct (ingest App.isZip 0 files (App.processedFileKeys st) [])
    as [keys [items| |]]; [|exact (conj Hpairs (conj Hcache Hpool))..].
  pose proof (fold_registerXsl_App_consistent (List.filter App.isXsl items)
                (App.xslCache st) [] Hcache (filter_Forall_true _ _)) as Hnames.
  destruct (fold_left App.registerXsl _ _) as [cache names]. cbn [fst] in Hnames.
  assert (Hw : App.workNamed
                 (fold_left (App.drain cache) names
                    (fold_left (App.placeXml cache) (List.filter App.isXml items)
                       (App.mkWork (App.xmlPool st) (App.counterRef st) [])))).
  { apply fold_drain_named; [exact Hnames|].
    apply fold_placeXml_named; [exact Hnames| |apply filter_Forall_true].
    split; [intros k p Hin; inversion Hin|exact Hpool]. }
  destruct Hw as [Hnew Hpool'].
  cbn [fst]. split; [|split; [exact Hnames|exact Hpool']].
  intros k p Hin. cbn [App.filePairs] in Hin. apply elem_of_app in Hin as [Hin|Hin];
    [exact (Hpairs k p Hin)|exact (Hnew k p Hin)].
Qed.

Lemma step_App_consistent (st : App.State) (ev : App.Event) :
  App.consistent st -> App.consistent (App.step st ev).
Proof.
  intros Hst. destruct ev as [files|key|key]; cbn [App.step].
  - apply addFilesToStorage_App_consistent, Hst.
  - case_bool_decide; exact Hst.
  - case_bool_decide; [|exact Hst].
    destruct Hst as (Hpairs & Hcache & Hpool). split; [|split; assumption].
    intros k p Hin. cbn in Hin. unfold mapDelete in Hin.
    apply list_elem_of_filter in Hin as [_ Hin]. exact (Hpairs k p Hin).
Qed.

Lemma run_App_consistent (evs : list App.Event) :
  forall st, App.consistent st -> App.consistent (App.run evs st).
Proof.
  induction evs as [|ev evs IH]; intros st Hst; [exact Hst|].
  unfold App.run. cbn [fold_left]. apply IH, step_App_consistent, Hst.
Qed.

End AppConsistency.

(** X17.  In the React front end, whatever is dropped, selected or deleted,
    in whatever order, every listed pair is made of an XML file and a
    stylesheet whose names are the pair's basename followed by [.xml] and
    by [.xsl] written in any mix of upper and lower case.  The basename
    itself is compared letter for letter: a file named [a.XML] can be paired
    with [a.xsl], a file named [a.xml] never with [A.xsl]. *)
Theorem App_pairs_share_basename `{Host} (evs : list App.Event) (k : string)
    (p : PairData) :
  (k, p) ∈ App.filePairs (App.run evs App.initial) ->
  App.sameBasename p
  /\ ~ (name (xml p) = "a.xml" /\ name (xsl p) = "A.xsl").
Proof.
  intros Hin.
  assert (Hinit : App.consistent App.initial).
  { split; [|split].
    - intros k' p' Hin'. inversion Hin'.
    - intros b x Hlook. cbn in Hlook. rewrite lookup_empty in Hlook. discriminate.
    - intros b l p' Hlook. cbn in Hlook. rewrite lookup_empty in Hlook. discriminate. }
  destruct (run_App_consistent evs App.initial Hinit) as (Hpairs & _ & _).
  pose proof (Hpairs k p Hin) as Hsame. split; [exact Hsame|].
  destruct Hsame as [Hxml Hxsl]. intros [Hx Hs].
  rewrite Hx in Hxml. rewrite Hs in Hxsl.
  apply (named_basename ".xml" (basename p) "a" ".xml") in Hxml; [|reflexivity].
  apply (named_basename ".xsl" (basename p) "A" ".xsl") in Hxsl; [|reflexivity].
  congruence.
Qed.

Lemma App_pairs_share_basename_witness :
  App.sameBasename
    (mkPairData "a" (Fixture.plain "a.XML" 10 "<doc/>") (Fixture.plain "a.xsl" 11 "v1")
       "v1" "" (mkSourceInfo 0 direct "a.XML" None)).
Proof.
  refine (proj1 (App_pairs_share_basename (H := Fixture.host)
                  [App.Drop [Fixture.plain "a.XML" 10 "<doc/>";
                             Fixture.plain "a.xsl" 11 "v1"]]
                  "a_1_1700000000000" _ _)).
  vm_compute. left.
Defined.

(** ** viewer.js: numbering the rows of one basename *)

Lemma string_app_nil_r (s : string) : s +:+ "" = s.
Proof.
  induction s as [|c s IH]; [reflexivity|]. rewrite string_app_cons, IH. reflexivity.
Qed.

Lemma occurrences_cons (b : string) (p : PairData) (pairs : list PairData) :
  Listing.occurrences b (p :: pairs)
  = (if bool_decide (basename p = b) then 1 else 0) + Listing.occurrences b pairs.
Proof.
  unfold Listing.occurrences. cbn [List.filter].
  destruct (bool_decide (basename p = b)); cbn [length]; lia.
Qed.

Lemma occurrences_nonneg (b : string) (pairs : list PairData) :
  0 <= Listing.occurrences b pairs.
Proof. unfold Listing.occurrences. lia. Qed.

Lemma countBasenames_from (pairs : list PairData) :
  forall (m : gmap string Z) (b : string),
    fold_left
      (fun basenameCount p =>
         <[basename p := default 0 (basenameCount !! basename p) + 1]> basenameCount)
      pairs m !! b
    = if Listing.occurrences b pairs =? 0 then m !! b
      else Some (default 0 (m !! b) + Listing.occurrences b pairs).
Proof.
  induction pairs as [|p pairs IH]; intros m b; [reflexivity|].
  cbn [fold_left]. rewrite IH, occurrences_cons.
  pose proof (occurrences_nonneg b pairs) as Hocc.
  case_bool_decide as Hb.
  - subst b. rewrite lookup_insert_eq. cbn [default]; try unfold id.
    replace (1 + Listing.occurrences (basename p) pairs =? 0) with false
      by (symmetry; apply Z.eqb_neq; lia).
    destruct (Listing.occurrences (basename p) pairs =? 0) eqn:Hzero.
    + apply Z.eqb_eq in Hzero. rewrite Hzero. f_equal; lia.
    + f_equal; lia.
  - rewrite lookup_insert_ne by exact Hb. rewrite Z.add_0_l. reflexivity.
Qed.

Lemma several_countBasenames (pairs : list PairData) (b : string) :
  Listing.several (Listing.countBasenames pairs) b = (1 <? Listing.occurrences b pairs).
Proof.
  unfold Listing.several, Listing.countBasenames. rewrite countBasenames_from.
  rewrite lookup_empty. cbn [default]; try unfold id.
  destruct (Listing.occurrences b pairs =? 0) eqn:Hzero.
  - apply Z.eqb_eq in Hzero. rewrite Hzero. reflexivity.
  - rewrite Z.add_0_l. reflexivity.
Qed.

Lemma displayTitlesFrom_lookup (basenameCount : gmap string Z) (pairs : list PairData) :
  forall (basenameIndex : gmap string Z) (i : nat) (p : PairData),
    pairs !! i = Some p ->
    Listing.displayTitlesFrom basenameCount basenameIndex pairs !! i
    = Some (Listing.shown p +:+
            if Listing.several basenameCount (basename p) then
              " (#" +:+
              pretty (default 0 (basenameIndex !! basename p)
                      + Listing.occurrences (basename p) (take i pairs) + 1)
              +:+ ")"
            else "").
Proof.
  induction pairs as [|p0 pairs IH]; intros basenameIndex i p Hp; [discriminate|].
  cbn [Listing.displayTitlesFrom]. unfold Listing.displayTitle.
  destruct i as [|i].
  - injection Hp as <-. cbn [take]. unfold Listing.shown.
    change (Listing.occurrences (basename p0) []) with 0. rewrite Z.add_0_r.
    destruct (Listing.several basenameCount (basename p0)).
    + cbn [lookup list_lookup]. rewrite lookup_insert_eq.
      destruct (title p0); reflexivity.
    + cbn [lookup list_lookup]. rewrite string_app_nil_r.
      destruct (title p0); reflexivity.
  - cbn [lookup list_lookup] in Hp.
    destruct (Listing.several basenameCount (basename p0)) eqn:Hseveral0.
    + cbn [lookup list_lookup]. rewrite (IH _ i p Hp).
      do 2 f_equal.
      destruct (Listing.several basenameCount (basename p)); [|reflexivity].
      do 3 f_equal. cbn [take]. rewrite occurrences_cons.
      case_bool_decide as Hb.
      * rewrite Hb, lookup_insert_eq. cbn [default]; try unfold id. lia.
      * rewrite lookup_insert_ne by exact Hb. lia.
    + cbn [lookup list_lookup]. rewrite (IH _ i p Hp).
      do 2 f_equal.
      destruct (Listing.several basenameCount (basename p)) eqn:Hseveral; [|reflexivity].
      do 3 f_equal. cbn [take]. rewrite occurrences_cons.
      case_bool_decide as Hb; [congruence|lia].
Qed.

(** X18.  The name shown for a row of the list is the pair's title, or its
    basename when it has no title; when several listed pairs have the row's
    basename, it is followed by [ (#k)], where the row is the [k]-th of
    these pairs from the top.  A basename listed once gets no number. *)
Theorem rows_number_shared_basenames (completePairs : list PairData) (i : nat)
    (p : PairData) :
  completePairs !! i = Some p ->
  Listing.displayTitles completePairs !! i
  = Some (Listing.shown p +:+
          if 1 <? Listing.occurrences (basename p) completePairs then
            " (#" +:+
            pretty (Listing.occurrences (basename p) (take i completePairs) + 1) +:+ ")"
          else "").
Proof.
  intros Hp. unfold Listing.displayTitles.
  rewrite (displayTitlesFrom_lookup _ _ _ i p Hp), several_countBasenames.
  rewrite lookup_empty. cbn [default]; try unfold id. rewrite Z.add_0_l. reflexivity.
Qed.

Lemma rows_number_shared_basenames_witness :
  Listing.rows
    (Viewer.run (H := Fixture.host)
       [Viewer.Drop [Fixture.plain "A.xsl" 1 ""; Fixture.plain "B.xsl" 2 "Notice";
                     Fixture.plain "A.xml" 3 "<one/>"; Fixture.plain "B.xml" 4 "<b/>";
                     Fixture.plain "A.xml" 5 "<two/>"]]
       Viewer.initial) !! 2%nat
  = Some "A (#2)".
Proof.
  unfold Listing.rows.
  rewrite (rows_number_shared_basenames _ 2
             (mkPairData "A" (Fixture.plain "A.xml" 5 "<two/>") (Fixture.plain "A.xsl" 1 "")
                "" "" (mkSourceInfo 4 direct "A.xml" None)));
    vm_compute; reflexivity.
Defined.

(** ** viewer.js: stepping through the pairs, [showPair] *)

Lemma mapSet_keys_NoDup {V : Type} (k : string) (v : V) (m : list (string * V)) :
  NoDup m.*1 -> NoDup (mapSet k v m).*1.
Proof.
  induction m as [|[k0 v0] m IH]; intros Hm; cbn [mapSet].
  - cbn. apply NoDup_singleton.
  - case_bool_decide as Hk.
    + subst k0. exact Hm.
    + cbn [fmap list_fmap fst] in Hm |- *. apply NoDup_cons in Hm as [Hout Hm].
      apply NoDup_cons. split; [|exact (IH Hm)].
      intros Hin. apply list_elem_of_fmap in Hin as ([k1 v1] & Heq & Hin).
      cbn [fst] in Heq. subst k1.
      apply mapSet_elem in Hin as [Heq|Hin]; [congruence|].
      apply Hout. apply list_elem_of_fmap. exists (k0, v1). split; [reflexivity|exact Hin].
Qed.

Section ViewerStorage.
Context `{Host}.
Variable P : list (string * PairData) -> Prop.
Hypothesis P_set : forall k v m, P m -> P (mapSet k v m).

Lemma fold_placeXml_storage (items : list Item) :
  forall st,
    P (Viewer.fileStorage st) ->
    P (Viewer.fileStorage (fold_left Viewer.placeXml items st)).
Proof.
  induction items as [|item items IH]; intros st Hst; [exact Hst|].
  cbn [fold_left]. apply IH. unfold Viewer.placeXml.
  destruct (Viewer.xslCache st !! _); [apply P_set, Hst|exact Hst].
Qed.

Lemma fold_storePair_storage (b : string) (xslData : XslData) (pooled : list Pooled) :
  forall st,
    P (Viewer.fileStorage st) ->
    P (Viewer.fileStorage
         (fold_left
            (fun st p =>
               Viewer.storePair st b (pooled_file p) xslData
                 (pooled_jigyoushoName p) (pooled_source p))
            pooled st)).
Proof.
  induction pooled as [|p pooled IH]; intros st Hst; [exact Hst|].
  cbn [fold_left]. apply IH, P_set, Hst.
Qed.

Lemma drainAll_storage (names : list string) :
  forall st,
    P (Viewer.fileStorage st) ->
    P (Viewer.fileStorage (Viewer.drainAll st names).1).
Proof.
  induction names as [|b names IH]; intros st Hst; [exact Hst|].
  cbn [Viewer.drainAll].
  assert (Hdrain : P (Viewer.fileStorage (Viewer.drain st b).1)).
  { unfold Viewer.drain.
    destruct (Viewer.xmlPool st !! b) as [[|p pooled]|]; [exact Hst| |exact Hst].
    destruct (Viewer.xslCache st !! b) as [xslData|]; [|exact Hst].
    cbn [fst Viewer.fileStorage]. apply fold_storePair_storage, Hst. }
  destruct (Viewer.drain st b) as [st' [[]| |]]; cbn [fst] in *; [|exact Hdrain..].
  apply IH, Hdrain.
Qed.

(** A batch changes [fileStorage] by [set] only. *)
Lemma addFilesToStorage_storage (files : list File) (st : Viewer.State) :
  P (Viewer.fileStorage st) ->
  P (Viewer.fileStorage (Viewer.addFilesToStorage files st).1).
Proof.
  intros Hst. unfold Viewer.addFilesToStorage.
  destruct (ingest Viewer.isZip 0 files (Viewer.processedFileKeys st) [])
    as [keys [items| |]]; [|exact Hst..].
  unfold Viewer.pairUp.
  destruct (fold_left Viewer.registerXsl _ _) as [cache names].
  apply drainAll_storage, fold_placeXml_storage. exact Hst.
Qed.

End ViewerStorage.

Lemma mapDelete_keys_NoDup {V : Type} (k : string) (m : list (string * V)) :
  NoDup m.*1 -> NoDup (mapDelete k m).*1.
Proof.
  unfold mapDelete. induction m as [|[k0 v0] m IH]; intros Hm; [exact Hm|].
  cbn [fmap list_fmap fst] in Hm. apply NoDup_cons in Hm as [Hout Hm].
  rewrite filter_cons. cbn [fst]. case_decide as Hk; [|exact (IH Hm)].
  cbn [fmap list_fmap fst]. apply NoDup_cons. split; [|exact (IH Hm)].
  intros Hin. apply Hout.
  apply list_elem_of_fmap in Hin as ([k1 v1] & Heq & Hin).
  apply list_elem_of_filter in Hin as [_ Hin].
  apply list_elem_of_fmap. exists (k1, v1). split; [exact Heq|exact Hin].
Qed.

Lemma run_keys_NoDup `{Host} (evs : list Viewer.Event) :
  forall st, NoDup (Viewer.allKeys st) -> NoDup (Viewer.allKeys (Viewer.run evs st)).
Proof.
  induction evs as [|ev evs IH]; intros st Hst; [exact Hst|].
  unfold Viewer.run. cbn [fold_left]. apply IH.
  unfold Viewer.allKeys in *.
  destruct ev as [files|c|c| |c k]; cbn [Viewer.step].
  - apply (addFilesToStorage_storage (fun m => NoDup m.*1)); [|exact Hst].
    intros k v m. apply mapSet_keys_NoDup.
  - destruct c; [apply NoDup_nil_2|exact Hst].
  - destruct c; [apply NoDup_nil_2|exact Hst].
  - apply NoDup_nil_2.
  - destruct c; [|exact Hst]. cbn [Viewer.deletePair Viewer.fileStorage].
    apply mapDelete_keys_NoDup, Hst.
Qed.

Lemma indexOf_range (k : string) (keys : list string) :
  -1 <= Viewer.indexOf k keys < Z.of_nat (length keys).
Proof.
  induction keys as [|k0 keys IH]; cbn [Viewer.indexOf length]; [lia|].
  case_bool_decide; [lia|].
  destruct (Viewer.indexOf k keys <? 0) eqn:Hneg; [lia|].
  apply Z.ltb_ge in Hneg. lia.
Qed.

Lemma indexOf_absent (k : string) (keys : list string) :
  k ∉ keys -> Viewer.indexOf k keys = -1.
Proof.
  induction keys as [|k0 keys IH]; intros Hout; [reflexivity|].
  cbn [Viewer.indexOf]. apply not_elem_of_cons in Hout as [Hne Hout].
  rewrite bool_decide_eq_false_2 by congruence. rewrite (IH Hout). reflexivity.
Qed.

Lemma indexOf_lookup (keys : list string) :
  forall (i : nat) (k : string),
    NoDup keys -> keys !! i = Some k -> Viewer.indexOf k keys = Z.of_nat i.
Proof.
  induction keys as [|k0 keys IH]; intros i k Hkeys Hi; [discriminate|].
  apply NoDup_cons in Hkeys as [Hout Hkeys]. cbn [Viewer.indexOf].
  destruct i as [|i].
  - injection Hi as ->. rewrite bool_decide_eq_true_2 by reflexivity. reflexivity.
  - cbn [lookup list_lookup] in Hi.
    rewrite bool_decide_eq_false_2.
    + rewrite (IH i k Hkeys Hi).
      replace (Z.of_nat i <? 0) with false by (symmetry; apply Z.ltb_ge; lia). lia.
    + intros ->. apply Hout. apply list_elem_of_lookup. exists i. exact Hi.
Qed.

Lemma indexOf_found (k : string) (keys : list string) :
  0 <= Viewer.indexOf k keys ->
  keys !! Z.to_nat (Viewer.indexOf k keys) = Some k.
Proof.
  induction keys as [|k0 keys IH]; cbn [Viewer.indexOf]; [lia|].
  case_bool_decide as Hk; [intros _; subst k0; reflexivity|].
  destruct (Viewer.indexOf k keys <? 0) eqn:Hneg; [lia|].
  apply Z.ltb_ge in Hneg. intros _.
  replace (Z.to_nat (Viewer.indexOf k keys + 1))
    with (S (Z.to_nat (Viewer.indexOf k keys))) by lia.
  cbn [lookup list_lookup]. exact (IH Hneg).
Qed.

(** X19.  In any state the page can reach, the previous and next buttons of
    the pair view undo each other: when the view of a pair offers a next
    pair, the view of that pair offers the first one as its previous pair,
    and the other way round.  The first pair has no previous pair and the
    last no next one. *)
Theorem prev_next_undo_each_other `{Host} (evs : list Viewer.Event) (k k' : string) :
  let st := Viewer.run evs Viewer.initial in
  k ∈ Viewer.allKeys st ->
  (Viewer.nextKey k st = Some k' <-> Viewer.prevKey k' st = Some k)
  /\ (Viewer.allKeys st !! 0%nat = Some k -> Viewer.prevKey k st = None)
  /\ (last (Viewer.allKeys st) = Some k -> Viewer.nextKey k st = None).
Proof.
  intros st Hin.
  assert (Hdistinct : NoDup (Viewer.allKeys st)).
  { apply run_keys_NoDup. apply NoDup_nil_2. }
  unfold Viewer.nextKey, Viewer.prevKey. cbn zeta.
  set (keys := Viewer.allKeys st) in *.
  apply list_elem_of_lookup in Hin as [i Hi].
  pose proof (lookup_lt_Some _ _ _ Hi) as Hlen.
  rewrite (indexOf_lookup keys i k Hdistinct Hi).
  split; [|split].
  - split.
    + destruct (Z.of_nat i <? Z.of_nat (length keys) - 1) eqn:Hlast; [|discriminate].
      apply Z.ltb_lt in Hlast. unfold Viewer.keyAt.
      replace (Z.of_nat i + 1 <? 0) with false by (symmetry; apply Z.ltb_ge; lia).
      replace (Z.to_nat (Z.of_nat i + 1)) with (S i) by lia. intros Hnext.
      rewrite (indexOf_lookup keys (S i) k' Hdistinct Hnext).
      replace (0 <? Z.of_nat (S i)) with true by (symmetry; apply Z.ltb_lt; lia).
      replace (Z.of_nat (S i) - 1 <? 0) with false by (symmetry; apply Z.ltb_ge; lia).
      replace (Z.to_nat (Z.of_nat (S i) - 1)) with i by lia. exact Hi.
    + pose proof (indexOf_range k' keys) as Hrange.
      destruct (0 <? Viewer.indexOf k' keys) eqn:Hpos; [|discriminate].
      apply Z.ltb_lt in Hpos. unfold Viewer.keyAt.
      replace (Viewer.indexOf k' keys - 1 <? 0) with false
        by (symmetry; apply Z.ltb_ge; lia).
      intros Hprev.
      pose proof (indexOf_found k' keys ltac:(lia)) as Hfound.
      pose proof (indexOf_lookup keys _ k Hdistinct Hprev) as Hk.
      rewrite (indexOf_lookup keys i k Hdistinct Hi) in Hk.
      replace (Z.of_nat i <? Z.of_nat (length keys) - 1) with true
        by (symmetry; apply Z.ltb_lt; lia).
      replace (Z.of_nat i + 1 <? 0) with false by (symmetry; apply Z.ltb_ge; lia).
      replace (Z.to_nat (Z.of_nat i + 1)) with (Z.to_nat (Viewer.indexOf k' keys)) by lia.
      exact Hfound.
  - intros Hfirst.
    assert (i = 0%nat) as -> by (eapply NoDup_lookup; eassumption).
    reflexivity.
  - intros Hlast. rewrite last_lookup in Hlast.
    assert (i = Nat.pred (length keys)) as -> by (eapply NoDup_lookup; eassumption).
    replace (Z.of_nat (Nat.pred (length keys)) <? Z.of_nat (length keys) - 1) with false
      by (symmetry; apply Z.ltb_ge; lia).
    reflexivity.
Qed.

Lemma prev_next_undo_each_other_witness :
  Viewer.nextKey "A_1_1700000000000"
    (Viewer.run (H := Fixture.host)
       [Viewer.Drop [Fixture.plain "A.xsl" 1 ""; Fixture.plain "A.xml" 3 "<one/>";
                     Fixture.plain "A.xml" 5 "<two/>"]]
       Viewer.initial)
  = Some "A_2_1700000000000"
  /\ Viewer.prevKey "A_2_1700000000000"
       (Viewer.run (H := Fixture.host)
          [Viewer.Drop [Fixture.plain "A.xsl" 1 ""; Fixture.plain "A.xml" 3 "<one/>";
                        Fixture.plain "A.xml" 5 "<two/>"]]
          Viewer.initial)
     = Some "A_1_1700000000000".
Proof.
  assert (Hnext :
    Viewer.nextKey "A_1_1700000000000"
      (Viewer.run (H := Fixture.host)
         [Viewer.Drop [Fixture.plain "A.xsl" 1 ""; Fixture.plain "A.xml" 3 "<one/>";
                       Fixture.plain "A.xml" 5 "<two/>"]]
         Viewer.initial)
    = Some "A_2_1700000000000") by (vm_compute; reflexivity).
  split; [exact Hnext|].
  refine (proj1 (proj1 (prev_next_undo_each_other (H := Fixture.host)
                         [Viewer.Drop [Fixture.plain "A.xsl" 1 "";
                                       Fixture.plain "A.xml" 3 "<one/>";
                                       Fixture.plain "A.xml" 5 "<two/>"]]
                         "A_1_1700000000000" "A_2_1700000000000" _)) Hnext).
  vm_compute. left.
Defined.

(** ** The two front ends on names with lower-case extensions *)






Section FrontEnds.
Context `{Host}.







End FrontEnds.



(** ** viewer.js: no XML file is lost in the pairing *)



Section ViewerConservation.
Context `{Host}.





End ViewerConservation.



Section ViewerAccounted.
Context `{Host}.










End ViewerAccounted.

(** ** The ZIP reader: where a streamed member ends *)

(** X22.  For a member whose flag has bit 3 set, the reader takes for the
    data descriptor the first position, from the start of the payload on,
    whose four bytes read as the descriptor signature, be it inside the
    payload or after it.  The compressed size is the number read eight
    bytes further, not the distance scanned, and the next header is looked
    for sixteen bytes after that position; the compressed-size field of the
    header is not used. *)
Theorem scan_takes_first_signature (buf : list byte)
    (offset flag nameLength extraLength headerSize n size' : Z) :
  getUint32 buf offset = Normal 0x04034b50 ->
  getUint16 buf (offset + 6) = Normal flag ->
  Z.land flag 0x0008 <> 0 ->
  getUint16 buf (offset + 26) = Normal nameLength ->
  getUint16 buf (offset + 28) = Normal extraLength ->
  getUint32 buf (offset + 18) = Normal headerSize ->
  0 <= n ->
  (forall i, 0 <= i < n ->
     getUint32 buf (offset + (nameLength + extraLength + 30) + i) <> Normal 0x08074b50) ->
  getUint32 buf (offset + (nameLength + extraLength + 30) + n) = Normal 0x08074b50 ->
  getUint32 buf (offset + (nameLength + extraLength + 30) + n + 8) = Normal size' ->
  locate buf offset
  = Normal (Some (mkMember
                    (string_of_list_byte
                       (slice buf (offset + 30) (offset + 30 + nameLength)))
                    (offset + (nameLength + extraLength + 30))
                    size'
                    (offset + (nameLength + extraLength + 30) + n + 16))).
Proof.
  intros Hsig Hflag Hbit Hname Hextra Hsize Hn Hbefore Hfound Hsize'.
  pose proof (getUint32_Normal _ _ _ Hsig) as (Hoffset & _ & _).
  pose proof (getUint16_Normal _ _ _ Hname) as (_ & _ & Hname0).
  pose proof (getUint16_Normal _ _ _ Hextra) as (_ & _ & Hextra0).
  pose proof (getUint32_Normal _ _ _ Hfound) as (_ & Hlen & _).
  unfold locate.
  rewrite Hsig, bind_Normal, Z.eqb_refl. cbn [negb].
  rewrite Hflag, bind_Normal, Hname, bind_Normal, Hextra, bind_Normal, Hsize, bind_Normal.
  cbn zeta.
  replace (Z.land flag 8 =? 0) with false by (symmetry; apply Z.eqb_neq; exact Hbit).
  cbn [negb].
  set (D := offset + (nameLength + extraLength + 30)) in *.
  assert (Hscan : scanDescriptor buf (Z.to_nat (byteLength buf - D)) (D + 0) headerSize
                  = Normal (D + n + 16, size')).
  { apply (scanDescriptor_finds buf D n size'); try assumption; try lia.
    intros i Hi.
    destruct (getUint32_inside buf (D + i)) as [v Hv]; [lia|lia|].
    exists v. split; [exact Hv|]. intros ->. exact (Hbefore i Hi Hv). }
  rewrite Z.add_0_r in Hscan. rewrite Hscan, bind_Normal. reflexivity.
Qed.

Lemma scan_takes_first_signature_witness :
  locate
    (Fixture.localHeader 8 8 0 "a.xml" ++
     [x50; x4b; x07; x08; x00; x00; x00; x00; x05; x00; x00; x00; x00; x00; x00; x00])
    0
  = Normal (Some (mkMember "a.xml" 35 5 51)).
Proof.
  refine (scan_takes_first_signature
            (Fixture.localHeader 8 8 0 "a.xml" ++
             [x50; x4b; x07; x08; x00; x00; x00; x00; x05; x00; x00; x00;
              x00; x00; x00; x00])
            0 8 5 0 0 0 5 _ _ _ _ _ _ _ _ _ _);
    first [ reflexivity | vm_compute; discriminate | lia | intros i Hi; lia ].
Defined.
